(** * FrugalAI: the failover-aware proxy engine, embedded in Rocq

    A shallow embedding of the Go sources of the proxy:
    - [internal/openrouter/types.go]   the data model,
    - [internal/config]               the configuration record,
    - [internal/model]                the candidate ranker ([Selector]),
    - [internal/server/openai], [internal/server/anthropic]
                                      the two handlers and their copy of the
                                      failover procedure,
    - [cmd/frugalai/main.go]          the process-wide model manager and the
                                      introspection endpoints.

    Go values are modelled as the code has them: [int] is a 64-bit two's
    complement integer (a [Z] with its wrap-around written out), [float64]
    is a primitive IEEE 754 binary64 number, [string] is a sequence of
    bytes, [map[string]T] is a [gmap string T] read with the zero value of
    [T] as default, and a function that can panic returns the state it
    reached together with an [outcome]. *)

From Stdlib Require Import ZArith Floats Permutation.
From Stdlib Require DecimalString.
From stdpp Require Import base option list gmap strings.

Set Warnings "-inexact-float,-register-all".
Local Open Scope Z_scope.

(** ** Go runtime values *)

Module Go.

(** [int] on the 64-bit targets the Dockerfile builds for. *)
Definition int_min : Z := - 2 ^ 63.
Definition int_max : Z := 2 ^ 63 - 1.
Definition wrap_int (z : Z) : Z := (z + 2 ^ 63) `mod` 2 ^ 64 - 2 ^ 63.

(** [x++] on an [int]. *)
Definition incr (x : Z) : Z := wrap_int (x + 1).

(** [a % b], the truncated remainder. *)
Definition rem (a b : Z) : Z := Z.rem a b.

(** [(T, error)] results; an error is its message. *)
Inductive result (A : Type) : Type :=
| Ok (a : A)
| Err (msg : string).
Global Arguments Ok {A} a.
Global Arguments Err {A} msg.

(** How a call ends: it returns, or a run-time panic unwinds it. *)
Inductive outcome (A : Type) : Type :=
| Returned (a : A)
| Panicked (msg : string).
Global Arguments Returned {A} a.
Global Arguments Panicked {A} msg.

(** Reading [m[k]] from a [map[string]int] or [map[string]bool]: a key
    that is absent reads as the zero value. *)
Definition get_int (m : gmap string Z) (k : string) : Z := default 0 (m !! k).
Definition get_bool (m : gmap string bool) (k : string) : bool :=
  default false (m !! k).

(** A [time.Time] as the nanoseconds from the Unix epoch to it, a
    [time.Duration] as nanoseconds. *)
Definition Time := Z.
Definition Minute : Z := 60 * 1000000000.
Definition After (t u : Time) : bool := u <? t.

(** [float64(n)] for an [int] that is positive. *)
Definition float64_of_int (n : Z) : float := PrimFloat.of_uint63 (Uint63.of_Z n).

(** [int(f)]: truncation toward zero. A value outside [int] is
    implementation-dependent in Go; amd64 yields the smallest [int]. *)
Definition int_of_float64 (f : float) : Z :=
  match Prim2SF f with
  | S754_zero _ => 0
  | S754_finite s m e =>
      let mag := if 0 <=? e then Z.pos m * 2 ^ e else Z.pos m / 2 ^ (- e) in
      let v := if s then - mag else mag in
      if (int_min <=? v) && (v <=? int_max) then v else int_min
  | _ => int_min
  end.

(** [math.Min], with the special cases of its documentation. *)
Definition math_Min (x y : float) : float :=
  if PrimFloat.eqb x neg_infinity || PrimFloat.eqb y neg_infinity then neg_infinity
  else if PrimFloat.is_nan x || PrimFloat.is_nan y then nan
  else if PrimFloat.eqb x 0 && PrimFloat.eqb x y then
    (if PrimFloat.get_sign x then x else y)
  else if PrimFloat.ltb x y then x else y.

(** [x*y + z] with a single rounding. The Go compiler may fuse the
    product and the sum of [score += term * weight] into this operation
    (it does on arm64, ppc64le, s390x and riscv64, not on amd64). For
    finite non-zero factors the exact product, plus the addend when it is
    a number, is rounded once; a zero or non-finite factor makes the
    product exact, and the fused and the unfused value are the same. *)
Definition fused_mul_add (x y z : float) : float :=
  match Prim2SF x, Prim2SF y with
  | S754_finite sx mx ex, S754_finite sy my ey =>
      let sign := if xorb sx sy then -1 else 1 in
      match Prim2SF z with
      | S754_finite sz mz ez =>
          let e := Z.min (ex + ey) ez in
          let product := sign * Z.pos mx * Z.pos my * 2 ^ (ex + ey - e) in
          let addend := (if sz then -1 else 1) * Z.pos mz * 2 ^ (ez - e) in
          SF2Prim (binary_normalize prec emax (product + addend) e false)
      | S754_zero _ =>
          SF2Prim (binary_normalize prec emax (sign * Z.pos mx * Z.pos my) (ex + ey) false)
      | _ => z
      end
  | _, _ => (x * y + z)%float
  end.

(** *** Package [strings] on byte strings *)

Fixpoint HasPrefix (s prefix : string) : bool :=
  match prefix, s with
  | EmptyString, _ => true
  | String p ps, String c cs => Ascii.eqb p c && HasPrefix cs ps
  | String _ _, EmptyString => false
  end.

Fixpoint Contains (s substr : string) : bool :=
  HasPrefix s substr ||
  match s with
  | EmptyString => false
  | String _ s' => Contains s' substr
  end.

Fixpoint Join (elems : list string) (sep : string) : string :=
  match elems with
  | [] => EmptyString
  | [e] => e
  | e :: rest => (e ++ sep ++ Join rest sep)%string
  end.

Fixpoint isASCII (s : string) : bool :=
  match s with
  | EmptyString => true
  | String c s' => (Ascii.nat_of_ascii c <? 128)%nat && isASCII s'
  end.

Definition lower_byte (c : Ascii.ascii) : Ascii.ascii :=
  let n := Ascii.nat_of_ascii c in
  if ((65 <=? n) && (n <=? 90))%nat then Ascii.ascii_of_nat (n + 32) else c.

Fixpoint map_bytes (f : Ascii.ascii -> Ascii.ascii) (s : string) : string :=
  match s with
  | EmptyString => EmptyString
  | String c s' => String (f c) (map_bytes f s')
  end.

(** What the program takes from the Go standard library without the
    sources being part of the repository: the natural logarithm, the
    Unicode branch of [strings.ToLower], and [sort.Slice] with the
    contract of its documentation (the slice is rearranged, not
    necessarily stably, so that no element is less than one before it). *)
Class Library := {
  math_Log : float -> float;
  unicode_ToLower : string -> string;
  sort_Slice : forall {A : Type}, (A -> A -> bool) -> list A -> list A;
  sort_Slice_Permutation :
    forall (A : Type) (less : A -> A -> bool) (l : list A),
      Permutation (sort_Slice less l) l;
}.

(** [strings.ToLower]: bytewise on ASCII input, the Unicode mapping
    otherwise. *)
Definition ToLower `{Library} (s : string) : string :=
  if isASCII s then map_bytes lower_byte s else unicode_ToLower s.

End Go.

Import Go.

(** ** [internal/openrouter/types.go] *)

Module openrouter.

Record Architecture := {
  Modality : string;
  InputModalities : list string;
  OutputModalities : list string;
  Tokenizer : string;
  InstructType : option string;
}.

Record Pricing := {
  Prompt : string;
  Completion : string;
}.

Record Model := {
  ID : string;
  Name : string;
  Description : string;
  Model_Pricing : Pricing;
  Model_Architecture : Architecture;
  ContextLength : Z;
  Popularity : Z;
  Params : Z;
}.

Record ChatMessage := {
  Role : string;
  Content : string;
}.

Record ResponseFormat := {
  Format_Type : string;
}.

Record ChatRequest := {
  Req_Model : string;
  Messages : list ChatMessage;
  Temperature : float;
  MaxTokens : Z;
  TopP : float;
  Stream : bool;
  FrequencyPenalty : float;
  PresencePenalty : float;
  Seed : option Z;
  Req_ResponseFormat : option ResponseFormat;
}.

Record ModelScore := {
  Score_Model : Model;
  Score : float;
}.

(** [Current] is a pointer in Go. Every assignment in the program makes
    it point at a copy of a candidate or at a slot of the candidate
    slice, and no slot is written after the slice is built, so the
    pointer is modelled by the value it points at; [None] is [nil]. *)
Record ModelManager := {
  Candidates : list Model;
  Current : option Model;
  CurrentIdx : Z;
  Failures : gmap string Z;
  LastFailure : gmap string Time;
  Timeouts : gmap string Z;
  Burned : gmap string bool;
}.

(** [s[i]] on a slice: a run-time panic when [i] is out of range. *)
Definition index {A : Type} (s : list A) (i : Z) : option A :=
  if (0 <=? i) && (i <? Z.of_nat (length s)) then s !! Z.to_nat i else None.

End openrouter.

Import openrouter.

(** ** [internal/config] *)

Module config.

Record Config := {
  APIKey : string;
  Port : Z;
  MinParams : Z;
  MinPopularity : Z;
  EnableOpenAI : bool;
  EnableAnthropic : bool;
  OpenAIPath : string;
  AnthropicPath : string;
  LogLevel : string;
  CacheTTL : Z;
  PreferredArchitectures : list string;
  ModelIndex : Z;
  NumCandidates : Z;
}.

(** The configuration with another [--min-params]. *)
Definition with_MinParams (cfg : Config) (minParams : Z) : Config :=
  {| APIKey := APIKey cfg; Port := Port cfg;
     MinParams := minParams; MinPopularity := MinPopularity cfg;
     EnableOpenAI := EnableOpenAI cfg; EnableAnthropic := EnableAnthropic cfg;
     OpenAIPath := OpenAIPath cfg; AnthropicPath := AnthropicPath cfg;
     LogLevel := LogLevel cfg; CacheTTL := CacheTTL cfg;
     PreferredArchitectures := PreferredArchitectures cfg;
     ModelIndex := ModelIndex cfg; NumCandidates := NumCandidates cfg |}.

End config.

Import config.

(** ** [internal/model]: the candidate ranker

    A [Selector] holds the client and the configuration. The client is
    used for one thing, [GetFreeModels]; its answer is passed in as
    [free], so the functions below depend on the configuration and on
    that answer only. *)

Module model.
Section Selector.

Context `{Library}.
Variable cfg : Config.

(** [filterModels]: the two [continue] guards of the loop. *)
Definition keeps (m : Model) : bool :=
  negb ((0 <? MinParams cfg) && (Params m <? MinParams cfg)) &&
  negb ((0 <? MinPopularity cfg) && (Popularity m <? MinPopularity cfg)).

Definition filterModels (models : list Model) : list Model :=
  List.filter keeps models.

Definition normalizePopularity (popularity : Z) : float :=
  if popularity <=? 0 then 0.1%float
  else
    let normalized := (math_Log (float64_of_int popularity) / math_Log 1000000)%float in
    math_Min normalized 1.0.

Definition normalizeParams (params : Z) : float :=
  if params <=? 0 then 0.1%float
  else
    let normalized := (float64_of_int params / 70000000000)%float in
    math_Min normalized 1.0.

Definition normalizeContextLength (length : Z) : float :=
  if length <=? 0 then 0.1%float
  else
    let normalized := (float64_of_int length / 200000)%float in
    math_Min normalized 1.0.

Definition isPreferredArchitecture (modality tokenizer : string) : bool :=
  match PreferredArchitectures cfg with
  | [] => false
  | prefs =>
    let combined := (ToLower modality ++ " " ++ ToLower tokenizer)%string in
    existsb (fun preferred => Contains combined (ToLower preferred)) prefs
  end.

(** The table of [getModelQualityBonus]. *)
Definition qualityIndicators : list (list string * float) :=
  [ (["claude"; "anthropic"], 0.15%float);
    (["gpt-"; "openai"], 0.12%float);
    (["gemini"; "google"], 0.10%float);
    (["mistral"; "mixtral"], 0.08%float);
    (["llama"; "meta"], 0.08%float);
    (["qwen"], 0.07%float);
    (["deepseek"], 0.07%float);
    (["command"; "cohere"], 0.06%float);
    (["xiaomi"; "mimo"], 0.08%float);
    (["kwaipilot"; "kat-coder"], 0.08%float);
    (["nvidia"; "nemotron"], 0.07%float);
    (["olmo"; "allenai"], 0.06%float);
    (["trinity"; "arcee"], 0.06%float) ].

Definition weakIndicators : list string := ["tiny"; "mini"; "nano"; "micro"].

Definition getModelQualityBonus (name id : string) : float :=
  let bonus := 0.0%float in
  let nameLower := ToLower name in
  let idLower := ToLower id in
  let bonus :=
    fold_left
      (fun (bonus : float) (indicator : list string * float) =>
         if existsb (fun pattern => Contains idLower pattern || Contains nameLower pattern)
              (fst indicator)
         then (bonus + snd indicator)%float else bonus)
      qualityIndicators bonus in
  let bonus :=
    if Contains idLower "flash" || Contains nameLower "flash"
    then (bonus + 0.03)%float else bonus in
  let bonus :=
    if Contains idLower "pro" || Contains nameLower "pro"
    then (bonus + 0.02)%float else bonus in
  fold_left
    (fun (bonus : float) (indicator : string) =>
       if Contains idLower indicator then (bonus - 0.05)%float else bonus)
    weakIndicators bonus.

(** The value of [score] in [calculateScore] after the three weighted
    terms, where the two bonuses are still to be added. *)
Definition weightedTerms (m : Model) : float :=
  let score := 0.0%float in
  let popularityScore := normalizePopularity (Popularity m) in
  let score := (score + popularityScore * 0.3)%float in
  let paramScore := normalizeParams (Params m) in
  let score := (score + paramScore * 0.4)%float in
  let contextScore := normalizeContextLength (ContextLength m) in
  (score + contextScore * 0.2)%float.

(** The same three statements where the compiler fuses each
    [score += term * weight]. *)
Definition weightedTerms_fused (m : Model) : float :=
  let score := 0.0%float in
  let popularityScore := normalizePopularity (Popularity m) in
  let score := fused_mul_add popularityScore 0.3 score in
  let paramScore := normalizeParams (Params m) in
  let score := fused_mul_add paramScore 0.4 score in
  let contextScore := normalizeContextLength (ContextLength m) in
  fused_mul_add contextScore 0.2 score.

Definition calculateScore (m : Model) : float :=
  let score := weightedTerms m in
  let score :=
    if isPreferredArchitecture (Modality (Model_Architecture m))
         (Tokenizer (Model_Architecture m))
    then (score + 0.1)%float else score in
  (score + getModelQualityBonus (Name m) (ID m))%float.

Definition scoreModels (models : list Model) : list ModelScore :=
  map (fun m => {| Score_Model := m; Score := calculateScore m |}) models.

(** The comparison handed to [sort.Slice]: [scored[i].Score > scored[j].Score]. *)
Definition byScoreDesc (a b : ModelScore) : bool := PrimFloat.ltb (Score b) (Score a).

Definition SelectBest (free : result (list Model)) : outcome (result Model) :=
  match free with
  | Err err => Returned (Err ("failed to get free models: " ++ err))
  | Ok models =>
    if (length models =? 0)%nat then Returned (Err "no free models available")
    else
      let filtered := filterModels models in
      if (length filtered =? 0)%nat then Returned (Err "no models match the constraints")
      else
        let scored := sort_Slice byScoreDesc (scoreModels filtered) in
        match index scored 0 with
        | Some best => Returned (Ok (Score_Model best))
        | None => Panicked "index out of range"
        end
  end.

Definition GetBestModelID (free : result (list Model)) : outcome (result string) :=
  match SelectBest free with
  | Returned (Ok m) => Returned (Ok (ID m))
  | Returned (Err err) => Returned (Err err)
  | Panicked msg => Panicked msg
  end.

(** The loop [for i := 0; i < n && i < len(scored); i++] appends the
    first [n] scored models, none when [n] is not positive. *)
Definition GetTopCandidates (free : result (list Model)) (n : Z) : result (list Model) :=
  match free with
  | Err err => Err ("failed to get free models: " ++ err)
  | Ok models =>
    if (length models =? 0)%nat then Err "no free models available"
    else
      let filtered := filterModels models in
      if (length filtered =? 0)%nat then Err "no models match the constraints"
      else
        let scored := sort_Slice byScoreDesc (scoreModels filtered) in
        Ok (map Score_Model (take (Z.to_nat n) scored))
  end.

(** The slice [scored] of [SelectBest] and [GetTopCandidates] once
    [sort.Slice] has run: the sorted scores of the models that pass the
    filter. *)
Definition ranked (models : list Model) : list ModelScore :=
  sort_Slice byScoreDesc (scoreModels (filterModels models)).

End Selector.
End model.

(** ** The model manager

    One [ModelManager] is allocated by [initializeModelManager] and shared
    by [main] and both handlers. [runHeadless] builds the handlers with
    [NewHandlerWithManager] on that manager, so the [nil] guard at the head
    of the handler methods does not fire; they are modelled past it. Every
    function takes the manager it works on and returns the manager it
    leaves behind, also when it panics: the writes made before a panic
    stay, since the maps and fields are updated in place. *)

Module manager.

Definition with_Failures (mm : ModelManager) (f : gmap string Z) : ModelManager :=
  {| Candidates := Candidates mm; Current := Current mm; CurrentIdx := CurrentIdx mm;
     Failures := f; LastFailure := LastFailure mm;
     Timeouts := Timeouts mm; Burned := Burned mm |}.

Definition with_LastFailure (mm : ModelManager) (l : gmap string Time) : ModelManager :=
  {| Candidates := Candidates mm; Current := Current mm; CurrentIdx := CurrentIdx mm;
     Failures := Failures mm; LastFailure := l;
     Timeouts := Timeouts mm; Burned := Burned mm |}.

Definition with_Timeouts (mm : ModelManager) (t : gmap string Z) : ModelManager :=
  {| Candidates := Candidates mm; Current := Current mm; CurrentIdx := CurrentIdx mm;
     Failures := Failures mm; LastFailure := LastFailure mm;
     Timeouts := t; Burned := Burned mm |}.

Definition with_Burned (mm : ModelManager) (b : gmap string bool) : ModelManager :=
  {| Candidates := Candidates mm; Current := Current mm; CurrentIdx := CurrentIdx mm;
     Failures := Failures mm; LastFailure := LastFailure mm;
     Timeouts := Timeouts mm; Burned := b |}.

Definition with_Current (mm : ModelManager) (c : option Model) (idx : Z) : ModelManager :=
  {| Candidates := Candidates mm; Current := c; CurrentIdx := idx;
     Failures := Failures mm; LastFailure := LastFailure mm;
     Timeouts := Timeouts mm; Burned := Burned mm |}.

Definition with_Candidates (mm : ModelManager) (cs : list Model) : ModelManager :=
  {| Candidates := cs; Current := Current mm; CurrentIdx := CurrentIdx mm;
     Failures := Failures mm; LastFailure := LastFailure mm;
     Timeouts := Timeouts mm; Burned := Burned mm |}.

(** [len(Candidates)] as an [int]. *)
Definition len (mm : ModelManager) : Z := Z.of_nat (length (Candidates mm)).

(** The zero [time.Time], read for a key that [LastFailure] lacks:
    1 January of year 1, in nanoseconds before the Unix epoch. *)
Definition zeroTime : Time := - 62135596800 * 1000000000.
Definition get_time (m : gmap string Time) (k : string) : Time :=
  default zeroTime (m !! k).

(** The failover loop. The program has it three times, with the same
    shape and a different [continue] test ([skip]):
<<
    for i := 1; i < len(Candidates); i++ {
        nextIdx := (CurrentIdx + i) % len(Candidates)
        nextModel := Candidates[nextIdx]
        if skip { continue }
        log.Printf("... from %s to %s", Current.ID, nextModel.ID)
        Current = &nextModel
        CurrentIdx = nextIdx
        return true
    }
    return false
>>
    [fuel] bounds the iterations left; [len(Candidates)] of it is enough
    for the loop to reach its exit test. [i++] cannot overflow, [i] being
    below the length of a slice. *)
Fixpoint scan (skip : ModelManager -> Model -> bool)
    (mm : ModelManager) (i : Z) (fuel : nat) : ModelManager * outcome bool :=
  match fuel with
  | O => (mm, Returned false)
  | S fuel' =>
      if i <? len mm then
        let nextIdx := rem (wrap_int (CurrentIdx mm + i)) (len mm) in
        match index (Candidates mm) nextIdx with
        | None => (mm, Panicked "index out of range")
        | Some nextModel =>
            if skip mm nextModel then scan skip mm (i + 1) fuel'
            else
              match Current mm with
              | None => (mm, Panicked "nil pointer dereference")
              | Some _ => (with_Current mm (Some nextModel) nextIdx, Returned true)
              end
        end
      else (mm, Returned false)
  end.

(** *** The handlers ([server/openai] and [server/anthropic], word for word
    the same three methods) *)

(** [switchToNextModel] skips burned models and models with three
    failures or more. *)
Definition skip_burned_or_failed (mm : ModelManager) (nextModel : Model) : bool :=
  get_bool (Burned mm) (ID nextModel) || (3 <=? get_int (Failures mm) (ID nextModel)).

Definition switchToNextModel (mm : ModelManager) : ModelManager * outcome bool :=
  scan skip_burned_or_failed mm 1 (length (Candidates mm)).

(** The two writes that open [recordFailure] and [RecordModelFailure]. *)
Definition count_failure (mm : ModelManager) (modelID : string) (now : Time) : ModelManager :=
  let mm := with_Failures mm
              (<[modelID := incr (get_int (Failures mm) modelID)]> (Failures mm)) in
  with_LastFailure mm (<[modelID := now]> (LastFailure mm)).

Definition recordFailure_shouldSwitch (mm : ModelManager) (modelID : string)
    (statusCode : Z) : bool :=
  (statusCode =? 429) || (500 <=? statusCode) || (3 <=? get_int (Failures mm) modelID).

(** [now] is the value of [time.Now()]. *)
Definition recordFailure (mm : ModelManager) (modelID : string) (statusCode : Z)
    (now : Time) : ModelManager * outcome bool :=
  let mm := count_failure mm modelID now in
  let shouldSwitch := recordFailure_shouldSwitch mm modelID statusCode in
  if shouldSwitch && (1 <? len mm) then switchToNextModel mm
  else (mm, Returned false).

(** The two writes that open [recordTimeout] and [RecordModelTimeout]. *)
Definition count_timeout (mm : ModelManager) (modelID : string) : ModelManager :=
  let mm := with_Timeouts mm
              (<[modelID := incr (get_int (Timeouts mm) modelID)]> (Timeouts mm)) in
  with_Burned mm (<[modelID := true]> (Burned mm)).

Definition recordTimeout (mm : ModelManager) (modelID : string)
    : ModelManager * outcome bool :=
  let mm := count_timeout mm modelID in
  if 1 <? len mm then switchToNextModel mm
  else (mm, Returned false).

(** *** [main.go] *)

(** The loop of [RecordModelFailure] skips models with three failures
    or more, the loop of [RecordModelTimeout] skips burned models. *)
Definition skip_failed (mm : ModelManager) (nextModel : Model) : bool :=
  3 <=? get_int (Failures mm) (ID nextModel).

Definition skip_burned (mm : ModelManager) (nextModel : Model) : bool :=
  get_bool (Burned mm) (ID nextModel).

(** [now] is the first [time.Now()], stored in [LastFailure]; [now'] is
    the second, from which [cutoff] is taken. *)
Definition RecordModelFailure_shouldSwitch (mm : ModelManager) (modelID : string)
    (statusCode : Z) (now' : Time) : bool :=
  if statusCode =? 429 then true
  else if 500 <=? statusCode then true
  else if 3 <=? get_int (Failures mm) modelID then
    let cutoff := now' + (- 2) * Minute in
    let recentFailures :=
      if After (get_time (LastFailure mm) modelID) cutoff
      then get_int (Failures mm) modelID else 0 in
    3 <=? recentFailures
  else false.

Definition RecordModelFailure (mm : ModelManager) (modelID : string) (statusCode : Z)
    (now now' : Time) : ModelManager * outcome bool :=
  let mm := count_failure mm modelID now in
  let shouldSwitch := RecordModelFailure_shouldSwitch mm modelID statusCode now' in
  if shouldSwitch && (1 <? len mm) then scan skip_failed mm 1 (length (Candidates mm))
  else (mm, Returned false).

Definition RecordModelTimeout (mm : ModelManager) (modelID : string)
    : ModelManager * outcome bool :=
  let mm := count_timeout mm modelID in
  if 1 <? len mm then scan skip_burned mm 1 (length (Candidates mm))
  else (mm, Returned false).

(** The manager [initializeModelManager] leaves when the first ranking
    pass fails. *)
Definition emptyManager : ModelManager :=
  {| Candidates := []; Current := None; CurrentIdx := 0;
     Failures := ∅; LastFailure := ∅; Timeouts := ∅; Burned := ∅ |}.

(** HTTP status codes of the introspection endpoints. *)
Definition StatusOK : Z := 200.
Definition StatusInternalServerError : Z := 500.
Definition StatusServiceUnavailable : Z := 503.

(** [POST /model/switch]: the manual switch, to the next index. *)
Definition modelSwitchHandler (mm : ModelManager) : ModelManager * outcome Z :=
  if (length (Candidates mm) =? 0)%nat then (mm, Returned StatusServiceUnavailable)
  else
    let nextIdx := rem (wrap_int (CurrentIdx mm + 1)) (len mm) in
    match index (Candidates mm) nextIdx with
    | None => (mm, Panicked "index out of range")
    | Some m => (with_Current mm (Some m) nextIdx, Returned StatusOK)
    end.

Section WithSelector.

Context `{Library}.
Variable cfg : Config.

(** [free] is what [GetFreeModels] answers to the ranking pass. *)
Definition initializeModelManager (free : result (list Model)) : outcome ModelManager :=
  match model.GetTopCandidates cfg free (NumCandidates cfg) with
  | Err _ => Returned emptyManager
  | Ok candidates =>
      let selectedIdx :=
        if (0 <=? ModelIndex cfg) && (ModelIndex cfg <? Z.of_nat (length candidates))
        then ModelIndex cfg else 0 in
      match index candidates selectedIdx with
      | None => Panicked "index out of range"
      | Some selectedModel =>
          Returned {| Candidates := candidates; Current := Some selectedModel;
                      CurrentIdx := selectedIdx;
                      Failures := ∅; LastFailure := ∅; Timeouts := ∅; Burned := ∅ |}
      end
  end.

(** [GET /candidates]: when the pool is empty it is fetched again and
    stored; the listing that follows reads the manager and is left
    out. *)
Definition candidatesHandler (mm : ModelManager) (free : result (list Model))
    : ModelManager * outcome Z :=
  if (length (Candidates mm) =? 0)%nat then
    match model.GetTopCandidates cfg free 10 with
    | Err _ => (mm, Returned StatusInternalServerError)
    | Ok candidates => (with_Candidates mm candidates, Returned StatusOK)
    end
  else (mm, Returned StatusOK).

(** The operations on the manager, as calls that arrive in some order. *)
Inductive Call : Type :=
| CallRecordFailure (modelID : string) (statusCode : Z) (now : Time)
| CallRecordTimeout (modelID : string)
| CallRecordModelFailure (modelID : string) (statusCode : Z) (now now' : Time)
| CallRecordModelTimeout (modelID : string)
| CallCandidates (free : result (list Model))
| CallModelSwitch.

Definition step (mm : ModelManager) (c : Call) : ModelManager :=
  match c with
  | CallRecordFailure modelID statusCode now => fst (recordFailure mm modelID statusCode now)
  | CallRecordTimeout modelID => fst (recordTimeout mm modelID)
  | CallRecordModelFailure modelID statusCode now now' =>
      fst (RecordModelFailure mm modelID statusCode now now')
  | CallRecordModelTimeout modelID => fst (RecordModelTimeout mm modelID)
  | CallCandidates free => fst (candidatesHandler mm free)
  | CallModelSwitch => fst (modelSwitchHandler mm)
  end.

Definition run (mm : ModelManager) (calls : list Call) : ModelManager :=
  fold_left step calls mm.

End WithSelector.

End manager.


(** ** The Anthropic adapter

    [handleMessages] decodes the body with [json.Unmarshal] into a
    [map[string]interface{}]: an object becomes a map, an array a slice,
    a number a [float64]. [ConvertAnthropicToOpenAI] works on that value. *)

Module adapter.

Inductive json : Type :=
| JNull
| JBool (b : bool)
| JNumber (f : float)
| JString (s : string)
| JArray (elems : list json)
| JObject (fields : gmap string json).

(** The type assertions [v.(string)], [v.(float64)], [v.([]interface{})]
    and [v.(map[string]interface{})] on the value stored under a key; a
    key that is absent holds [nil], on which every assertion fails. *)
Definition as_string (v : option json) : option string :=
  match v with Some (JString s) => Some s | _ => None end.

Definition as_float64 (v : option json) : option float :=
  match v with Some (JNumber f) => Some f | _ => None end.

Definition as_slice (v : option json) : option (list json) :=
  match v with Some (JArray l) => Some l | _ => None end.

Definition as_map (v : option json) : option (gmap string json) :=
  match v with Some (JObject m) => Some m | _ => None end.

Definition newline : string := String (Ascii.ascii_of_nat 10) EmptyString.

(** The inner loop over the blocks of a content array: the [text] of the
    blocks whose [type] is the string [text], in order. *)
Fixpoint textParts (blocks : list json) : list string :=
  match blocks with
  | [] => []
  | block :: rest =>
      match as_map (Some block) with
      | None => textParts rest
      | Some blockMap =>
          match as_string (blockMap !! "type") with
          | Some blockType =>
              if String.eqb blockType "text" then
                match as_string (blockMap !! "text") with
                | Some text => text :: textParts rest
                | None => textParts rest
                end
              else textParts rest
          | None => textParts rest
          end
      end
  end.

(** The type switch on [msgMap["content"]]. *)
Definition contentOf (c : option json) : string :=
  match c with
  | Some (JString s) => s
  | Some (JArray blocks) => Join (textParts blocks) newline
  | _ => EmptyString
  end.

(** The body of the loop over [messages]: what one entry appends. *)
Definition convertMessage (msg : json) : list ChatMessage :=
  match as_map (Some msg) with
  | None => []
  | Some msgMap =>
      let role := default EmptyString (as_string (msgMap !! "role")) in
      let content := contentOf (msgMap !! "content") in
      if String.eqb role "system"
      then [ {| Role := "user"; Content := content |} ]
      else [ {| Role := role; Content := content |} ]
  end.

Definition ConvertAnthropicToOpenAI (anthropicReq : gmap string json)
    : result ChatRequest :=
  let req_Model := default EmptyString (as_string (anthropicReq !! "model")) in
  let req_MaxTokens :=
    match as_float64 (anthropicReq !! "max_tokens") with
    | Some maxTokens => int_of_float64 maxTokens
    | None => 4096
    end in
  let req_Temperature :=
    match as_float64 (anthropicReq !! "temperature") with
    | Some temp => temp
    | None => 0.7%float
    end in
  match as_slice (anthropicReq !! "messages") with
  | None => Err "invalid messages format"
  | Some messages =>
      Ok {| Req_Model := req_Model;
            Messages := concat (map convertMessage messages);
            Temperature := req_Temperature;
            MaxTokens := req_MaxTokens;
            TopP := 0%float;
            Stream := false;
            FrequencyPenalty := 0%float;
            PresencePenalty := 0%float;
            Seed := None;
            Req_ResponseFormat := None |}
  end.

Definition with_Model (req : ChatRequest) (modelID : string) : ChatRequest :=
  {| Req_Model := modelID; Messages := Messages req; Temperature := Temperature req;
     MaxTokens := MaxTokens req; TopP := TopP req; Stream := Stream req;
     FrequencyPenalty := FrequencyPenalty req; PresencePenalty := PresencePenalty req;
     Seed := Seed req; Req_ResponseFormat := Req_ResponseFormat req |}.

Section WithSelector.

Context `{Library}.
Variable cfg : Config.

(** [getCurrentModelID]: the id of the current model, and when there is
    none the id the selector ranks first, or the empty string. *)
Definition getCurrentModelID (mm : ModelManager) (free : result (list Model))
    : outcome string :=
  match Current mm with
  | Some current => Returned (ID current)
  | None =>
      match model.GetBestModelID cfg free with
      | Returned (Ok id) => Returned id
      | Returned (Err _) => Returned EmptyString
      | Panicked msg => Panicked msg
      end
  end.

(** What an attempt of [handleMessages] passes to [ChatCompletion]: the
    converted request with [Model] replaced. A conversion error ends the
    request with status 400. *)
Definition attemptRequest (mm : ModelManager) (free : result (list Model))
    (anthropicReq : gmap string json) : outcome (result ChatRequest) :=
  match ConvertAnthropicToOpenAI anthropicReq with
  | Err err => Returned (Err ("failed to convert request: " ++ err))
  | Ok openaiReq =>
      match getCurrentModelID mm free with
      | Returned modelID => Returned (Ok (with_Model openaiReq modelID))
      | Panicked msg => Panicked msg
      end
  end.

End WithSelector.

End adapter.

(** ** An instance of the library, and sample values, for running the functions

    Lower-casing is the ASCII one and the Unicode branch is the identity;
    sorting is the insertion sort that [sort.Slice] runs on a slice of at
    most twelve elements; [math_Log] is a stand-in that the examples
    below never reach, their models having popularity zero. *)

Module sample.

(** [for j := i; j > a && less(j, j-1); j-- { swap(j, j-1) }] on the sorted
    prefix held in reverse: [x] sinks below the elements it is less than. *)
Fixpoint insert_back {A : Type} (less : A -> A -> bool) (x : A) (rev_prefix : list A)
    : list A :=
  match rev_prefix with
  | [] => [x]
  | y :: rest => if less x y then y :: insert_back less x rest else x :: y :: rest
  end.

Definition insertionSort {A : Type} (less : A -> A -> bool) (l : list A) : list A :=
  rev (fold_left (fun acc x => insert_back less x acc) l []).

Lemma insert_back_Permutation {A : Type} (less : A -> A -> bool) (x : A) (l : list A) :
  Permutation (insert_back less x l) (x :: l).
Proof.
  induction l as [|y l IH]; simpl; [done|].
  destruct (less x y); [|done].
  rewrite IH. apply perm_swap.
Qed.

Lemma insertionSort_Permutation (A : Type) (less : A -> A -> bool) (l : list A) :
  Permutation (insertionSort less l) l.
Proof.
  unfold insertionSort. rewrite <- Permutation_rev.
  assert (G : forall acc, Permutation
            (fold_left (fun acc x => insert_back less x acc) l acc) (l ++ acc)).
  { induction l as [|x l IH]; intros acc; simpl; [done|].
    rewrite IH, insert_back_Permutation. symmetry. apply Permutation_middle. }
  rewrite G. by rewrite app_nil_r.
Qed.

Definition smallLibrary : Library :=
  {| math_Log := fun x => x;
     unicode_ToLower := fun s => s;
     sort_Slice := @insertionSort;
     sort_Slice_Permutation := insertionSort_Permutation |}.

(** A configuration without constraints, and two models for the examples. *)
Definition cfg0 : Config :=
  {| APIKey := "key"; Port := 8080; MinParams := 0; MinPopularity := 0;
     EnableOpenAI := true; EnableAnthropic := true;
     OpenAIPath := "/v1"; AnthropicPath := "/v1"; LogLevel := "info";
     CacheTTL := 300; PreferredArchitectures := []; ModelIndex := 0;
     NumCandidates := 10 |}.

Definition mkModel (id : string) (params popularity context : Z) : Model :=
  {| ID := id; Name := id; Description := "";
     Model_Pricing := {| Prompt := "0"; Completion := "0" |};
     Model_Architecture :=
       {| Modality := "text"; InputModalities := ["text"]; OutputModalities := ["text"];
          Tokenizer := "Other"; InstructType := None |};
     ContextLength := context; Popularity := popularity; Params := params |}.

Definition modelA : Model := mkModel "a/alpha" 0 0 0.
Definition modelB : Model := mkModel "b/beta" 7000000000 0 8192.
Definition modelC : Model := mkModel "c/gamma" 0 0 0.

(** Three candidates with [modelA] current, the next of which,
    [modelB], is burned in the first manager and has three failures in
    the second. *)
Definition mmBurnedNext : ModelManager :=
  {| Candidates := [modelA; modelB; modelC]; Current := Some modelA; CurrentIdx := 0;
     Failures := ∅; LastFailure := ∅; Timeouts := {[ "b/beta" := 1 ]};
     Burned := {[ "b/beta" := true ]} |}.

Definition mmFailedNext : ModelManager :=
  {| Candidates := [modelA; modelB; modelC]; Current := Some modelA; CurrentIdx := 0;
     Failures := {[ "b/beta" := 3 ]}; LastFailure := {[ "b/beta" := 1 ]};
     Timeouts := ∅; Burned := ∅ |}.

(** The body [{"model":"x","max_tokens":10,"messages":[{"role":"user",
    "content":"hi"}]}] as [json.Unmarshal] decodes it, and a body that
    has a system message, a content array with an image block between
    two text blocks, a [max_tokens] that is a string and no
    [temperature]. *)
Definition scenarioBody : gmap string adapter.json :=
  {[ "model" := adapter.JString "x";
     "max_tokens" := adapter.JNumber 10;
     "messages" := adapter.JArray
       [ adapter.JObject {[ "role" := adapter.JString "user";
                            "content" := adapter.JString "hi" ]} ] ]}.

Definition blocksBody : gmap string adapter.json :=
  {[ "model" := adapter.JString "claude-3";
     "max_tokens" := adapter.JString "many";
     "messages" := adapter.JArray
       [ adapter.JObject {[ "role" := adapter.JString "system";
                            "content" := adapter.JString "be brief" ]};
         adapter.JObject
           {[ "role" := adapter.JString "user";
              "content" := adapter.JArray
                [ adapter.JObject {[ "type" := adapter.JString "text";
                                     "text" := adapter.JString "one" ]};
                  adapter.JObject {[ "type" := adapter.JString "image";
                                     "source" := adapter.JString "..." ]};
                  adapter.JObject {[ "type" := adapter.JString "text";
                                     "text" := adapter.JString "two" ]} ] ]} ] ]}.

(** The binary64 number the three weighted floors add up to. The
    binary64 number nearest to 0.09 is its neighbour below, one unit in
    the last place away. *)
Definition floorsScore : float := 0x1.70a3d70a3d70bp-4%float.

End sample.

(** ** The words of the specification

    Definitions that follow the specification, to be compared with the
    ones taken from the code. *)

Module spec.

(** A failure at [last_failure_at] is recent at [clock] when it falls
    within the two minutes before [clock]. *)
Definition within_last_2_minutes (last_failure_at clock : Time) : bool :=
  clock - 2 * Minute <? last_failure_at.

(** [should_switch := (status_code == 429) OR (status_code >= 500) OR
    (failures[model_id] >= 3 AND last_failure_at[model_id] is within the
    last 2 minutes)]. *)
Definition should_switch (failures : Z) (last_failure_at : Time)
    (status_code : Z) (clock : Time) : bool :=
  (status_code =? 429) || (500 <=? status_code) ||
  ((3 <=? failures) && within_last_2_minutes last_failure_at clock).

(** A candidate can be switched to when its id is neither in [burned]
    nor has [failures[id] >= 3]. *)
Definition healthy (mm : ModelManager) (m : Model) : bool :=
  negb (get_bool (Burned mm) (ID m)) && negb (3 <=? get_int (Failures mm) (ID m)).

(** The positions the switch procedure visits: from
    [(current_index + 1) mod len(candidates)], walking forward and
    wrapping, through all other candidates. *)
Definition scan_positions (mm : ModelManager) : list Z :=
  map (fun i => (CurrentIdx mm + i) `mod` manager.len mm)
      (seqZ 1 (manager.len mm - 1)).

(** The first position of [positions] whose candidate passes [ok]. *)
Fixpoint first_at (ok : Model -> bool) (cands : list Model) (positions : list Z)
    : option (Z * Model) :=
  match positions with
  | [] => None
  | p :: rest =>
      match index cands p with
      | Some m => if ok m then Some (p, m) else first_at ok cands rest
      | None => first_at ok cands rest
      end
  end.

(** The switch procedure: the first healthy candidate in scan order
    becomes [current] and success is reported; without one, [current]
    stays and failure is reported. *)
Definition switch (mm : ModelManager) : ModelManager * outcome bool :=
  match first_at (healthy mm) (Candidates mm) (scan_positions mm) with
  | Some (p, m) => (manager.with_Current mm (Some m) p, Returned true)
  | None => (mm, Returned false)
  end.

(** [current_index] is a valid index into [candidates] whenever
    [candidates] is non-empty. *)
Definition index_valid (mm : ModelManager) : Prop :=
  Candidates mm <> [] -> 0 <= CurrentIdx mm < manager.len mm.

(** The pointer agrees with the index: the current model is
    [candidates[current_index]] whenever [candidates] is non-empty. *)
Definition pointer_agrees (mm : ModelManager) : Prop :=
  Candidates mm <> [] -> Current mm = index (Candidates mm) (CurrentIdx mm).

(** What the code does keep between the two: a manager without
    candidates has no current model and index 0, and a manager with
    candidates has a valid index and a current model that, when there is
    one, is the candidate at that index. *)
Definition manager_inv (mm : ModelManager) : Prop :=
  (Candidates mm = [] /\ CurrentIdx mm = 0 /\ Current mm = None) \/
  (0 <= CurrentIdx mm < manager.len mm /\
   (Current mm = None \/ Current mm = index (Candidates mm) (CurrentIdx mm))).

(** Only blocks of type "text" contribute, each its text. *)
Definition text_of_block (block : adapter.json) : option string :=
  match block with
  | adapter.JObject fields =>
      match fields !! "type" with
      | Some (adapter.JString type) =>
          if decide (type = "text") then adapter.as_string (fields !! "text") else None
      | _ => None
      end
  | _ => None
  end.

(** The internal plain-text content of a sequence of typed blocks: the
    text blocks, in order, joined by newlines. *)
Definition plain_text (blocks : list adapter.json) : string :=
  Join (omap text_of_block blocks) adapter.newline.

(** A system message is folded into the sequence as a user message. *)
Definition folded_role (role : string) : string :=
  if decide (role = "system") then "user" else role.

(** A field that is present and a number. *)
Definition is_number (v : option adapter.json) : bool :=
  match v with
  | Some (adapter.JNumber _) => true
  | _ => false
  end.

End spec.

(** ** Calls on the manager, with their outcome *)

Module calls.

Definition is_panic {A : Type} (o : outcome A) : bool :=
  match o with
  | Panicked _ => true
  | Returned _ => false
  end.

(** A manager as startup leaves it when the first ranking pass
    succeeds: the index is in range, the current model is the candidate
    at the index, and the pool is of a size a slice can have. *)
Definition well_formed (mm : ModelManager) : Prop :=
  0 <= CurrentIdx mm < manager.len mm /\
  manager.len mm <= 2 ^ 62 /\
  exists m, Current mm = Some m /\ index (Candidates mm) (CurrentIdx mm) = Some m.

Section WithSelector.

Context `{Library}.
Variable cfg : Config.

(** Whether a call ends in a panic. *)
Definition panics (mm : ModelManager) (c : manager.Call) : bool :=
  match c with
  | manager.CallRecordFailure modelID statusCode now =>
      is_panic (snd (manager.recordFailure mm modelID statusCode now))
  | manager.CallRecordTimeout modelID =>
      is_panic (snd (manager.recordTimeout mm modelID))
  | manager.CallRecordModelFailure modelID statusCode now now' =>
      is_panic (snd (manager.RecordModelFailure mm modelID statusCode now now'))
  | manager.CallRecordModelTimeout modelID =>
      is_panic (snd (manager.RecordModelTimeout mm modelID))
  | manager.CallCandidates free =>
      is_panic (snd (manager.candidatesHandler cfg mm free))
  | manager.CallModelSwitch =>
      is_panic (snd (manager.modelSwitchHandler mm))
  end.

(** Whether some call of a sequence ends in a panic. *)
Fixpoint run_panics (mm : ModelManager) (calls : list manager.Call) : bool :=
  match calls with
  | [] => false
  | c :: rest => panics mm c || run_panics (manager.step cfg mm c) rest
  end.

End WithSelector.

(** [POST /model/switch], [k] times in a row. *)
Fixpoint switch_times (k : nat) (mm : ModelManager) : ModelManager :=
  match k with
  | O => mm
  | S k' => switch_times k' (fst (manager.modelSwitchHandler mm))
  end.

End calls.

(** ** [internal/openrouter/client.go]

    The client talks to the network through [httpClient.Do] and decodes
    bodies with [encoding/json]; what those answer is an argument of the
    functions below. The client itself is the API key, the cache and
    its time to live. *)

Module client.

(** The errors the client returns: [*HTTPError], [*TimeoutError], and
    the errors [fmt.Errorf] builds around a transport or codec error,
    which are known by their message only. *)
Inductive error : Type :=
| HTTPError (Code : Z) (Message : string)
| TimeoutError (Duration : Z)
| errorString (msg : string).

Inductive res (A : Type) : Type :=
| ok (a : A)
| fail (e : error).
Global Arguments ok {A} a.
Global Arguments fail {A} e.

(** What the program takes from [fmt] and [time] without their sources:
    the text of a [time.Duration] under [%v], and the integer that
    [fmt.Sscanf(s, "%d", &code)] leaves in [code], zero when the scan
    fails. *)
Class Fmt := {
  Duration_String : Z -> string;
  Sscanf_d : string -> Z;
}.

(** [%d] of an [int]. *)
Definition Sprint_d (n : Z) : string := DecimalString.NilZero.string_of_int (Z.to_int n).

(** [(e *HTTPError) StatusCode()]; the other errors have no such method. *)
Definition StatusCode (e : error) : option Z :=
  match e with
  | HTTPError code _ => Some code
  | _ => None
  end.

(** [errors.As(err, &timeoutErr)] for a [*TimeoutError] target. *)
Definition isTimeout (e : error) : bool :=
  match e with
  | TimeoutError _ => true
  | _ => false
  end.

(** The [Error()] methods. *)
Definition Error `{Fmt} (e : error) : string :=
  match e with
  | HTTPError code message =>
      ("API returned status " ++ Sprint_d code ++ ": " ++ message)%string
  | TimeoutError duration =>
      ("request timed out after " ++ Duration_String duration)%string
  | errorString msg => msg
  end.

Record CachedModels := {
  Models : list Model;
  Timestamp : Time;
}.

Record Client := {
  apiKey : string;
  cache : option CachedModels;
  cacheTTL : Z;
}.

Definition Second : Z := 1000000000.

(** [time.Duration(cacheTTL) * time.Second] is a product of 64-bit
    integers. *)
Definition NewClient (apiKey : string) (cacheTTL : Z) : Client :=
  {| apiKey := apiKey; cache := None; cacheTTL := wrap_int (cacheTTL * Second) |}.

Definition with_cache (c : Client) (cm : option CachedModels) : Client :=
  {| apiKey := apiKey c; cache := cm; cacheTTL := cacheTTL c |}.

(** [time.Since(t)] at the time [now]: the difference, which [Sub]
    saturates at the ends of [int64]. *)
Definition Since (now t : Time) : Z := Z.max int_min (Z.min int_max (now - t)).

(** What one round trip to the upstream gives: [Do] fails (and then
    whether the context deadline was exceeded and whether the error is a
    [*url.Error] that reports a timeout), or a response arrives, with its
    status, its body as text, and what decoding the body as JSON gives. *)
Inductive reply (A : Type) : Type :=
| DoFailed (deadlineExceeded urlTimeout : bool) (err : string)
| Replied (status : Z) (body : string) (decoded : result A).
Global Arguments DoFailed {A} deadlineExceeded urlTimeout err.
Global Arguments Replied {A} status body decoded.

Definition StatusOK : Z := 200.

(** The snapshot the cache serves at [now], if any. *)
Definition fresh (c : Client) (now : Time) : option (list Model) :=
  match cache c with
  | Some cm => if Since now (Timestamp cm) <? cacheTTL c then Some (Models cm) else None
  | None => None
  end.

(** [now] is the clock when the cache is looked at, [now'] the clock
    when a fetched catalog is stored. The request is built from
    constants, so [http.NewRequest] does not fail. *)
Definition GetModels (c : Client) (now : Time) (net : reply (list Model)) (now' : Time)
    : Client * res (list Model) :=
  match fresh c now with
  | Some models => (c, ok models)
  | None =>
      match net with
      | DoFailed _ _ err => (c, fail (errorString ("failed to fetch models: " ++ err)))
      | Replied status body decoded =>
          if negb (status =? StatusOK) then (c, fail (HTTPError status body))
          else
            match decoded with
            | Err err => (c, fail (errorString ("failed to decode response: " ++ err)))
            | Ok data =>
                (with_cache c (Some {| Models := data; Timestamp := now' |}), ok data)
            end
      end
  end.

Definition isFreeModel (m : Model) : bool :=
  String.eqb (Prompt (Model_Pricing m)) "0" &&
  String.eqb (Completion (Model_Pricing m)) "0".

Definition GetFreeModels (c : Client) (now : Time) (net : reply (list Model)) (now' : Time)
    : Client * res (list Model) :=
  match GetModels c now net now' with
  | (c', fail err) => (c', fail err)
  | (c', ok models) => (c', ok (List.filter isFreeModel models))
  end.

Definition InvalidateCache (c : Client) : Client := with_cache c None.

(** [marshal] is the error of [json.Marshal(req)], if it has one. The
    request is sent as marshalled, so the reply depends on it only
    through [net]. *)
Definition ChatCompletionWithTimeout {A : Type} (marshal : option string) (timeout : Z)
    (net : reply A) : res A :=
  match marshal with
  | Some err => fail (errorString ("failed to marshal request: " ++ err))
  | None =>
      match net with
      | DoFailed deadlineExceeded urlTimeout err =>
          if deadlineExceeded then fail (TimeoutError timeout)
          else if urlTimeout then fail (TimeoutError timeout)
          else fail (errorString ("failed to send request: " ++ err))
      | Replied status body decoded =>
          if negb (status =? StatusOK) then fail (HTTPError status body)
          else
            match decoded with
            | Err err => fail (errorString ("failed to decode response: " ++ err))
            | Ok chatResp => ok chatResp
            end
      end
  end.

Definition ChatCompletion {A : Type} (marshal : option string) (net : reply A) : res A :=
  ChatCompletionWithTimeout marshal (10 * Second) net.

(** The answer of [GetFreeModels] as the selector sees it: the list, or
    the message of the error. *)
Definition to_result `{Fmt} {A : Type} (r : res A) : result A :=
  match r with
  | ok a => Ok a
  | fail e => Err (Error e)
  end.

End client.

(** ** The response types of [internal/openrouter/types.go] *)

Module wire.

Record ChatChoice := {
  Index : Z;
  Message : ChatMessage;
  FinishReason : string;
}.

Record Usage := {
  PromptTokens : Z;
  CompletionTokens : Z;
  TotalTokens : Z;
}.

Record ChatResponse := {
  Resp_ID : string;
  Object : string;
  Created : Z;
  Resp_Model : string;
  Choices : list ChatChoice;
  Resp_Usage : Usage;
}.

Record ContentBlock := {
  Block_Type : string;
  Text : string;
}.

Record AnthropicUsage := {
  InputTokens : Z;
  OutputTokens : Z;
}.

Record AnthropicResponse := {
  AR_ID : string;
  AR_Type : string;
  AR_Role : string;
  AR_Content : list ContentBlock;
  StopReason : string;
  AR_Model : string;
  AR_Usage : AnthropicUsage;
}.

Record APIError := {
  Err_Code : Z;
  Err_Message : string;
  Err_Type : string;
}.

End wire.

(** ** The request loop of the two handlers *)

Module handlers.

(** [strings.Split(s, sep)] for a separator that is not empty: the
    pieces between the occurrences of [sep], found from the left and not
    overlapping. [skip] counts the bytes of an occurrence still to pass,
    [piece] holds the current piece in reverse. *)
Fixpoint Split_from (s sep : string) (skip : nat) (piece : list Ascii.ascii)
    : list string :=
  match s with
  | EmptyString => [String.string_of_list_ascii (rev piece)]
  | String c s' =>
      match skip with
      | S skip' => Split_from s' sep skip' piece
      | O =>
          if HasPrefix s sep
          then String.string_of_list_ascii (rev piece)
               :: Split_from s' sep (String.length sep - 1) []
          else Split_from s' sep 0 (c :: piece)
      end
  end.

Definition Split (s sep : string) : list string := Split_from s sep 0 [].

Definition StatusBadRequest : Z := 400.
Definition StatusInternalServerError : Z := 500.

(** What a handler writes: the status, the [X-Model-Used] header when it
    is set, and the JSON body by its shape: a message in the Anthropic
    format, a chat response passed through as it came, or the error
    envelope of either protocol with the message in it (the OpenAI one
    also carries the status as text). *)
Inductive body : Type :=
| AnthropicBody (r : wire.AnthropicResponse)
| ChatBody (r : wire.ChatResponse)
| AnthropicError (message : string)
| OpenAIError (message : string) (code : string).

Record Response := {
  Status : Z;
  ModelUsed : option string;
  Body : body;
}.

(** What the world answers during one attempt: the free models, should
    [getCurrentModelID] have to ask the selector; the error of
    [json.Marshal], if any; the reply of the upstream; the clock, should
    a failure be recorded. *)
Record Attempt := {
  free : result (list Model);
  marshal : option string;
  net : client.reply wire.ChatResponse;
  now : Time;
}.

Section WithLibraries.

Context `{Library} `{client.Fmt}.
Variable cfg : Config.

Definition tryParseAPIError (err : client.error) : option wire.APIError :=
  match client.StatusCode err with
  | Some code =>
      Some {| wire.Err_Code := code; wire.Err_Message := client.Error err;
              wire.Err_Type := EmptyString |}
  | None =>
      let errStr := client.Error err in
      if Contains errStr "status " then
        let parts := Split errStr "status " in
        if (1 <? length parts)%nat then
          let code := client.Sscanf_d (default EmptyString (parts !! 1%nat)) in
          if 0 <? code
          then Some {| wire.Err_Code := code; wire.Err_Message := errStr;
                       wire.Err_Type := EmptyString |}
          else None
        else None
      else None
  end.

Definition convertToAnthropic (resp : wire.ChatResponse) : wire.AnthropicResponse :=
  let content :=
    match wire.Choices resp with
    | choice :: _ => Content (wire.Message choice)
    | [] => EmptyString
    end in
  {| wire.AR_ID := wire.Resp_ID resp;
     wire.AR_Type := "message";
     wire.AR_Role := "assistant";
     wire.AR_Content := [ {| wire.Block_Type := "text"; wire.Text := content |} ];
     wire.StopReason := "end_turn";
     wire.AR_Model := wire.Resp_Model resp;
     wire.AR_Usage :=
       {| wire.InputTokens := wire.PromptTokens (wire.Resp_Usage resp);
          wire.OutputTokens := wire.CompletionTokens (wire.Resp_Usage resp) |} |}.

(** [writeError] of the Anthropic handler and of the OpenAI handler. *)
Definition writeError_anthropic (status : Z) (message : string) : Response :=
  {| Status := status; ModelUsed := None; Body := AnthropicError message |}.

Definition writeError_openai (status : Z) (message : string) : Response :=
  {| Status := status; ModelUsed := None;
     Body := OpenAIError message (client.Sprint_d status) |}.

Definition maxRetries : Z := 3.

(** The loop that [handleMessages] and [handleChatCompletions] share,
    word for word but for how the request of an attempt is made
    ([prepare]) and how a response is written ([succeed], [writeError]):
<<
    for attempt := 0; attempt < maxRetries; attempt++ {
        req := prepare()
        resp, lastErr = h.client.ChatCompletion(req)
        if lastErr == nil { succeed(req, resp); return }
        if errors.As(lastErr, &timeoutErr) {
            if h.recordTimeout(req.Model) { continue }
        }
        if apiErr := h.tryParseAPIError(lastErr); apiErr != nil {
            if h.recordFailure(req.Model, apiErr.Code) { continue }
        }
        break
    }
    writeError(500, "chat completion failed after 3 attempts: " + lastErr)
>>
    [left] is the number of attempts after this one, [upstream] what the
    world answers during each attempt. The result is the manager that is
    left, the requests passed to [ChatCompletion] in order, and the
    response, or the panic that [net/http] recovers from. *)
Fixpoint retry
    (prepare : ModelManager -> result (list Model) -> outcome (result ChatRequest))
    (succeed : ChatRequest -> wire.ChatResponse -> Response)
    (writeError : Z -> string -> Response)
    (upstream : nat -> Attempt)
    (left attempt : nat) (mm : ModelManager) (sent : list ChatRequest)
    : ModelManager * list ChatRequest * outcome Response :=
  let world := upstream attempt in
  match prepare mm (free world) with
  | Panicked msg => (mm, sent, Panicked msg)
  | Returned (Err err) => (mm, sent, Returned (writeError StatusBadRequest err))
  | Returned (Ok req) =>
      let sent := sent ++ [req] in
      match client.ChatCompletion (marshal world) (net world) with
      | client.ok resp => (mm, sent, Returned (succeed req resp))
      | client.fail lastErr =>
          let giveUp (mm : ModelManager) :=
            (mm, sent,
             Returned (writeError StatusInternalServerError
                         ("chat completion failed after " ++ client.Sprint_d maxRetries
                          ++ " attempts: " ++ client.Error lastErr)%string)) in
          let continue (mm : ModelManager) :=
            match left with
            | O => giveUp mm
            | S left' =>
                retry prepare succeed writeError upstream left' (S attempt) mm sent
            end in
          let afterTimeout (mm : ModelManager) :=
            match tryParseAPIError lastErr with
            | Some apiErr =>
                match manager.recordFailure mm (Req_Model req) (wire.Err_Code apiErr)
                        (now world) with
                | (mm, Returned true) => continue mm
                | (mm, Returned false) => giveUp mm
                | (mm, Panicked msg) => (mm, sent, Panicked msg)
                end
            | None => giveUp mm
            end in
          if client.isTimeout lastErr then
            match manager.recordTimeout mm (Req_Model req) with
            | (mm, Returned true) => continue mm
            | (mm, Returned false) => afterTimeout mm
            | (mm, Panicked msg) => (mm, sent, Panicked msg)
            end
          else afterTimeout mm
      end
  end.

(** [handleMessages] past the method test and the parse of the body, for
    a body whose [stream] is not [true]: each attempt converts the body
    anew and puts the current model id in place of the model it names. *)
Definition handleMessages (mm : ModelManager) (anthropicReq : gmap string adapter.json)
    (upstream : nat -> Attempt) : ModelManager * list ChatRequest * outcome Response :=
  retry
    (fun mm free => adapter.attemptRequest cfg mm free anthropicReq)
    (fun req resp =>
       {| Status := client.StatusOK; ModelUsed := Some (Req_Model req);
          Body := AnthropicBody (convertToAnthropic resp) |})
    writeError_anthropic
    upstream 2 0 mm [].

(** [handleChatCompletions] past the method test and the parse of the
    body, for a request whose [Stream] is false. The model id is read
    once before the loop ([free0] is what the selector would be
    answered then) and again in each attempt. *)
Definition handleChatCompletions (mm : ModelManager) (req : ChatRequest)
    (free0 : result (list Model)) (upstream : nat -> Attempt)
    : ModelManager * list ChatRequest * outcome Response :=
  match adapter.getCurrentModelID cfg mm free0 with
  | Panicked msg => (mm, [], Panicked msg)
  | Returned _ =>
      retry
        (fun mm free =>
           match adapter.getCurrentModelID cfg mm free with
           | Returned modelID => Returned (Ok (adapter.with_Model req modelID))
           | Panicked msg => Panicked msg
           end)
        (fun req resp =>
           {| Status := client.StatusOK; ModelUsed := Some (Req_Model req);
              Body := ChatBody resp |})
        writeError_openai
        upstream 2 0 mm []
  end.

End WithLibraries.

(** What [ChatCompletion] returns in attempt [k]. *)
Definition answer (upstream : nat -> Attempt) (k : nat) : client.res wire.ChatResponse :=
  client.ChatCompletion (marshal (upstream k)) (net (upstream k)).

End handlers.

(** ** The listing of [GET /candidates] *)

Module listing.

(** The [Candidate] of [candidatesHandler]. *)
Record Candidate := {
  Index : Z;
  Cand_ID : string;
  Cand_Name : string;
  Cand_Modality : string;
  Cand_Tokenizer : string;
  ContextLen : Z;
  Cand_Params : Z;
  Cand_Popularity : Z;
  IsCurrent : bool;
  Cand_Failures : Z;
}.

(** [for i, m := range modelManager.Candidates { result = append(result,
    Candidate{...}) }], from index [i] on. *)
Fixpoint entries_from (mm : ModelManager) (i : Z) (cands : list Model) : list Candidate :=
  match cands with
  | [] => []
  | m :: rest =>
      {| Index := i;
         Cand_ID := ID m;
         Cand_Name := Name m;
         Cand_Modality := Modality (Model_Architecture m);
         Cand_Tokenizer := Tokenizer (Model_Architecture m);
         ContextLen := ContextLength m;
         Cand_Params := Params m;
         Cand_Popularity := Popularity m;
         IsCurrent :=
           match Current mm with
           | Some current => String.eqb (ID m) (ID current)
           | None => false
           end;
         Cand_Failures := get_int (Failures mm) (ID m) |}
      :: entries_from mm (i + 1) rest
  end.

(** What the handler encodes once the pool is there. *)
Definition entries (mm : ModelManager) : list Candidate :=
  entries_from mm 0 (Candidates mm).

End listing.

(** ** The string helpers of [main.go] and [internal/config]

    [splitAndTrim], [splitComma] and [trimSpace] are written out twice,
    word for word the same; [--preferred-arch] and
    [FRUGALAI_PREFERRED_ARCH] go through them. *)

Module cli.

(** What [for i, c := range s] and [string(c)] take from the runtime:
    the rune at the head of a string with the number of bytes it takes,
    and the UTF-8 text of a rune. A byte below 0x80 is the rune of that
    value and one byte wide; any other first byte gives a rune of 0x80 or
    more (U+FFFD when it starts no valid encoding) that is at least one
    byte wide. *)
Class Runes := {
  DecodeRuneInString : string -> Z * nat;
  string_of_rune : Z -> string;
  Decode_ascii : forall c s, (Ascii.nat_of_ascii c < 128)%nat ->
    DecodeRuneInString (String c s) = (Z.of_nat (Ascii.nat_of_ascii c), 1%nat);
  Decode_other : forall c s, (128 <= Ascii.nat_of_ascii c)%nat ->
    128 <= fst (DecodeRuneInString (String c s)) /\
    (1 <= snd (DecodeRuneInString (String c s)))%nat;
  string_of_rune_ascii : forall c, (Ascii.nat_of_ascii c < 128)%nat ->
    string_of_rune (Z.of_nat (Ascii.nat_of_ascii c)) = String c EmptyString;
}.

Definition len (s : string) : Z := Z.of_nat (String.length s).

Fixpoint drop_bytes (n : nat) (s : string) : string :=
  match n, s with
  | O, _ => s
  | S n', String _ s' => drop_bytes n' s'
  | S _, EmptyString => EmptyString
  end.

(** [for i, c := range s]: the byte index and the rune of each turn.
    [fuel] bounds the turns; the length of [s] is enough. *)
Fixpoint range_from `{Runes} (s : string) (i : Z) (fuel : nat) : list (Z * Z) :=
  match fuel with
  | O => []
  | S fuel' =>
      match s with
      | EmptyString => []
      | String _ _ =>
          let (c, width) := DecodeRuneInString s in
          (i, c) :: range_from (drop_bytes width s) (i + Z.of_nat width) fuel'
      end
  end.

Definition range `{Runes} (s : string) : list (Z * Z) := range_from s 0 (String.length s).

(** [c != ' ' && c != '\t' && c != '\n' && c != '\r']. *)
Definition notSpace (c : Z) : bool :=
  negb (c =? 32) && negb (c =? 9) && negb (c =? 10) && negb (c =? 13).

(** [s[i]]: a run-time panic when [i] is out of range. *)
Definition byte_at (s : string) (i : Z) : option Z :=
  if (0 <=? i) && (i <? len s)
  then option_map (fun c => Z.of_nat (Ascii.nat_of_ascii c)) (String.get (Z.to_nat i) s)
  else None.

(** [s[lo:hi]]: a run-time panic unless [0 <= lo <= hi <= len(s)]. *)
Definition slice (s : string) (lo hi : Z) : outcome string :=
  if (0 <=? lo) && (lo <=? hi) && (hi <=? len s)
  then Returned (String.substring (Z.to_nat lo) (Z.to_nat (hi - lo)) s)
  else Panicked "slice bounds out of range".

(** The first loop of [trimSpace]:
<<
    for i, c := range s {
        if c != ' ' && c != '\t' && c != '\n' && c != '\r' { start = i; break }
    }
>> *)
Fixpoint firstLoop (turns : list (Z * Z)) (start : Z) : Z :=
  match turns with
  | [] => start
  | (i, c) :: rest => if notSpace c then i else firstLoop rest start
  end.

(** The second loop:
<<
    for i := len(s) - 1; i >= start; i-- {
        c := s[i]
        if c != ' ' && c != '\t' && c != '\n' && c != '\r' { end = i + 1; break }
    }
>>
    [fuel] bounds the turns; one more than the length of [s] is enough
    for the loop to reach its exit test. *)
Fixpoint secondLoop (s : string) (start i end_ : Z) (fuel : nat) : outcome Z :=
  match fuel with
  | O => Returned end_
  | S fuel' =>
      if start <=? i then
        match byte_at s i with
        | None => Panicked "index out of range"
        | Some c =>
            if notSpace c then Returned (i + 1)
            else secondLoop s start (i - 1) end_ fuel'
        end
      else Returned end_
  end.

Definition trimSpace `{Runes} (s : string) : outcome string :=
  let start := firstLoop (range s) 0 in
  match secondLoop s start (len s - 1) (len s) (S (String.length s)) with
  | Panicked msg => Panicked msg
  | Returned end_ =>
      if end_ <=? start then Returned EmptyString else slice s start end_
  end.

(** The loop of [splitComma]; [44] is the comma. *)
Fixpoint splitComma_loop `{Runes} (turns : list (Z * Z)) (result : list string)
    (current : string) : list string * string :=
  match turns with
  | [] => (result, current)
  | (_, c) :: rest =>
      if c =? 44 then splitComma_loop rest (result ++ [current]) EmptyString
      else splitComma_loop rest result (current ++ string_of_rune c)%string
  end.

Definition splitComma `{Runes} (s : string) : list string :=
  let (result, current) := splitComma_loop (range s) [] EmptyString in
  if negb (String.eqb current EmptyString) then result ++ [current] else result.

Fixpoint splitAndTrim_loop `{Runes} (pieces : list string) (parts : list string)
    : outcome (list string) :=
  match pieces with
  | [] => Returned parts
  | p :: rest =>
      match trimSpace p with
      | Panicked msg => Panicked msg
      | Returned trimmed =>
          if negb (String.eqb trimmed EmptyString)
          then splitAndTrim_loop rest (parts ++ [trimmed])
          else splitAndTrim_loop rest parts
      end
  end.

Definition splitAndTrim `{Runes} (s : string) : outcome (list string) :=
  splitAndTrim_loop (splitComma s) [].

(** A string all of whose bytes are blanks, tabs, line feeds or
    carriage returns. *)
Fixpoint blank (s : string) : bool :=
  match s with
  | EmptyString => true
  | String c s' => negb (notSpace (Z.of_nat (Ascii.nat_of_ascii c))) && blank s'
  end.

End cli.

(** ** More sample values *)

Module samples.

(** [--num-candidates 0]. *)
Definition cfgZeroCandidates : Config :=
  {| APIKey := "key"; Port := 8080; MinParams := 0; MinPopularity := 0;
     EnableOpenAI := true; EnableAnthropic := true;
     OpenAIPath := "/v1"; AnthropicPath := "/v1"; LogLevel := "info";
     CacheTTL := 300; PreferredArchitectures := []; ModelIndex := 0;
     NumCandidates := 0 |}.

(** A client whose snapshot of the catalog, one paid and one free
    model, was stored at time 100 and lives for 300 seconds. *)
Definition paidModel : Model :=
  {| ID := "p/paid"; Name := "Paid"; Description := "";
     Model_Pricing := {| Prompt := "0.000001"; Completion := "0" |};
     Model_Architecture :=
       {| Modality := "text"; InputModalities := ["text"]; OutputModalities := ["text"];
          Tokenizer := "Other"; InstructType := None |};
     ContextLength := 4096; Popularity := 0; Params := 0 |}.

Definition warmClient : client.Client :=
  {| client.apiKey := "key";
     client.cache := Some {| client.Models := [paidModel; sample.modelA];
                             client.Timestamp := 100 |};
     client.cacheTTL := 300 * client.Second |}.

(** Stand-ins for the two functions taken from [fmt] and [time]: every
    duration prints as that of [ChatCompletion], ten seconds, and the
    scan reads the decimal digits a text starts with. *)
Fixpoint leading_digits (s : string) (acc : Z) : Z :=
  match s with
  | String c s' =>
      let n := Z.of_nat (Ascii.nat_of_ascii c) in
      if (48 <=? n) && (n <=? 57) then leading_digits s' (10 * acc + (n - 48)) else acc
  | EmptyString => acc
  end.

Definition sampleFmt : client.Fmt :=
  {| client.Duration_String := fun _ => "10s";
     client.Sscanf_d := fun s => leading_digits s 0 |}.

(** A chat request, a chat response with one choice, and three worlds:
    the upstream answers every attempt; it refuses the first attempt
    with 429 and answers the next; it refuses every attempt with 404. *)
Definition chatReq : ChatRequest :=
  {| Req_Model := "auto";
     Messages := [ {| Role := "user"; Content := "hi" |} ];
     Temperature := 1%float; MaxTokens := 16; TopP := 0%float; Stream := false;
     FrequencyPenalty := 0%float; PresencePenalty := 0%float; Seed := None;
     Req_ResponseFormat := None |}.

Definition chatOK : wire.ChatResponse :=
  {| wire.Resp_ID := "gen-1"; wire.Object := "chat.completion"; wire.Created := 1;
     wire.Resp_Model := "c/gamma";
     wire.Choices :=
       [ {| wire.Index := 0;
            wire.Message := {| Role := "assistant"; Content := "hello" |};
            wire.FinishReason := "stop" |} ];
     wire.Resp_Usage :=
       {| wire.PromptTokens := 3; wire.CompletionTokens := 1; wire.TotalTokens := 4 |} |}.

Definition attemptWith (net : client.reply wire.ChatResponse) : handlers.Attempt :=
  {| handlers.free := Ok []; handlers.marshal := None; handlers.net := net;
     handlers.now := 7 |}.

Definition upstreamOK : nat -> handlers.Attempt :=
  fun _ => attemptWith (client.Replied 200 "{}" (Ok chatOK)).

Definition upstreamFlaky : nat -> handlers.Attempt :=
  fun k =>
    match k with
    | O => attemptWith (client.Replied 429 "slow down" (Err "not decoded"))
    | S _ => attemptWith (client.Replied 200 "{}" (Ok chatOK))
    end.

Definition upstreamNotFound : nat -> handlers.Attempt :=
  fun _ => attemptWith (client.Replied 404 "no such model" (Err "not decoded")).

(** A stand-in for the decoder of the runtime that takes every byte for
    a rune of its own; on ASCII text it is the decoder. *)
Lemma bytewise_Decode_other (c : Ascii.ascii) (s : string) :
  (128 <= Ascii.nat_of_ascii c)%nat ->
  128 <= fst (Z.of_nat (Ascii.nat_of_ascii c), 1%nat) /\
  (1 <= snd (Z.of_nat (Ascii.nat_of_ascii c), 1%nat))%nat.
Proof. simpl. lia. Qed.

Lemma bytewise_string_of_rune (c : Ascii.ascii) :
  (Ascii.nat_of_ascii c < 128)%nat ->
  String (Ascii.ascii_of_nat (Z.to_nat (Z.of_nat (Ascii.nat_of_ascii c)))) EmptyString
  = String c EmptyString.
Proof. intros _. by rewrite Nat2Z.id, Ascii.ascii_nat_embedding. Qed.

Definition bytewise : cli.Runes :=
  {| cli.DecodeRuneInString :=
       fun s =>
         match s with
         | String c _ => (Z.of_nat (Ascii.nat_of_ascii c), 1%nat)
         | EmptyString => (65533, 0%nat)
         end;
     cli.string_of_rune := fun r => String (Ascii.ascii_of_nat (Z.to_nat r)) EmptyString;
     cli.Decode_ascii := fun c s _ => eq_refl;
     cli.Decode_other := bytewise_Decode_other;
     cli.string_of_rune_ascii := bytewise_string_of_rune |}.

(** The configuration that [--preferred-arch "text, "] gives. *)
Definition cfgBlankArch : Config :=
  {| APIKey := "key"; Port := 8080; MinParams := 0; MinPopularity := 0;
     EnableOpenAI := true; EnableAnthropic := true;
     OpenAIPath := "/v1"; AnthropicPath := "/v1"; LogLevel := "info";
     CacheTTL := 300; PreferredArchitectures := ["text"; " "]; ModelIndex := 0;
     NumCandidates := 10 |}.

End samples.

(** * Properties *)

(** ** The candidate ranker *)

Section Ranker.

Context `{Library}.

Lemma keeps_min_params_mono (cfg : Config) (p p' : Z) (m : Model) :
  p <= p' ->
  model.keeps (with_MinParams cfg p') m = true ->
  model.keeps (with_MinParams cfg p) m = true.
Proof.
  unfold model.keeps; simpl. intros Hle.
  rewrite !andb_true_iff, !negb_true_iff, !andb_false_iff, !Z.ltb_ge.
  intros [Hp Hpop]. split; [lia | exact Hpop].
Qed.

Lemma filter_sublist_of_impl {A : Type} (P Q : A -> bool) (l : list A) :
  (forall x, P x = true -> Q x = true) ->
  sublist (List.filter P l) (List.filter Q l).
Proof.
  intros HPQ. induction l as [|x l IH]; simpl; [constructor|].
  destruct (P x) eqn:HP.
  - rewrite (HPQ x HP). by constructor.
  - destruct (Q x); [by constructor | exact IH].
Qed.

(** C8. Raising [min_params], the other constraints being the same,
    never adds a model to the filtered set: what passes the larger
    threshold is a subsequence of what passes the smaller one, and so is
    not longer. *)
Theorem filterModels_min_params_monotone (cfg : Config) (p p' : Z) (models : list Model) :
  p <= p' ->
  sublist (model.filterModels (with_MinParams cfg p') models)
          (model.filterModels (with_MinParams cfg p) models) /\
  (length (model.filterModels (with_MinParams cfg p') models)
   <= length (model.filterModels (with_MinParams cfg p) models))%nat.
Proof.
  intros Hle.
  assert (S : sublist (model.filterModels (with_MinParams cfg p') models)
                      (model.filterModels (with_MinParams cfg p) models)).
  { apply filter_sublist_of_impl. intros m. by apply keeps_min_params_mono. }
  split; [exact S | by apply sublist_length].
Qed.

End Ranker.

Lemma filterModels_min_params_monotone_witness :
  sublist (model.filterModels (with_MinParams sample.cfg0 1000) [sample.modelA; sample.modelB])
          (model.filterModels (with_MinParams sample.cfg0 0) [sample.modelA; sample.modelB]) /\
  (length (model.filterModels (with_MinParams sample.cfg0 1000) [sample.modelA; sample.modelB])
   <= length (model.filterModels (with_MinParams sample.cfg0 0) [sample.modelA; sample.modelB]))%nat.
Proof.
  apply (filterModels_min_params_monotone sample.cfg0 0 1000 [sample.modelA; sample.modelB]).
  lia.
Defined.

(** *** The score of a model about which nothing is known *)

Lemma floorsScore_bits : Prim2SF sample.floorsScore = S754_finite false 6485183463413515 (-56).
Proof. reflexivity. Qed.

Lemma nearest_0_09_bits : Prim2SF 0.09%float = S754_finite false 6485183463413514 (-56).
Proof. reflexivity. Qed.

Lemma floorsScore_sum : (0.0 + 0.1 * 0.3 + 0.1 * 0.4 + 0.1 * 0.2)%float = sample.floorsScore.
Proof. reflexivity. Qed.

Section ZeroModel.

Context `{Library}.

Lemma weightedTerms_floors (m : Model) :
  Params m <= 0 -> Popularity m <= 0 -> ContextLength m <= 0 ->
  model.weightedTerms m = sample.floorsScore.
Proof.
  intros Hp Hq Hc. unfold model.weightedTerms.
  unfold model.normalizePopularity, model.normalizeParams, model.normalizeContextLength.
  rewrite !(proj2 (Z.leb_le _ 0)) by assumption.
  reflexivity.
Qed.

Lemma weightedTerms_fused_floors (m : Model) :
  Params m <= 0 -> Popularity m <= 0 -> ContextLength m <= 0 ->
  model.weightedTerms_fused m = sample.floorsScore.
Proof.
  intros Hp Hq Hc. unfold model.weightedTerms_fused.
  unfold model.normalizePopularity, model.normalizeParams, model.normalizeContextLength.
  rewrite !(proj2 (Z.leb_le _ 0)) by assumption.
  by vm_compute.
Qed.

(** C9, as the code has it. For a model whose params, popularity and
    context length are all zero each normalised term takes its 0.1
    floor, and the score before the two bonuses is the binary64 value of
    [0.0 + 0.1*0.3 + 0.1*0.4 + 0.1*0.2] with every operation rounded:
    6485183463413515 * 2^-56, about 0.09000000000000001, whether or not
    the compiler fuses the products with the sums. That is the binary64
    number next above the one nearest to 0.09, not 0.09. *)
Theorem zero_model_weightedTerms (m : Model) :
  Params m = 0 -> Popularity m = 0 -> ContextLength m = 0 ->
  model.normalizePopularity (Popularity m) = 0.1%float /\
  model.normalizeParams (Params m) = 0.1%float /\
  model.normalizeContextLength (ContextLength m) = 0.1%float /\
  model.weightedTerms m = (0.0 + 0.1 * 0.3 + 0.1 * 0.4 + 0.1 * 0.2)%float /\
  model.weightedTerms_fused m = model.weightedTerms m /\
  Prim2SF (model.weightedTerms m) = S754_finite false 6485183463413515 (-56) /\
  Prim2SF 0.09%float = S754_finite false 6485183463413514 (-56).
Proof.
  intros Hp Hq Hc.
  rewrite weightedTerms_fused_floors, weightedTerms_floors by lia.
  rewrite Hp, Hq, Hc. repeat split.
Qed.

End ZeroModel.

Lemma zero_model_weightedTerms_witness :
  model.normalizePopularity (H := sample.smallLibrary) (Popularity sample.modelA) = 0.1%float /\
  model.normalizeParams (Params sample.modelA) = 0.1%float /\
  model.normalizeContextLength (ContextLength sample.modelA) = 0.1%float /\
  model.weightedTerms (H := sample.smallLibrary) sample.modelA
    = (0.0 + 0.1 * 0.3 + 0.1 * 0.4 + 0.1 * 0.2)%float /\
  model.weightedTerms_fused (H := sample.smallLibrary) sample.modelA
    = model.weightedTerms (H := sample.smallLibrary) sample.modelA /\
  Prim2SF (model.weightedTerms (H := sample.smallLibrary) sample.modelA)
    = S754_finite false 6485183463413515 (-56) /\
  Prim2SF 0.09%float = S754_finite false 6485183463413514 (-56).
Proof.
  apply (zero_model_weightedTerms (H := sample.smallLibrary) sample.modelA); reflexivity.
Defined.

(** C9 as stated fails on [modelA], whose three quantities are zero: its
    score before the bonuses is not the binary64 number 0.09, and the
    rational it denotes, 6485183463413515 / 2^56, is not 9/100 either. *)
Lemma zero_model_score_is_not_0_09 :
  Params sample.modelA = 0 /\ Popularity sample.modelA = 0 /\ ContextLength sample.modelA = 0 /\
  model.weightedTerms (H := sample.smallLibrary) sample.modelA <> 0.09%float /\
  model.weightedTerms_fused (H := sample.smallLibrary) sample.modelA <> 0.09%float /\
  PrimFloat.eqb (model.weightedTerms (H := sample.smallLibrary) sample.modelA) 0.09 = false /\
  Prim2SF (model.weightedTerms (H := sample.smallLibrary) sample.modelA)
    = S754_finite false 6485183463413515 (-56) /\
  6485183463413515 * 100 <> 9 * 2 ^ 56.
Proof.
  repeat split; try reflexivity.
  - intros E. apply (f_equal Prim2SF) in E. vm_compute in E. discriminate E.
  - intros E. apply (f_equal Prim2SF) in E. vm_compute in E. discriminate E.
  - lia.
Qed.

(** *** Totality of the ranking and top-N extraction *)

Section Ranking.

Context `{Library}.
Variable cfg : Config.

Lemma length_zero_eqb {A : Type} (l : list A) : (length l =? 0)%nat = true <-> l = [].
Proof. destruct l; simpl; split; intros E; (done || discriminate E). Qed.

Lemma length_zero_eqb_false {A : Type} (l : list A) : l <> [] -> (length l =? 0)%nat = false.
Proof. destruct l; [done | reflexivity]. Qed.

Lemma ranked_Permutation (models : list Model) :
  Permutation (map Score_Model (model.ranked cfg models)) (model.filterModels cfg models).
Proof.
  unfold model.ranked. rewrite sort_Slice_Permutation.
  unfold model.scoreModels. rewrite map_map. simpl. by rewrite map_id.
Qed.

Lemma ranked_length (models : list Model) :
  length (model.ranked cfg models) = length (model.filterModels cfg models).
Proof.
  rewrite <- (Permutation_length (ranked_Permutation models)). by rewrite length_map.
Qed.

Lemma GetTopCandidates_unfold (models : list Model) (n : Z) :
  model.filterModels cfg models <> [] ->
  model.GetTopCandidates cfg (Ok models) n
  = Ok (map Score_Model (take (Z.to_nat n) (model.ranked cfg models))).
Proof.
  intros Hf. unfold model.GetTopCandidates.
  assert (Hm : models <> []) by (intros ->; by apply Hf).
  by rewrite (length_zero_eqb_false _ Hm), (length_zero_eqb_false _ Hf).
Qed.

Lemma SelectBest_returns (free : result (list Model)) :
  exists r, model.SelectBest cfg free = Returned r.
Proof.
  unfold model.SelectBest. destruct free as [models | err]; [|by eexists].
  destruct (length models =? 0)%nat; [by eexists|].
  destruct (length (model.filterModels cfg models) =? 0)%nat eqn:Hf; [by eexists|].
  fold (model.ranked cfg models).
  assert (Hl := ranked_length models).
  destruct (model.ranked cfg models) as [|best rest]; [|by eexists].
  simpl in Hl. rewrite <- Hl in Hf. discriminate Hf.
Qed.

(** C3, as the code has it. The ranking always returns and never
    panics, but it is not total in the sense of the claim: an empty
    catalog and a catalog that the filter empties are both answered by
    an error, not by an empty list. When a model passes the filter, the
    answer is the first [n] models of the sorted sequence; asking for
    more than there are returns them all. *)
Theorem GetTopCandidates_outcome (models : list Model) (n : Z) :
  (exists r, model.SelectBest cfg (Ok models) = Returned r) /\
  (models = [] ->
     model.GetTopCandidates cfg (Ok models) n = Err "no free models available") /\
  (models <> [] -> model.filterModels cfg models = [] ->
     model.GetTopCandidates cfg (Ok models) n = Err "no models match the constraints") /\
  (model.filterModels cfg models <> [] ->
     exists top,
       model.GetTopCandidates cfg (Ok models) n = Ok top /\
       top = map Score_Model (take (Z.to_nat n) (model.ranked cfg models)) /\
       length top = Nat.min (Z.to_nat n) (length (model.filterModels cfg models)) /\
       (Z.of_nat (length (model.filterModels cfg models)) <= n ->
          Permutation top (model.filterModels cfg models))).
Proof.
  split; [apply SelectBest_returns|].
  split; [by intros ->|].
  split.
  - intros Hm Hf. unfold model.GetTopCandidates.
    rewrite (length_zero_eqb_false _ Hm), Hf. reflexivity.
  - intros Hf. eexists. split; [by apply GetTopCandidates_unfold|].
    split; [reflexivity|]. split.
    + by rewrite length_map, length_take, ranked_length.
    + intros Hn. rewrite take_ge by (rewrite ranked_length; lia).
      apply ranked_Permutation.
Qed.

(** The score that the ranking attaches to a model is the score of
    that model under the configuration, wherever the sort puts it. *)
Lemma ranked_scores (models : list Model) (s : ModelScore) :
  s ∈ model.ranked cfg models -> Score s = model.calculateScore cfg (Score_Model s).
Proof.
  unfold model.ranked. rewrite sort_Slice_Permutation.
  unfold model.scoreModels. rewrite list_elem_of_fmap.
  intros (m & -> & _). reflexivity.
Qed.

End Ranking.

Lemma GetTopCandidates_outcome_witness :
  exists top,
    model.GetTopCandidates (H := sample.smallLibrary) sample.cfg0 (Ok [sample.modelA; sample.modelB]) 10
      = Ok top /\
    Permutation top [sample.modelA; sample.modelB].
Proof.
  destruct (GetTopCandidates_outcome (H := sample.smallLibrary) sample.cfg0
              [sample.modelA; sample.modelB] 10) as (_ & _ & _ & Hsome).
  destruct Hsome as (top & Htop & _ & _ & Hperm); [discriminate|].
  exists top. split; [exact Htop|]. apply Hperm. simpl. lia.
Defined.

(** C3 as stated fails: the empty catalog is answered by an error, and so
    is a catalog of which no model reaches [min_params]. *)
Lemma GetTopCandidates_empty_is_an_error :
  model.GetTopCandidates (H := sample.smallLibrary) sample.cfg0 (Ok []) 10
    = Err "no free models available" /\
  model.GetTopCandidates (H := sample.smallLibrary) (with_MinParams sample.cfg0 1000)
    (Ok [sample.modelA]) 10
    = Err "no models match the constraints" /\
  model.GetTopCandidates (H := sample.smallLibrary) sample.cfg0 (Ok []) 10 <> Ok [].
Proof. repeat split; discriminate. Qed.

(** *** Models with equal scores *)

(** Two models with the same score: under the insertion sort, which is
    what [sort.Slice] runs on so short a slice, they keep the order of the
    catalog, in either order. *)
Example ranking_of_a_tie :
  model.calculateScore (H := sample.smallLibrary) sample.cfg0 sample.modelA
  = model.calculateScore (H := sample.smallLibrary) sample.cfg0 sample.modelC /\
  model.GetTopCandidates (H := sample.smallLibrary) sample.cfg0 (Ok [sample.modelA; sample.modelC]) 10
  = Ok [sample.modelA; sample.modelC] /\
  model.GetTopCandidates (H := sample.smallLibrary) sample.cfg0 (Ok [sample.modelC; sample.modelA]) 10
  = Ok [sample.modelC; sample.modelA] /\
  model.GetTopCandidates (H := sample.smallLibrary) sample.cfg0
    (Ok [sample.modelB; sample.modelC; sample.modelA]) 2
  = Ok [sample.modelC; sample.modelA].
Proof. repeat split. Qed.

(** ** The model manager *)

(** *** What the failover loop can do to the manager *)

Lemma scan_result (skip : ModelManager -> Model -> bool) (mm : ModelManager)
    (i : Z) (fuel : nat) :
  (exists nextIdx nextModel,
     manager.scan skip mm i fuel
       = (manager.with_Current mm (Some nextModel) nextIdx, Returned true) /\
     index (Candidates mm) nextIdx = Some nextModel /\
     skip mm nextModel = false /\
     Current mm <> None) \/
  (exists r, manager.scan skip mm i fuel = (mm, r) /\ r <> Returned true).
Proof.
  revert i. induction fuel as [|fuel IH]; intros i; simpl.
  - right. by eexists.
  - destruct (i <? manager.len mm); [|right; by eexists].
    destruct (index (Candidates mm) _) as [nextModel|] eqn:Hidx; [|right; by eexists].
    destruct (skip mm nextModel) eqn:Hskip; [apply IH|].
    destruct (Current mm) eqn:Hcur; [|right; by eexists].
    left. exists (rem (wrap_int (CurrentIdx mm + i)) (manager.len mm)), nextModel.
    repeat split; try done.
Qed.

(** The loop writes [Current] and [CurrentIdx] and nothing else. *)
Lemma scan_frame (skip : ModelManager -> Model -> bool) (mm : ModelManager)
    (i : Z) (fuel : nat) :
  let mm' := fst (manager.scan skip mm i fuel) in
  Candidates mm' = Candidates mm /\ Failures mm' = Failures mm /\
  LastFailure mm' = LastFailure mm /\ Timeouts mm' = Timeouts mm /\
  Burned mm' = Burned mm.
Proof.
  destruct (scan_result skip mm i fuel) as [(p & m & -> & _) | (r & -> & _)];
    by repeat split.
Qed.

Lemma index_Some_range {A : Type} (s : list A) (i : Z) (x : A) :
  index s i = Some x -> 0 <= i < Z.of_nat (length s).
Proof.
  unfold index. destruct ((0 <=? i) && (i <? Z.of_nat (length s))) eqn:E; [|done].
  intros _. apply andb_true_iff in E as [E1 E2]. lia.
Qed.

(** *** The decision to switch *)

Lemma get_int_insert (m : gmap string Z) (k : string) (v : Z) :
  get_int (<[k := v]> m) k = v.
Proof. unfold get_int. by rewrite lookup_insert_eq. Qed.

Lemma get_time_insert (m : gmap string Time) (k : string) (v : Time) :
  manager.get_time (<[k := v]> m) k = v.
Proof. unfold manager.get_time. by rewrite lookup_insert_eq. Qed.

Lemma incr_in_range (x : Z) : int_min <= x < int_max -> incr x = x + 1.
Proof.
  unfold incr, wrap_int, int_min, int_max. intros Hx.
  rewrite Z.mod_small by lia. lia.
Qed.

Lemma recordFailure_shouldSwitch_spec (mm : ModelManager) (modelID : string)
    (statusCode : Z) (now : Time) :
  manager.get_time (LastFailure mm) modelID = now ->
  manager.recordFailure_shouldSwitch mm modelID statusCode
  = spec.should_switch (get_int (Failures mm) modelID)
      (manager.get_time (LastFailure mm) modelID) statusCode now.
Proof.
  intros ->. unfold manager.recordFailure_shouldSwitch, spec.should_switch.
  unfold spec.within_last_2_minutes, Minute.
  rewrite (proj2 (Z.ltb_lt _ _)) by lia. by rewrite andb_true_r.
Qed.

Lemma RecordModelFailure_shouldSwitch_spec (mm : ModelManager) (modelID : string)
    (statusCode : Z) (clock : Time) :
  manager.RecordModelFailure_shouldSwitch mm modelID statusCode clock
  = spec.should_switch (get_int (Failures mm) modelID)
      (manager.get_time (LastFailure mm) modelID) statusCode clock.
Proof.
  unfold manager.RecordModelFailure_shouldSwitch, spec.should_switch.
  unfold spec.within_last_2_minutes, After.
  destruct (statusCode =? 429); [done|].
  destruct (500 <=? statusCode); [done|]. simpl.
  destruct (3 <=? get_int (Failures mm) modelID) eqn:H3; [|done]. simpl.
  replace (clock + -2 * Minute) with (clock - 2 * Minute) by lia.
  destruct (clock - 2 * Minute <? manager.get_time (LastFailure mm) modelID); [exact H3|done].
Qed.

(** C1. [record_failure] adds one to [failures[model_id]], stamps
    [last_failure_at[model_id]] with the current time and writes nothing
    else before it decides. It decides to switch exactly when the status
    code is 429, or is 500 or more, or the model has three failures or
    more with the last of them within the last two minutes; this holds
    for the method of the handlers, which decides at the time of the
    stamp, and for [RecordModelFailure] of [main.go], which reads the
    clock a second time. When the decision is not to switch, the manager
    is left as it was apart from the two counters, and a switch is only
    attempted when there is more than one candidate. *)
Theorem record_failure_decision (mm : ModelManager) (modelID : string)
    (statusCode : Z) (now now' : Time) :
  let mm1 := manager.count_failure mm modelID now in
  let failures := get_int (Failures mm1) modelID in
  let last_failure_at := manager.get_time (LastFailure mm1) modelID in
  failures = incr (get_int (Failures mm) modelID) /\
  (int_min <= get_int (Failures mm) modelID < int_max ->
     failures = get_int (Failures mm) modelID + 1) /\
  last_failure_at = now /\
  (Candidates mm1 = Candidates mm /\ Current mm1 = Current mm /\
   CurrentIdx mm1 = CurrentIdx mm /\ Timeouts mm1 = Timeouts mm /\
   Burned mm1 = Burned mm) /\
  (forall id, id <> modelID ->
     Failures mm1 !! id = Failures mm !! id /\
     LastFailure mm1 !! id = LastFailure mm !! id) /\
  manager.recordFailure_shouldSwitch mm1 modelID statusCode
    = spec.should_switch failures last_failure_at statusCode now /\
  manager.RecordModelFailure_shouldSwitch mm1 modelID statusCode now'
    = spec.should_switch failures last_failure_at statusCode now' /\
  manager.recordFailure mm modelID statusCode now
    = (if spec.should_switch failures last_failure_at statusCode now
          && (1 <? manager.len mm1)
       then manager.switchToNextModel mm1 else (mm1, Returned false)) /\
  manager.RecordModelFailure mm modelID statusCode now now'
    = (if spec.should_switch failures last_failure_at statusCode now'
          && (1 <? manager.len mm1)
       then manager.scan manager.skip_failed mm1 1 (length (Candidates mm1))
       else (mm1, Returned false)).
Proof.
  intros mm1 failures last_failure_at.
  assert (Hf : failures = incr (get_int (Failures mm) modelID)).
  { unfold failures, mm1, manager.count_failure. simpl. apply get_int_insert. }
  assert (Hl : last_failure_at = now).
  { unfold last_failure_at, mm1, manager.count_failure. simpl. apply get_time_insert. }
  split; [exact Hf|].
  split; [intros Hr; rewrite Hf; by apply incr_in_range|].
  split; [exact Hl|].
  split; [by repeat split|].
  split.
  { intros id Hne. unfold mm1, manager.count_failure; simpl.
    by rewrite !lookup_insert_ne. }
  assert (E1 := recordFailure_shouldSwitch_spec mm1 modelID statusCode now Hl).
  assert (E2 := RecordModelFailure_shouldSwitch_spec mm1 modelID statusCode now').
  split; [exact E1|]. split; [exact E2|].
  split.
  - unfold manager.recordFailure. fold mm1. by rewrite E1.
  - unfold manager.RecordModelFailure. fold mm1. by rewrite E2.
Qed.

Lemma record_failure_decision_witness :
  get_int (Failures (manager.count_failure manager.emptyManager "a/alpha" 5)) "a/alpha"
  = get_int (Failures manager.emptyManager) "a/alpha" + 1.
Proof.
  pose proof (record_failure_decision manager.emptyManager "a/alpha" 429 5 6) as T.
  cbv zeta in T. destruct T as (_ & Hincr & _).
  apply Hincr. vm_compute. split; [discriminate | reflexivity].
Defined.

(** A decision by status code, and a decision by count: the third
    failure with status 400 switches, the first two do not. *)
Example recordFailure_scenarios :
  let mm := {| Candidates := [sample.modelA; sample.modelB]; Current := Some sample.modelB;
               CurrentIdx := 1; Failures := ∅; LastFailure := ∅;
               Timeouts := ∅; Burned := ∅ |} in
  let after500 := manager.recordFailure mm "b/beta" 500 7 in
  let after400 := manager.recordFailure mm "b/beta" 400 7 in
  let third400 :=
    manager.recordFailure (fst (manager.recordFailure (fst after400) "b/beta" 400 8))
      "b/beta" 400 9 in
  snd after500 = Returned true /\ Current (fst after500) = Some sample.modelA /\
  CurrentIdx (fst after500) = 0 /\
  snd after400 = Returned false /\ Current (fst after400) = Some sample.modelB /\
  snd third400 = Returned true /\ Current (fst third400) = Some sample.modelA.
Proof. vm_compute. repeat split. Qed.

(** *** Invariants of the manager under its calls *)

Section Calls.

Context `{Library}.
Variable cfg : Config.

Lemma GetTopCandidates_10_nonempty (free : result (list Model)) (cands : list Model) :
  model.GetTopCandidates cfg free 10 = Ok cands -> cands <> [].
Proof.
  unfold model.GetTopCandidates. destruct free as [models|err]; [|done].
  destruct (length models =? 0)%nat; [done|].
  destruct (length (model.filterModels cfg models) =? 0)%nat eqn:Hf; [done|].
  intros [= <-]. fold (model.ranked cfg models).
  assert (Hl := ranked_length cfg models).
  destruct (model.ranked cfg models) as [|s rest]; [|done].
  simpl in Hl. rewrite <- Hl in Hf. discriminate Hf.
Qed.

Lemma count_timeout_Burned (mm : ModelManager) (modelID id : string) :
  get_bool (Burned (manager.count_timeout mm modelID)) id
  = if decide (modelID = id) then true else get_bool (Burned mm) id.
Proof.
  unfold manager.count_timeout, get_bool; simpl.
  rewrite lookup_insert. by destruct (decide (modelID = id)).
Qed.

Lemma step_Burned (mm : ModelManager) (c : manager.Call) (id : string) :
  get_bool (Burned mm) id = true ->
  get_bool (Burned (manager.step cfg mm c)) id = true.
Proof.
  intros Hb. destruct c as [m sc now | m | m sc now now' | m | free | ]; simpl.
  - unfold manager.recordFailure, manager.switchToNextModel.
    destruct (_ && _); [|exact Hb].
    by rewrite (proj2 (proj2 (proj2 (proj2 (scan_frame _ _ _ _))))).
  - unfold manager.recordTimeout, manager.switchToNextModel.
    assert (Hb' : get_bool (Burned (manager.count_timeout mm m)) id = true).
    { rewrite count_timeout_Burned. by destruct (decide (m = id)). }
    destruct (1 <? _); [|exact Hb'].
    by rewrite (proj2 (proj2 (proj2 (proj2 (scan_frame _ _ _ _))))).
  - unfold manager.RecordModelFailure.
    destruct (_ && _); [|exact Hb].
    by rewrite (proj2 (proj2 (proj2 (proj2 (scan_frame _ _ _ _))))).
  - unfold manager.RecordModelTimeout.
    assert (Hb' : get_bool (Burned (manager.count_timeout mm m)) id = true).
    { rewrite count_timeout_Burned. by destruct (decide (m = id)). }
    destruct (1 <? _); [|exact Hb'].
    by rewrite (proj2 (proj2 (proj2 (proj2 (scan_frame _ _ _ _))))).
  - unfold manager.candidatesHandler.
    destruct (length (Candidates mm) =? 0)%nat; [|exact Hb].
    by destruct (model.GetTopCandidates cfg free 10).
  - unfold manager.modelSwitchHandler.
    destruct (length (Candidates mm) =? 0)%nat; [exact Hb|].
    by destruct (index (Candidates mm) _).
Qed.

Lemma run_Burned (mm : ModelManager) (calls : list manager.Call) (id : string) :
  get_bool (Burned mm) id = true ->
  get_bool (Burned (manager.run cfg mm calls)) id = true.
Proof.
  revert mm. induction calls as [|c calls IH]; intros mm Hb; simpl; [exact Hb|].
  apply IH. by apply step_Burned.
Qed.

Lemma recordTimeout_burns (mm : ModelManager) (modelID : string) :
  get_bool (Burned (fst (manager.recordTimeout mm modelID))) modelID = true /\
  get_bool (Burned (fst (manager.RecordModelTimeout mm modelID))) modelID = true.
Proof.
  pose proof (step_Burned (manager.count_timeout mm modelID)) as S.
  assert (Hb : get_bool (Burned (manager.count_timeout mm modelID)) modelID = true).
  { rewrite count_timeout_Burned. by destruct (decide (modelID = modelID)). }
  unfold manager.recordTimeout, manager.RecordModelTimeout, manager.switchToNextModel.
  split; (destruct (1 <? _); [|exact Hb]);
    by rewrite (proj2 (proj2 (proj2 (proj2 (scan_frame _ _ _ _))))).
Qed.

(** C6. Once [record_timeout] has been called for an id, by the
    method of the handlers or by [RecordModelTimeout] of [main.go], the
    id is burned, and it is burned after every sequence of calls that
    follows: failures, timeouts, refreshes of the pool and manual
    switches, in any order and for any ids. No call takes an id out of
    [Burned]. *)
Theorem burn_is_permanent (mm : ModelManager) (modelID : string)
    (calls : list manager.Call) :
  get_bool (Burned (manager.run cfg (fst (manager.recordTimeout mm modelID)) calls))
    modelID = true /\
  get_bool (Burned (manager.run cfg (fst (manager.RecordModelTimeout mm modelID)) calls))
    modelID = true /\
  (forall id, get_bool (Burned mm) id = true ->
     get_bool (Burned (manager.run cfg mm calls)) id = true).
Proof.
  destruct (recordTimeout_burns mm modelID) as [B1 B2].
  split; [by apply run_Burned|].
  split; [by apply run_Burned|].
  intros id. apply run_Burned.
Qed.

(** The invariant reads three fields only. *)
Lemma manager_inv_ext (mm mm' : ModelManager) :
  Candidates mm' = Candidates mm -> Current mm' = Current mm ->
  CurrentIdx mm' = CurrentIdx mm ->
  spec.manager_inv mm -> spec.manager_inv mm'.
Proof.
  unfold spec.manager_inv, manager.len. by intros -> -> ->.
Qed.

Lemma with_Current_inv (mm : ModelManager) (p : Z) (m : Model) :
  index (Candidates mm) p = Some m ->
  spec.manager_inv (manager.with_Current mm (Some m) p).
Proof.
  intros Hidx. right. unfold manager.len; simpl.
  split; [by eapply index_Some_range | right; by rewrite Hidx].
Qed.

Lemma scan_inv (skip : ModelManager -> Model -> bool) (mm : ModelManager)
    (i : Z) (fuel : nat) :
  spec.manager_inv mm -> spec.manager_inv (fst (manager.scan skip mm i fuel)).
Proof.
  intros Hinv.
  destruct (scan_result skip mm i fuel) as [(p & m & -> & Hidx & _) | (r & -> & _)];
    simpl; [by apply with_Current_inv | exact Hinv].
Qed.

Lemma step_inv (mm : ModelManager) (c : manager.Call) :
  spec.manager_inv mm -> spec.manager_inv (manager.step cfg mm c).
Proof.
  intros Hinv. destruct c as [m sc now | m | m sc now now' | m | free | ]; simpl.
  - unfold manager.recordFailure, manager.switchToNextModel.
    assert (Hinv' : spec.manager_inv (manager.count_failure mm m now))
      by (by eapply manager_inv_ext).
    destruct (_ && _); [by apply scan_inv | exact Hinv'].
  - unfold manager.recordTimeout, manager.switchToNextModel.
    assert (Hinv' : spec.manager_inv (manager.count_timeout mm m))
      by (by eapply manager_inv_ext).
    destruct (1 <? _); [by apply scan_inv | exact Hinv'].
  - unfold manager.RecordModelFailure.
    assert (Hinv' : spec.manager_inv (manager.count_failure mm m now))
      by (by eapply manager_inv_ext).
    destruct (_ && _); [by apply scan_inv | exact Hinv'].
  - unfold manager.RecordModelTimeout.
    assert (Hinv' : spec.manager_inv (manager.count_timeout mm m))
      by (by eapply manager_inv_ext).
    destruct (1 <? _); [by apply scan_inv | exact Hinv'].
  - unfold manager.candidatesHandler.
    destruct (length (Candidates mm) =? 0)%nat eqn:Hlen; [|exact Hinv].
    destruct (model.GetTopCandidates cfg free 10) as [cands|err] eqn:Htop; [|exact Hinv].
    simpl. apply length_zero_eqb in Hlen.
    apply GetTopCandidates_10_nonempty in Htop.
    destruct Hinv as [(_ & Hidx & Hcur) | (Hrange & _)].
    + right. unfold manager.len; simpl. rewrite Hidx, Hcur.
      split; [|by left]. destruct cands; [done | simpl; lia].
    + unfold manager.len in Hrange. rewrite Hlen in Hrange. simpl in Hrange. lia.
  - unfold manager.modelSwitchHandler.
    destruct (length (Candidates mm) =? 0)%nat; [exact Hinv|].
    destruct (index (Candidates mm) _) as [m|] eqn:Hidx; [|exact Hinv].
    simpl. by apply with_Current_inv.
Qed.

Lemma run_inv (mm : ModelManager) (calls : list manager.Call) :
  spec.manager_inv mm -> spec.manager_inv (manager.run cfg mm calls).
Proof.
  revert mm. induction calls as [|c calls IH]; intros mm Hinv; simpl; [exact Hinv|].
  apply IH. by apply step_inv.
Qed.

Lemma manager_inv_index_valid (mm : ModelManager) :
  spec.manager_inv mm -> spec.index_valid mm.
Proof. intros [(Hc & _) | (Hr & _)] Hne; [done | exact Hr]. Qed.

(** The manager that startup builds satisfies the invariant, and its
    pointer agrees with its index. *)
Lemma initializeModelManager_inv (free : result (list Model)) (mm : ModelManager) :
  manager.initializeModelManager cfg free = Returned mm ->
  spec.manager_inv mm /\ spec.pointer_agrees mm.
Proof.
  unfold manager.initializeModelManager.
  destruct (model.GetTopCandidates cfg free (NumCandidates cfg)) as [cands|err].
  - destruct (index cands _) as [m|] eqn:Hidx; [|done].
    intros [= <-]. split.
    + right. unfold manager.len; simpl.
      split; [by eapply index_Some_range | right; by rewrite Hidx].
    + intros _. simpl. by rewrite Hidx.
  - intros [= <-]. split; [by left | done].
Qed.

(** The half of the manager invariant that the code keeps: from the
    manager that startup builds, every sequence of calls leaves an index
    that is valid whenever there are candidates. *)
Lemma run_index_valid (free : result (list Model)) (mm : ModelManager)
    (calls : list manager.Call) :
  manager.initializeModelManager cfg free = Returned mm ->
  spec.index_valid (manager.run cfg mm calls).
Proof.
  intros Hinit. apply manager_inv_index_valid, run_inv.
  by apply (initializeModelManager_inv free).
Qed.

End Calls.

Lemma burn_is_permanent_witness :
  get_bool (Burned (manager.run (H := sample.smallLibrary) sample.cfg0
     (fst (manager.recordTimeout manager.emptyManager "a/alpha"))
     [manager.CallCandidates (Ok [sample.modelA; sample.modelB]);
      manager.CallRecordFailure "a/alpha" 429 3;
      manager.CallModelSwitch;
      manager.CallRecordTimeout "b/beta"])) "a/alpha" = true.
Proof.
  destruct (burn_is_permanent (H := sample.smallLibrary) sample.cfg0
     (fst (manager.recordTimeout manager.emptyManager "a/alpha")) "b/beta"
     [manager.CallCandidates (Ok [sample.modelA; sample.modelB]);
      manager.CallRecordFailure "a/alpha" 429 3;
      manager.CallModelSwitch;
      manager.CallRecordTimeout "b/beta"]) as (_ & _ & Hmono).
  apply Hmono. reflexivity.
Defined.

(** C4 at the input on which it fails. Startup could not fetch the
    catalog, so the manager is the empty one; [GET /candidates] then
    stores a pool of two and leaves [Current] as it was. The index, 0, is
    valid and names [modelA], but the current model is [nil]: the pointer
    does not agree with the index. The next failure that finds a
    candidate to switch to dereferences the [nil] pointer. *)
Theorem refresh_leaves_Current_nil :
  manager.initializeModelManager (H := sample.smallLibrary) sample.cfg0 (Err "no route to host")
    = Returned manager.emptyManager /\
  let mm := manager.run (H := sample.smallLibrary) sample.cfg0 manager.emptyManager
              [manager.CallCandidates (Ok [sample.modelA; sample.modelB])] in
  Candidates mm = [sample.modelA; sample.modelB] /\
  CurrentIdx mm = 0 /\
  index (Candidates mm) (CurrentIdx mm) = Some sample.modelA /\
  Current mm = None /\
  spec.index_valid mm /\
  ~ spec.pointer_agrees mm /\
  snd (manager.recordFailure mm "a/alpha" 429 1) = Panicked "nil pointer dereference".
Proof.
  split; [by vm_compute|].
  intros mm.
  assert (Hc : Candidates mm = [sample.modelA; sample.modelB]) by (by vm_compute).
  assert (Hi : CurrentIdx mm = 0) by (by vm_compute).
  assert (Hn : Current mm = None) by (by vm_compute).
  split; [exact Hc|]. split; [exact Hi|].
  split; [by rewrite Hc, Hi|]. split; [exact Hn|].
  split; [|split].
  - intros _. unfold manager.len. rewrite Hc, Hi. simpl. lia.
  - intros Hagree. unfold spec.pointer_agrees in Hagree.
    rewrite Hc, Hi, Hn in Hagree.
    specialize (Hagree ltac:(discriminate)). discriminate Hagree.
  - by vm_compute.
Qed.

(** *** The switch procedure *)

Lemma first_at_ext (ok ok' : Model -> bool) (cands : list Model) (positions : list Z) :
  (forall m, ok m = ok' m) ->
  spec.first_at ok cands positions = spec.first_at ok' cands positions.
Proof.
  intros Hok. induction positions as [|p ps IH]; simpl; [done|].
  destruct (index cands p) as [m|]; [|exact IH].
  by rewrite Hok, IH.
Qed.

Section Switch.

Variable mm : ModelManager.
Hypothesis idx_valid : 0 <= CurrentIdx mm < manager.len mm.

Lemma scan_position_value (i : Z) :
  1 <= i < manager.len mm ->
  (CurrentIdx mm + i) `mod` manager.len mm
  = if CurrentIdx mm + i <? manager.len mm then CurrentIdx mm + i
    else CurrentIdx mm + i - manager.len mm.
Proof using idx_valid.
  intros Hi. destruct (CurrentIdx mm + i <? manager.len mm) eqn:E.
  - apply Z.ltb_lt in E. apply Z.mod_small. lia.
  - apply Z.ltb_ge in E. symmetry.
    apply (Z.mod_unique _ _ 1); lia.
Qed.

(** The scan goes through all other candidates: *)
Lemma scan_positions_others (p : Z) :
  p ∈ spec.scan_positions mm <-> 0 <= p < manager.len mm /\ p <> CurrentIdx mm.
Proof using idx_valid.
  unfold spec.scan_positions. rewrite list_elem_of_fmap. split.
  - intros (i & -> & Hi). apply elem_of_seqZ in Hi.
    rewrite scan_position_value by lia.
    destruct (CurrentIdx mm + i <? manager.len mm) eqn:E;
      [apply Z.ltb_lt in E | apply Z.ltb_ge in E]; lia.
  - intros [Hp Hne].
    destruct (decide (CurrentIdx mm < p)) as [Hlt|Hge].
    + exists (p - CurrentIdx mm). split.
      * rewrite scan_position_value by lia.
        rewrite (proj2 (Z.ltb_lt _ _)) by lia. lia.
      * apply elem_of_seqZ. lia.
    + exists (p - CurrentIdx mm + manager.len mm). split.
      * rewrite scan_position_value by lia.
        rewrite (proj2 (Z.ltb_ge _ _)) by lia. lia.
      * apply elem_of_seqZ. lia.
Qed.

(** and through each of them once. *)
Lemma scan_positions_NoDup : NoDup (spec.scan_positions mm).
Proof using idx_valid.
  unfold spec.scan_positions. apply NoDup_fmap_2_strong; [|apply NoDup_seqZ].
  intros i j Hi Hj. apply elem_of_seqZ in Hi, Hj.
  rewrite !scan_position_value by lia.
  destruct (CurrentIdx mm + i <? manager.len mm) eqn:Ei;
    destruct (CurrentIdx mm + j <? manager.len mm) eqn:Ej;
    try apply Z.ltb_lt in Ei; try apply Z.ltb_ge in Ei;
    try apply Z.ltb_lt in Ej; try apply Z.ltb_ge in Ej; lia.
Qed.

Hypothesis len_small : manager.len mm <= 2 ^ 62.
Hypothesis Current_not_nil : Current mm <> None.

Lemma index_in_range (p : Z) :
  0 <= p < manager.len mm -> exists m, index (Candidates mm) p = Some m.
Proof.
  intros Hp. unfold index, manager.len in *.
  rewrite (proj2 (Z.leb_le _ _)), (proj2 (Z.ltb_lt _ _)) by lia. simpl.
  apply lookup_lt_is_Some. lia.
Qed.

Lemma scan_first_at (skip : ModelManager -> Model -> bool) (fuel : nat) (i : Z) :
  1 <= i -> manager.len mm - i <= Z.of_nat fuel ->
  manager.scan skip mm i fuel
  = match spec.first_at (fun m => negb (skip mm m)) (Candidates mm)
            (map (fun k => (CurrentIdx mm + k) `mod` manager.len mm)
                 (seqZ i (manager.len mm - i))) with
    | Some (p, m) => (manager.with_Current mm (Some m) p, Returned true)
    | None => (mm, Returned false)
    end.
Proof using idx_valid len_small Current_not_nil.
  revert i. induction fuel as [|fuel IH]; intros i Hi Hfuel; simpl.
  - rewrite seqZ_nil by lia. reflexivity.
  - destruct (i <? manager.len mm) eqn:Hlt.
    + apply Z.ltb_lt in Hlt.
      rewrite (seqZ_cons i) by lia. simpl.
      assert (Hrem : rem (wrap_int (CurrentIdx mm + i)) (manager.len mm)
                     = (CurrentIdx mm + i) `mod` manager.len mm).
      { unfold rem, wrap_int.
        replace ((CurrentIdx mm + i + 2 ^ 63) `mod` 2 ^ 64 - 2 ^ 63)
          with (CurrentIdx mm + i)
          by (rewrite Z.mod_small by lia; lia).
        apply Z.rem_mod_nonneg; lia. }
      rewrite Hrem.
      destruct (index_in_range ((CurrentIdx mm + i) `mod` manager.len mm)) as [m Hm].
      { apply Z.mod_pos_bound. lia. }
      rewrite Hm.
      replace (Z.pred (manager.len mm - i)) with (manager.len mm - (i + 1)) by lia.
      replace (Z.succ i) with (i + 1) by lia.
      destruct (skip mm m); simpl.
      * apply IH; lia.
      * destruct (Current mm); [reflexivity | done].
    + apply Z.ltb_ge in Hlt. rewrite seqZ_nil by lia. reflexivity.
Qed.

(** The method of the handlers is the switch procedure of the
    specification, on every manager with a valid index and a current
    model. *)
Lemma switchToNextModel_spec : manager.switchToNextModel mm = spec.switch mm.
Proof using idx_valid len_small Current_not_nil.
  unfold manager.switchToNextModel, spec.switch, spec.scan_positions.
  rewrite scan_first_at by (unfold manager.len; lia).
  apply (f_equal (fun hit : option (Z * Model) =>
                    match hit with
                    | Some (p, m) => (manager.with_Current mm (Some m) p, Returned true)
                    | None => (mm, Returned false)
                    end)).
  apply first_at_ext. intros m.
  unfold manager.skip_burned_or_failed, spec.healthy. apply negb_orb.
Qed.

End Switch.

(** What the first hit of a scan is: a position of the list whose
    candidate passes, every earlier position holding a candidate that
    does not. *)
Lemma first_at_Some (ok : Model -> bool) (cands : list Model) (positions : list Z)
    (p : Z) (m : Model) :
  spec.first_at ok cands positions = Some (p, m) ->
  exists before after,
    positions = before ++ p :: after /\
    index cands p = Some m /\ ok m = true /\
    forall q m', q ∈ before -> index cands q = Some m' -> ok m' = false.
Proof.
  induction positions as [|q qs IH]; simpl; [done|].
  destruct (index cands q) as [mq|] eqn:Hq.
  - destruct (ok mq) eqn:Hok.
    + intros [= <- <-]. exists [], qs. repeat split; try done.
      intros q' m' Hin. by apply elem_of_nil in Hin.
    + intros Hrest. destruct (IH Hrest) as (before & after & -> & Hidx & Hm & Hbefore).
      exists (q :: before), after. repeat split; try done.
      intros q' m' Hin Hq'. apply elem_of_cons in Hin as [-> | Hin].
      * rewrite Hq in Hq'. by injection Hq' as <-.
      * by eapply Hbefore.
  - intros Hrest. destruct (IH Hrest) as (before & after & -> & Hidx & Hm & Hbefore).
    exists (q :: before), after. repeat split; try done.
    intros q' m' Hin Hq'. apply elem_of_cons in Hin as [-> | Hin].
    * rewrite Hq in Hq'. discriminate Hq'.
    * by eapply Hbefore.
Qed.

Lemma first_at_None (ok : Model -> bool) (cands : list Model) (positions : list Z) :
  spec.first_at ok cands positions = None ->
  forall q m', q ∈ positions -> index cands q = Some m' -> ok m' = false.
Proof.
  induction positions as [|q qs IH]; simpl; intros Hnone q' m' Hin Hq'.
  - by apply elem_of_nil in Hin.
  - destruct (index cands q) as [mq|] eqn:Hq.
    + destruct (ok mq) eqn:Hok; [done|].
      apply elem_of_cons in Hin as [-> | Hin].
      * rewrite Hq in Hq'. by injection Hq' as <-.
      * by eapply IH.
    + apply elem_of_cons in Hin as [-> | Hin].
      * rewrite Hq in Hq'. discriminate Hq'.
      * by eapply IH.
Qed.

(** What the switch procedure reports, read off its definition: on
    success the new current model is the first healthy candidate in scan
    order, every candidate scanned before it being unhealthy; on failure
    no scanned candidate is healthy and the manager is unchanged. *)
Lemma switch_selects_first_healthy (mm : ModelManager) :
  (exists before p after m,
     spec.scan_positions mm = before ++ p :: after /\
     index (Candidates mm) p = Some m /\ spec.healthy mm m = true /\
     (forall q m', q ∈ before -> index (Candidates mm) q = Some m' ->
        spec.healthy mm m' = false) /\
     spec.switch mm = (manager.with_Current mm (Some m) p, Returned true)) \/
  ((forall q m', q ∈ spec.scan_positions mm -> index (Candidates mm) q = Some m' ->
      spec.healthy mm m' = false) /\
   spec.switch mm = (mm, Returned false)).
Proof.
  unfold spec.switch.
  destruct (spec.first_at _ _ _) as [[p m]|] eqn:Hfirst.
  - left. apply first_at_Some in Hfirst as (before & after & Hpos & Hidx & Hok & Hbefore).
    by exists before, p, after, m.
  - right. split; [|done]. by apply first_at_None.
Qed.

(** The handlers' method and the switch procedure on a sample manager
    whose next candidate is burned: both go on to the one after it. *)
Example switchToNextModel_sample :
  manager.switchToNextModel sample.mmBurnedNext = spec.switch sample.mmBurnedNext /\
  spec.scan_positions sample.mmBurnedNext = [1; 2] /\
  Current (fst (manager.switchToNextModel sample.mmBurnedNext)) = Some sample.modelC.
Proof.
  split; [|by vm_compute].
  apply switchToNextModel_spec; by vm_compute.
Qed.

(** C2 at the inputs on which it fails, and on which the method of the
    handlers does what the claim says. With [modelB] burned, a 429 on
    the current model makes [RecordModelFailure] switch to [modelB],
    where the switch procedure goes on to [modelC]; with three failures
    on [modelB], a timeout of the current model makes
    [RecordModelTimeout] switch to [modelB] likewise. *)
Theorem main_loops_miss_a_test :
  (let r := manager.RecordModelFailure sample.mmBurnedNext "a/alpha" 429 1 2 in
   snd r = Returned true /\ Current (fst r) = Some sample.modelB /\
   get_bool (Burned (fst r)) (ID sample.modelB) = true /\
   spec.healthy (fst r) sample.modelB = false /\
   r <> spec.switch (manager.count_failure sample.mmBurnedNext "a/alpha" 1) /\
   Current (fst (spec.switch (manager.count_failure sample.mmBurnedNext "a/alpha" 1)))
     = Some sample.modelC /\
   manager.recordFailure sample.mmBurnedNext "a/alpha" 429 1
     = spec.switch (manager.count_failure sample.mmBurnedNext "a/alpha" 1)) /\
  (let r := manager.RecordModelTimeout sample.mmFailedNext "a/alpha" in
   snd r = Returned true /\ Current (fst r) = Some sample.modelB /\
   get_int (Failures (fst r)) (ID sample.modelB) = 3 /\
   spec.healthy (fst r) sample.modelB = false /\
   r <> spec.switch (manager.count_timeout sample.mmFailedNext "a/alpha") /\
   Current (fst (spec.switch (manager.count_timeout sample.mmFailedNext "a/alpha")))
     = Some sample.modelC /\
   manager.recordTimeout sample.mmFailedNext "a/alpha"
     = spec.switch (manager.count_timeout sample.mmFailedNext "a/alpha")).
Proof.
  split; intros r; repeat split; by vm_compute.
Qed.

(** ** The Anthropic adapter *)

Lemma textParts_text_of_block (blocks : list adapter.json) :
  adapter.textParts blocks = omap spec.text_of_block blocks.
Proof.
  induction blocks as [|block rest IH]; simpl; [done|].
  destruct block as [ | b | f | s | elems | fields]; simpl; try exact IH.
  destruct (fields !! "type") as [[ | b | f | type | elems | fields']|]; simpl;
    try exact IH.
  destruct (String.eqb_spec type "text") as [-> | Hne].
  - rewrite decide_True by done.
    destruct (adapter.as_string (fields !! "text")); simpl; by rewrite IH.
  - rewrite decide_False by done. exact IH.
Qed.

Lemma convertMessage_object (msgMap : gmap string adapter.json) :
  adapter.convertMessage (adapter.JObject msgMap)
  = [ {| Role := spec.folded_role
                   (default EmptyString (adapter.as_string (msgMap !! "role")));
         Content := adapter.contentOf (msgMap !! "content") |} ].
Proof.
  unfold adapter.convertMessage, spec.folded_role. simpl.
  destruct (String.eqb_spec
              (default EmptyString (adapter.as_string (msgMap !! "role"))) "system")
    as [-> | Hne].
  - by rewrite decide_True.
  - by rewrite decide_False.
Qed.

Section Adapter.

Context `{Library}.
Variable cfg : Config.


End Adapter.


(** The second body, decoded: the system message is a user message,
    the image block is left out, the two texts are joined by a newline,
    and the defaults stand in for [max_tokens] and [temperature]. *)
Example blocksBody_decoded :
  adapter.ConvertAnthropicToOpenAI sample.blocksBody
  = Ok {| Req_Model := "claude-3";
          Messages := [ {| Role := "user"; Content := "be brief" |};
                        {| Role := "user";
                           Content := ("one" ++ adapter.newline ++ "two")%string |} ];
          Temperature := 0.7; MaxTokens := 4096; TopP := 0; Stream := false;
          FrequencyPenalty := 0; PresencePenalty := 0; Seed := None;
          Req_ResponseFormat := None |}.
Proof. by vm_compute. Qed.

(** C10. When [temperature] is absent or is not a number the decoded
    request has temperature 0.7, and when [max_tokens] is absent or is
    not a number it has [max_tokens] 4096. The request is decoded all the
    same: the only body the conversion turns down is one whose
    [messages] is not an array. *)
Theorem ConvertAnthropicToOpenAI_defaults (anthropicReq : gmap string adapter.json)
    (messages : list adapter.json) :
  anthropicReq !! "messages" = Some (adapter.JArray messages) ->
  exists req,
    adapter.ConvertAnthropicToOpenAI anthropicReq = Ok req /\
    (spec.is_number (anthropicReq !! "temperature") = false ->
       Temperature req = 0.7%float) /\
    (spec.is_number (anthropicReq !! "max_tokens") = false ->
       MaxTokens req = 4096).
Proof.
  intros Hmsgs. unfold adapter.ConvertAnthropicToOpenAI. rewrite Hmsgs. simpl.
  eexists. split; [reflexivity|]. simpl. split.
  - destruct (anthropicReq !! "temperature") as [[ | | | | | ]|]; simpl; done.
  - destruct (anthropicReq !! "max_tokens") as [[ | | | | | ]|]; simpl; done.
Qed.

Lemma ConvertAnthropicToOpenAI_defaults_witness :
  exists req,
    adapter.ConvertAnthropicToOpenAI sample.blocksBody = Ok req /\
    Temperature req = 0.7%float /\ MaxTokens req = 4096.
Proof.
  destruct (ConvertAnthropicToOpenAI_defaults sample.blocksBody _ ltac:(by vm_compute))
    as (req & Hreq & Htemp & Hmax).
  exists req. split; [exact Hreq|].
  split; [apply Htemp | apply Hmax]; by vm_compute.
Defined.

(** * Further properties *)

(** ** The failover procedure of the handlers *)

Lemma rem_wrap_in_range (idx i n : Z) :
  0 <= idx < n -> 0 <= i <= n -> n <= 2 ^ 62 ->
  rem (wrap_int (idx + i)) n = (idx + i) `mod` n.
Proof.
  intros Hidx Hi Hn. unfold rem, wrap_int.
  replace ((idx + i + 2 ^ 63) `mod` 2 ^ 64 - 2 ^ 63) with (idx + i)
    by (rewrite Z.mod_small by lia; lia).
  apply Z.rem_mod_nonneg; lia.
Qed.

(** What any of the three loops does on a well-formed manager: it
    returns, and either it has moved to a candidate at another index
    that its test does not skip, or it has changed nothing. *)
Lemma scan_well_formed (skip : ModelManager -> Model -> bool) (mm : ModelManager) :
  calls.well_formed mm ->
  (exists p m,
     manager.scan skip mm 1 (length (Candidates mm))
       = (manager.with_Current mm (Some m) p, Returned true) /\
     index (Candidates mm) p = Some m /\ skip mm m = false /\
     p <> CurrentIdx mm /\
     calls.well_formed (manager.with_Current mm (Some m) p)) \/
  (manager.scan skip mm 1 (length (Candidates mm)) = (mm, Returned false) /\
   forall q m', 0 <= q < manager.len mm -> q <> CurrentIdx mm ->
     index (Candidates mm) q = Some m' -> skip mm m' = true).
Proof.
  intros (Hidx & Hlen & c & Hcur & Hc).
  assert (Hnn : Current mm <> None) by (by rewrite Hcur).
  rewrite (scan_first_at mm Hidx Hlen Hnn skip) by (unfold manager.len; lia).
  fold (spec.scan_positions mm).
  destruct (spec.first_at _ _ _) as [[p m]|] eqn:Hfirst.
  - left. apply first_at_Some in Hfirst as (before & after & Hpos & Hp & Hok & _).
    exists p, m. apply negb_true_iff in Hok.
    assert (Hin : p ∈ spec.scan_positions mm).
    { rewrite Hpos. apply elem_of_app. right. apply elem_of_cons. by left. }
    apply (scan_positions_others mm Hidx) in Hin as [Hrange Hne].
    split; [done|]. split; [done|]. split; [done|]. split; [done|].
    unfold calls.well_formed, manager.len in *. simpl.
    split; [done|]. split; [done|]. by exists m.
  - right. split; [done|]. intros q m' Hq Hne Hm'.
    apply negb_false_iff.
    apply (first_at_None _ _ _ Hfirst q m'); [|done].
    by apply (scan_positions_others mm Hidx).
Qed.

(** X1. On a manager with a valid index and a current model,
    [switchToNextModel] of the handlers visits every other index once,
    starting after the current one and wrapping. It moves to the first
    candidate in that order that is neither burned nor has three
    failures, every candidate visited before it being burned or failed,
    and reports true; when every other candidate is burned or failed it
    changes nothing and reports false. It does not panic. *)
Theorem switchToNextModel_first_healthy (mm : ModelManager) :
  0 <= CurrentIdx mm < manager.len mm ->
  manager.len mm <= 2 ^ 62 ->
  Current mm <> None ->
  (forall p, p ∈ spec.scan_positions mm <->
             0 <= p < manager.len mm /\ p <> CurrentIdx mm) /\
  NoDup (spec.scan_positions mm) /\
  head (spec.scan_positions mm)
    = (if 1 <? manager.len mm
       then Some ((CurrentIdx mm + 1) `mod` manager.len mm) else None) /\
  ((exists before p after m,
      spec.scan_positions mm = before ++ p :: after /\
      index (Candidates mm) p = Some m /\
      spec.healthy mm m = true /\
      (forall q m', q ∈ before -> index (Candidates mm) q = Some m' ->
         spec.healthy mm m' = false) /\
      manager.switchToNextModel mm
        = (manager.with_Current mm (Some m) p, Returned true)) \/
   ((forall q m', 0 <= q < manager.len mm -> q <> CurrentIdx mm ->
       index (Candidates mm) q = Some m' -> spec.healthy mm m' = false) /\
    manager.switchToNextModel mm = (mm, Returned false))).
Proof.
  intros Hidx Hlen Hcur.
  split; [intros p; by apply scan_positions_others|].
  split; [by apply scan_positions_NoDup|].
  split.
  { unfold spec.scan_positions.
    destruct (1 <? manager.len mm) eqn:E.
    - apply Z.ltb_lt in E. rewrite (seqZ_cons 1) by lia. reflexivity.
    - apply Z.ltb_ge in E. rewrite seqZ_nil by lia. reflexivity. }
  rewrite (switchToNextModel_spec mm Hidx Hlen Hcur).
  destruct (switch_selects_first_healthy mm)
    as [(before & p & after & m & H1 & H2 & H3 & H4 & H5) | [Hnone Hsw]].
  - left. by exists before, p, after, m.
  - right. split; [|done]. intros q m' Hq Hne Hm'.
    apply (Hnone q m'); [|done]. by apply scan_positions_others.
Qed.

Lemma switchToNextModel_first_healthy_witness :
  NoDup (spec.scan_positions sample.mmBurnedNext) /\
  (forall p, p ∈ spec.scan_positions sample.mmBurnedNext <->
             0 <= p < manager.len sample.mmBurnedNext /\
             p <> CurrentIdx sample.mmBurnedNext) /\
  (snd (manager.switchToNextModel sample.mmBurnedNext) = Returned true \/
   manager.switchToNextModel sample.mmBurnedNext = (sample.mmBurnedNext, Returned false)).
Proof.
  pose proof (switchToNextModel_first_healthy sample.mmBurnedNext
                ltac:(by vm_compute) ltac:(by vm_compute) ltac:(by vm_compute))
    as (Hpos & Hnodup & _ & Hswitch).
  split; [exact Hnodup|]. split; [exact Hpos|].
  destruct Hswitch as [(before & p & after & m & _ & _ & _ & _ & ->) | [_ ->]];
    [by left | by right].
Defined.

Lemma count_timeout_well_formed (mm : ModelManager) (modelID : string) :
  calls.well_formed mm -> calls.well_formed (manager.count_timeout mm modelID).
Proof. unfold calls.well_formed, manager.len. by simpl. Qed.

Lemma count_failure_well_formed (mm : ModelManager) (modelID : string) (now : Time) :
  calls.well_formed mm -> calls.well_formed (manager.count_failure mm modelID now).
Proof. unfold calls.well_formed, manager.len. by simpl. Qed.

Lemma skip_burned_or_failed_false (mm : ModelManager) (m : Model) :
  manager.skip_burned_or_failed mm m = false <->
  get_bool (Burned mm) (ID m) = false /\ get_int (Failures mm) (ID m) < 3.
Proof.
  unfold manager.skip_burned_or_failed.
  rewrite orb_false_iff, Z.leb_gt. reflexivity.
Qed.

Lemma skip_burned_or_failed_true (mm : ModelManager) (m : Model) :
  manager.skip_burned_or_failed mm m = true <->
  get_bool (Burned mm) (ID m) = true \/ 3 <= get_int (Failures mm) (ID m).
Proof.
  unfold manager.skip_burned_or_failed.
  rewrite orb_true_iff, Z.leb_le. reflexivity.
Qed.

(** X2. [recordTimeout] of the handlers on a well-formed manager
    returns without a panic, burns the model and counts the timeout.
    When it reports a switch, the new current model sits at another
    index, is not the model that timed out, is not burned and has fewer
    than three failures. When it reports none, the current model stays,
    and every other candidate is burned or has three failures (with one
    candidate there is no other). The pool and the failure counts are
    not touched. *)
Theorem recordTimeout_switches_away (mm : ModelManager) (modelID : string) :
  calls.well_formed mm ->
  let r := manager.recordTimeout mm modelID in
  get_bool (Burned (fst r)) modelID = true /\
  get_int (Timeouts (fst r)) modelID = incr (get_int (Timeouts mm) modelID) /\
  Candidates (fst r) = Candidates mm /\
  Failures (fst r) = Failures mm /\
  ((snd r = Returned true /\
    exists m, Current (fst r) = Some m /\
              index (Candidates mm) (CurrentIdx (fst r)) = Some m /\
              CurrentIdx (fst r) <> CurrentIdx mm /\
              ID m <> modelID /\
              get_bool (Burned (fst r)) (ID m) = false /\
              get_int (Failures (fst r)) (ID m) < 3) \/
   (snd r = Returned false /\
    Current (fst r) = Current mm /\ CurrentIdx (fst r) = CurrentIdx mm /\
    forall q m', 0 <= q < manager.len mm -> q <> CurrentIdx mm ->
      index (Candidates mm) q = Some m' ->
      get_bool (Burned (fst r)) (ID m') = true \/
      3 <= get_int (Failures mm) (ID m'))).
Proof.
  intros Hwf r.
  pose proof (count_timeout_well_formed mm modelID Hwf) as Hwf1.
  set (mm1 := manager.count_timeout mm modelID) in *.
  assert (Hb : get_bool (Burned mm1) modelID = true).
  { unfold mm1, manager.count_timeout, get_bool; simpl. by rewrite lookup_insert_eq. }
  assert (Ht : get_int (Timeouts mm1) modelID = incr (get_int (Timeouts mm) modelID)).
  { unfold mm1, manager.count_timeout; simpl. apply get_int_insert. }
  unfold r, manager.recordTimeout, manager.switchToNextModel. fold mm1.
  destruct (1 <? manager.len mm1) eqn:Hlen.
  - destruct (scan_well_formed manager.skip_burned_or_failed mm1 Hwf1)
      as [(p & m & -> & Hp & Hskip & Hne & _) | [-> Hall]]; simpl.
    + apply skip_burned_or_failed_false in Hskip as [Hnb Hnf].
      do 4 (split; [done|]). left. split; [done|].
      exists m. repeat split; try done.
      intros E. rewrite E in Hnb. rewrite Hb in Hnb. discriminate Hnb.
    + do 4 (split; [done|]). right. do 3 (split; [done|]).
      intros q m' Hq Hne Hm'.
      by apply (skip_burned_or_failed_true mm1 m'), (Hall q m').
  - simpl. do 4 (split; [done|]). right. do 3 (split; [done|]).
    intros q m' Hq Hne Hm'. apply Z.ltb_ge in Hlen.
    destruct Hwf as (Hidx & _). unfold mm1, manager.len in *. simpl in Hlen. lia.
Qed.

Lemma recordTimeout_switches_away_witness :
  get_bool (Burned (fst (manager.recordTimeout sample.mmBurnedNext "a/alpha"))) "a/alpha"
  = true /\
  Candidates (fst (manager.recordTimeout sample.mmBurnedNext "a/alpha"))
  = Candidates sample.mmBurnedNext.
Proof.
  pose proof (recordTimeout_switches_away sample.mmBurnedNext "a/alpha") as T.
  cbv zeta in T. destruct T as (Hb & _ & Hc & _).
  - unfold calls.well_formed. split; [by vm_compute|]. split; [by vm_compute|].
    exists sample.modelA. by vm_compute.
  - by split.
Defined.

(** X3. [recordFailure] of the handlers on a well-formed manager
    returns without a panic. When it reports a switch, the new current
    model sits at another index, is not burned and has fewer than three
    failures, so it is not the failing model once that one has three.
    When it reports none, the current model stays. On a 429 or a status
    of 500 or more it does switch whenever some other candidate is
    neither burned nor has three failures. *)
Theorem recordFailure_switches_to_healthy (mm : ModelManager) (modelID : string)
    (statusCode : Z) (now : Time) :
  calls.well_formed mm ->
  let r := manager.recordFailure mm modelID statusCode now in
  Candidates (fst r) = Candidates mm /\
  Burned (fst r) = Burned mm /\
  ((snd r = Returned true /\
    exists m, Current (fst r) = Some m /\
              index (Candidates mm) (CurrentIdx (fst r)) = Some m /\
              CurrentIdx (fst r) <> CurrentIdx mm /\
              get_bool (Burned (fst r)) (ID m) = false /\
              get_int (Failures (fst r)) (ID m) < 3 /\
              (3 <= get_int (Failures (fst r)) modelID -> ID m <> modelID)) \/
   (snd r = Returned false /\
    Current (fst r) = Current mm /\ CurrentIdx (fst r) = CurrentIdx mm)) /\
  (statusCode = 429 \/ 500 <= statusCode ->
   (exists q m', 0 <= q < manager.len mm /\ q <> CurrentIdx mm /\
                 index (Candidates mm) q = Some m' /\
                 get_bool (Burned mm) (ID m') = false /\
                 get_int (Failures (fst r)) (ID m') < 3) ->
   snd r = Returned true).
Proof.
  intros Hwf r.
  pose proof (count_failure_well_formed mm modelID now Hwf) as Hwf1.
  set (mm1 := manager.count_failure mm modelID now) in *.
  assert (Hfr : Failures (fst r) = Failures mm1 /\ Candidates (fst r) = Candidates mm /\
                Burned (fst r) = Burned mm).
  { unfold r, manager.recordFailure, manager.switchToNextModel. fold mm1.
    destruct (_ && _); [|done].
    destruct (scan_frame manager.skip_burned_or_failed mm1 1 (length (Candidates mm1)))
      as (Hc & Hf & _ & _ & Hb).
    by rewrite Hc, Hf, Hb. }
  destruct Hfr as (Hf & Hc & Hb).
  split; [exact Hc|]. split; [exact Hb|].
  rewrite Hf. clear Hf Hc Hb.
  unfold r, manager.recordFailure, manager.switchToNextModel. fold mm1.
  destruct (scan_well_formed manager.skip_burned_or_failed mm1 Hwf1)
    as [(p & m & Hscan & Hp & Hskip & Hne & _) | [Hscan Hall]].
  - apply skip_burned_or_failed_false in Hskip as [Hnb Hnf].
    destruct (_ && _) eqn:Hdec; [rewrite Hscan|]; simpl.
    + split; [|done].
      left. split; [done|]. exists m.
      do 5 (split; [done|]).
      intros H3 E. rewrite E in Hnf.
      unfold mm1, manager.count_failure in Hnf. simpl in Hnf. lia.
    + split; [by right|]. intros Hcode _.
      apply andb_false_iff in Hdec as [Hdec | Hdec].
      * unfold manager.recordFailure_shouldSwitch in Hdec.
        rewrite !orb_false_iff, Z.eqb_neq, Z.leb_gt in Hdec. lia.
      * apply Z.ltb_ge in Hdec.
        apply index_Some_range in Hp. destruct Hwf as (Hidx & _).
        unfold mm1, manager.len in *. simpl in *. lia.
  - destruct (_ && _); [rewrite Hscan|]; simpl.
    + split; [by right|].
      intros _ (q & m' & Hq & Hqne & Hm' & Hnb & Hnf).
      specialize (Hall q m' Hq Hqne Hm').
      apply skip_burned_or_failed_true in Hall as [Hall | Hall].
      * simpl in Hall. rewrite Hnb in Hall. discriminate Hall.
      * unfold mm1, manager.count_failure in Hall. simpl in Hall. lia.
    + split; [by right|].
      intros Hcode (q & m' & Hq & Hqne & Hm' & Hnb & Hnf).
      specialize (Hall q m' Hq Hqne Hm').
      apply skip_burned_or_failed_true in Hall as [Hall | Hall].
      * simpl in Hall. rewrite Hnb in Hall. discriminate Hall.
      * unfold mm1, manager.count_failure in Hall. simpl in Hall. lia.
Qed.

Lemma sample_well_formed : calls.well_formed sample.mmBurnedNext.
Proof.
  unfold calls.well_formed. split; [by vm_compute|]. split; [by vm_compute|].
  exists sample.modelA. by vm_compute.
Qed.

Lemma recordFailure_switches_to_healthy_witness :
  snd (manager.recordFailure sample.mmBurnedNext "a/alpha" 429 7) = Returned true.
Proof.
  pose proof (recordFailure_switches_to_healthy sample.mmBurnedNext "a/alpha" 429 7
                sample_well_formed) as T.
  cbv zeta in T. destruct T as (_ & _ & _ & Hswitch).
  apply Hswitch; [by left|].
  exists 2, sample.modelC. split; [by vm_compute|]. by vm_compute.
Defined.

(** ** The manager after a successful start *)

Section Started.

Context `{Library}.
Variable cfg : Config.

Lemma initializeModelManager_well_formed (free : result (list Model)) (mm : ModelManager) :
  manager.initializeModelManager cfg free = Returned mm ->
  Candidates mm <> [] -> manager.len mm <= 2 ^ 62 ->
  calls.well_formed mm.
Proof.
  unfold manager.initializeModelManager.
  destruct (model.GetTopCandidates cfg free (NumCandidates cfg)) as [cands|err].
  - destruct (index cands _) as [m|] eqn:Hidx; [|done].
    intros [= <-] _ Hlen. unfold calls.well_formed, manager.len in *. simpl in *.
    split; [by eapply index_Some_range|]. split; [done|]. by exists m.
  - by intros [= <-].
Qed.

Lemma scan_step_well_formed (skip : ModelManager -> Model -> bool) (mm : ModelManager) :
  calls.well_formed mm ->
  let r := manager.scan skip mm 1 (length (Candidates mm)) in
  calls.is_panic (snd r) = false /\ calls.well_formed (fst r) /\
  Candidates (fst r) = Candidates mm.
Proof.
  intros Hwf r. unfold r.
  destruct (scan_well_formed skip mm Hwf) as [(p & m & -> & _ & _ & _ & Hwf') | [-> _]];
    by simpl.
Qed.

Lemma step_well_formed (mm : ModelManager) (c : manager.Call) :
  calls.well_formed mm ->
  calls.panics cfg mm c = false /\
  calls.well_formed (manager.step cfg mm c) /\
  Candidates (manager.step cfg mm c) = Candidates mm.
Proof.
  intros Hwf. destruct c as [m sc now | m | m sc now now' | m | free | ]; simpl.
  - unfold manager.recordFailure, manager.switchToNextModel.
    pose proof (count_failure_well_formed mm m now Hwf) as Hwf1.
    destruct (_ && _); [|by simpl].
    by apply (scan_step_well_formed manager.skip_burned_or_failed _ Hwf1).
  - unfold manager.recordTimeout, manager.switchToNextModel.
    pose proof (count_timeout_well_formed mm m Hwf) as Hwf1.
    destruct (1 <? _); [|by simpl].
    by apply (scan_step_well_formed manager.skip_burned_or_failed _ Hwf1).
  - unfold manager.RecordModelFailure.
    pose proof (count_failure_well_formed mm m now Hwf) as Hwf1.
    destruct (_ && _); [|by simpl].
    by apply (scan_step_well_formed manager.skip_failed _ Hwf1).
  - unfold manager.RecordModelTimeout.
    pose proof (count_timeout_well_formed mm m Hwf) as Hwf1.
    destruct (1 <? _); [|by simpl].
    by apply (scan_step_well_formed manager.skip_burned _ Hwf1).
  - unfold manager.candidatesHandler.
    destruct Hwf as (Hidx & Hlen & Hcur).
    destruct (length (Candidates mm) =? 0)%nat eqn:E.
    + apply Nat.eqb_eq in E. unfold manager.len in Hidx. lia.
    + by simpl.
  - unfold manager.modelSwitchHandler.
    destruct Hwf as (Hidx & Hlen & Hcur).
    destruct (length (Candidates mm) =? 0)%nat eqn:E.
    { apply Nat.eqb_eq in E. unfold manager.len in Hidx. lia. }
    rewrite (rem_wrap_in_range _ 1 _ Hidx) by lia.
    destruct (index_in_range mm
                ((CurrentIdx mm + 1) `mod` manager.len mm)) as [m Hm].
    { apply Z.mod_pos_bound. lia. }
    rewrite Hm. simpl. split; [done|]. split; [|done].
    unfold calls.well_formed, manager.len in *. simpl.
    split; [by eapply index_Some_range|]. split; [done|]. by exists m.
Qed.

(** X4. When the first ranking pass succeeds, the manager that
    [initializeModelManager] builds stays sound for good: whatever
    sequence of failures, timeouts, pool listings and manual switches
    follows, no call panics, the pool stays the one chosen at startup,
    the index stays valid and the current model is the candidate at the
    index. *)
Theorem started_manager_stays_sound (free : result (list Model)) (mm : ModelManager)
    (calls : list manager.Call) :
  manager.initializeModelManager cfg free = Returned mm ->
  Candidates mm <> [] ->
  manager.len mm <= 2 ^ 62 ->
  calls.run_panics cfg mm calls = false /\
  Candidates (manager.run cfg mm calls) = Candidates mm /\
  0 <= CurrentIdx (manager.run cfg mm calls) < manager.len mm /\
  (exists m, Current (manager.run cfg mm calls) = Some m /\
             index (Candidates mm) (CurrentIdx (manager.run cfg mm calls)) = Some m) /\
  spec.pointer_agrees (manager.run cfg mm calls).
Proof.
  intros Hinit Hne Hlen.
  pose proof (initializeModelManager_well_formed free mm Hinit Hne Hlen) as Hwf.
  clear Hinit Hne Hlen.
  assert (G : calls.run_panics cfg mm calls = false /\
              calls.well_formed (manager.run cfg mm calls) /\
              Candidates (manager.run cfg mm calls) = Candidates mm).
  { revert mm Hwf. induction calls as [|c rest IH]; intros mm Hwf; simpl; [done|].
    destruct (step_well_formed mm c Hwf) as (Hp & Hwf' & Hc).
    destruct (IH _ Hwf') as (Hp' & Hwf'' & Hc').
    rewrite Hp, Hp'. split; [done|]. split; [done|]. by rewrite Hc'. }
  destruct G as (Hp & (Hidx & _ & m & Hcur & Hm) & Hc).
  unfold manager.len in *. rewrite Hc in *.
  split; [done|]. split; [done|]. split; [done|].
  split; [by exists m|].
  intros _. by rewrite Hcur, Hc, Hm.
Qed.

End Started.

Lemma started_manager_stays_sound_witness :
  calls.run_panics (H := sample.smallLibrary) sample.cfg0
    {| Candidates := [sample.modelA; sample.modelC; sample.modelB];
       Current := Some sample.modelA; CurrentIdx := 0;
       Failures := ∅; LastFailure := ∅; Timeouts := ∅; Burned := ∅ |}
    [manager.CallRecordTimeout "a/alpha"; manager.CallModelSwitch;
     manager.CallRecordFailure "b/beta" 503 9; manager.CallCandidates (Err "down")]
  = false.
Proof.
  eapply (started_manager_stays_sound (H := sample.smallLibrary) sample.cfg0
            (Ok [sample.modelB; sample.modelA; sample.modelC])).
  - by vm_compute.
  - discriminate.
  - by vm_compute.
Defined.

(** ** The manual switch *)

Lemma modelSwitchHandler_valid (mm : ModelManager) :
  0 <= CurrentIdx mm < manager.len mm ->
  manager.len mm <= 2 ^ 62 ->
  exists m,
    index (Candidates mm) ((CurrentIdx mm + 1) `mod` manager.len mm) = Some m /\
    manager.modelSwitchHandler mm
    = (manager.with_Current mm (Some m) ((CurrentIdx mm + 1) `mod` manager.len mm),
       Returned manager.StatusOK).
Proof.
  intros Hidx Hlen. unfold manager.modelSwitchHandler.
  destruct (length (Candidates mm) =? 0)%nat eqn:E.
  { apply Nat.eqb_eq in E. unfold manager.len in Hidx. lia. }
  rewrite (rem_wrap_in_range _ 1 _ Hidx) by lia.
  destruct (index_in_range mm ((CurrentIdx mm + 1) `mod` manager.len mm)) as [m Hm].
  { apply Z.mod_pos_bound. lia. }
  exists m. by rewrite Hm.
Qed.

(** X5. [POST /model/switch] on a manager with a valid index never
    fails and looks at no counter: [k] switches in a row leave the index
    at [(CurrentIdx + k) mod len(Candidates)] with the current model set
    to the candidate there, burned or not, so the pointer agrees with
    the index from the first switch on, and as many switches as there
    are candidates lead back to the index they started from. The pool,
    the counters and the burned set are not touched. *)
Theorem modelSwitchHandler_cycles (mm : ModelManager) (k : nat) :
  0 <= CurrentIdx mm < manager.len mm ->
  manager.len mm <= 2 ^ 62 ->
  let mm' := calls.switch_times k mm in
  CurrentIdx mm' = (CurrentIdx mm + Z.of_nat k) `mod` manager.len mm /\
  ((0 < k)%nat -> Current mm' = index (Candidates mm) (CurrentIdx mm') /\
                  Current mm' <> None) /\
  Candidates mm' = Candidates mm /\ Failures mm' = Failures mm /\
  Timeouts mm' = Timeouts mm /\ Burned mm' = Burned mm /\
  CurrentIdx (calls.switch_times (length (Candidates mm)) mm) = CurrentIdx mm.
Proof.
  intros Hidx Hlen.
  assert (G : forall k mm0,
    0 <= CurrentIdx mm0 < manager.len mm0 -> manager.len mm0 <= 2 ^ 62 ->
    let mm' := calls.switch_times k mm0 in
    CurrentIdx mm' = (CurrentIdx mm0 + Z.of_nat k) `mod` manager.len mm0 /\
    ((0 < k)%nat -> Current mm' = index (Candidates mm0) (CurrentIdx mm') /\
                    Current mm' <> None) /\
    Candidates mm' = Candidates mm0 /\ Failures mm' = Failures mm0 /\
    Timeouts mm' = Timeouts mm0 /\ Burned mm' = Burned mm0).
  { clear. induction k as [|k IH]; intros mm0 Hidx Hlen; simpl.
    - rewrite Z.add_0_r, Z.mod_small by lia. split; [done|]. split; [lia|done].
    - destruct (modelSwitchHandler_valid mm0 Hidx Hlen) as (m & Hm & ->). simpl.
      set (mm1 := manager.with_Current mm0 (Some m)
                    ((CurrentIdx mm0 + 1) `mod` manager.len mm0)).
      assert (Hidx1 : 0 <= CurrentIdx mm1 < manager.len mm1).
      { unfold mm1, manager.len. simpl. apply Z.mod_pos_bound. unfold manager.len in *. lia. }
      assert (Hlen1 : manager.len mm1 <= 2 ^ 62) by (by unfold mm1, manager.len in *).
      destruct (IH mm1 Hidx1 Hlen1) as (Hi & Hcur & Hc & Hf & Ht & Hb).
      assert (Hl : manager.len mm1 = manager.len mm0) by (by unfold mm1, manager.len).
      split.
      { rewrite Hi, Hl. unfold mm1 at 1. simpl.
        rewrite Zplus_mod_idemp_l. f_equal. lia. }
      split.
      { intros _. destruct k as [|k'].
        - simpl. unfold mm1. simpl. by rewrite Hm.
        - destruct Hcur as (Hcur & Hnn); [lia|]. by split. }
      by rewrite Hc, Hf, Ht, Hb. }
  intros mm'.
  destruct (G k mm Hidx Hlen) as (Hi & Hcur & Hrest).
  split; [exact Hi|].
  split; [exact Hcur|].
  destruct Hrest as (Hc & Hf & Ht & Hb). do 4 (split; [done|]).
  destruct (G (length (Candidates mm)) mm Hidx Hlen) as (Hi' & _).
  rewrite Hi'. unfold manager.len.
  rewrite <- (Z.mul_1_l (Z.of_nat (length (Candidates mm)))) at 1.
  rewrite Z.mod_add by (unfold manager.len in Hidx; lia).
  apply Z.mod_small. by unfold manager.len in Hidx.
Qed.

Lemma modelSwitchHandler_cycles_witness :
  CurrentIdx (calls.switch_times 3 sample.mmBurnedNext) = CurrentIdx sample.mmBurnedNext /\
  Current (calls.switch_times 1 sample.mmBurnedNext) = Some sample.modelB.
Proof.
  pose proof (modelSwitchHandler_cycles sample.mmBurnedNext 1
                ltac:(by vm_compute) ltac:(by vm_compute)) as T.
  cbv zeta in T. destruct T as (Hi & Hcur & _ & _ & _ & _ & Hback).
  split; [exact Hback|].
  destruct Hcur as [Hcur _]; [lia|]. rewrite Hcur, Hi. by vm_compute.
Defined.

(** ** More on the ranking *)

Section RankingMore.

Context `{Library}.
Variable cfg : Config.

Lemma GetTopCandidates_Ok_inv (models : list Model) (n : Z) (top : list Model) :
  model.GetTopCandidates cfg (Ok models) n = Ok top ->
  model.filterModels cfg models <> [] /\
  top = take (Z.to_nat n) (map Score_Model (model.ranked cfg models)).
Proof.
  unfold model.GetTopCandidates.
  destruct (length models =? 0)%nat; [done|].
  destruct (length (model.filterModels cfg models) =? 0)%nat eqn:Hf; [done|].
  intros [= <-]. split.
  - intros E. rewrite E in Hf. discriminate Hf.
  - unfold model.ranked. by rewrite fmap_take.
Qed.

Lemma filterModels_sublist (models : list Model) :
  sublist (model.filterModels cfg models) models.
Proof.
  unfold model.filterModels. induction models as [|m models IH]; simpl; [constructor|].
  destruct (model.keeps cfg m); by constructor.
Qed.

Lemma filterModels_keeps (models : list Model) (m : Model) :
  m ∈ model.filterModels cfg models -> model.keeps cfg m = true.
Proof.
  unfold model.filterModels. rewrite list_elem_of_In, filter_In. by intros [_ ?].
Qed.

Lemma index_nil {A : Type} (i : Z) : index (@nil A) i = None.
Proof. unfold index. by destruct (_ && _). Qed.

(** X6. Every model that [GetTopCandidates] returns was in the
    catalog and meets the constraints: its parameter count reaches
    [MinParams] when that is positive, its popularity reaches
    [MinPopularity] when that is positive, so a model whose count is
    unknown (zero) is never returned under a positive threshold. No
    model is returned more often than the catalog has it, and no more
    than [n] models are returned. *)
Theorem GetTopCandidates_meets_constraints (models : list Model) (n : Z)
    (top : list Model) :
  model.GetTopCandidates cfg (Ok models) n = Ok top ->
  top ⊆+ models /\
  (length top <= Z.to_nat n)%nat /\
  forall m, m ∈ top ->
    m ∈ models /\
    (0 < MinParams cfg -> MinParams cfg <= Params m /\ 0 < Params m) /\
    (0 < MinPopularity cfg -> MinPopularity cfg <= Popularity m /\ 0 < Popularity m).
Proof.
  intros Htop. apply GetTopCandidates_Ok_inv in Htop as [_ ->].
  assert (Hsub : take (Z.to_nat n) (map Score_Model (model.ranked cfg models))
                 ⊆+ model.filterModels cfg models).
  { rewrite <- (ranked_Permutation cfg models).
    apply sublist_submseteq, sublist_take. }
  split; [|split].
  - rewrite Hsub. apply sublist_submseteq, filterModels_sublist.
  - rewrite length_take. lia.
  - intros m Hm.
    assert (Hin : m ∈ model.filterModels cfg models)
      by (by eapply elem_of_submseteq).
    split.
    + eapply elem_of_submseteq; [exact Hin|].
      apply sublist_submseteq, filterModels_sublist.
    + apply filterModels_keeps in Hin. unfold model.keeps in Hin.
      apply andb_true_iff in Hin as [Hp Hq].
      apply negb_true_iff, andb_false_iff in Hp, Hq.
      rewrite !Z.ltb_ge in Hp, Hq. split; intros Hpos; lia.
Qed.

(** X7. The lists of top candidates are nested: for [n <= n'] the
    answer for [n] is a prefix of the answer for [n']. When [n] is at
    least 1 the first candidate is the model [SelectBest] returns, the one
    whose id [GetBestModelID] gives to a handler that finds no current
    model. *)
Theorem top_candidates_nest (models : list Model) (n n' : Z) :
  model.filterModels cfg models <> [] ->
  n <= n' ->
  exists t t',
    model.GetTopCandidates cfg (Ok models) n = Ok t /\
    model.GetTopCandidates cfg (Ok models) n' = Ok t' /\
    t `prefix_of` t' /\
    (1 <= n ->
     exists best rest,
       t = best :: rest /\
       model.SelectBest cfg (Ok models) = Returned (Ok best) /\
       model.GetBestModelID cfg (Ok models) = Returned (Ok (ID best))).
Proof.
  intros Hf Hle.
  rewrite !(GetTopCandidates_unfold cfg models _ Hf).
  eexists. eexists. split; [reflexivity|]. split; [reflexivity|].
  split.
  - rewrite !fmap_take.
    replace (Z.to_nat n) with (Nat.min (Z.to_nat n) (Z.to_nat n')) by lia.
    rewrite <- take_take. apply prefix_take.
  - intros Hn.
    assert (Hl := ranked_length cfg models).
    unfold model.SelectBest, model.GetBestModelID, model.SelectBest.
    assert (Hm : models <> []) by (intros ->; by apply Hf).
    rewrite (length_zero_eqb_false _ Hm), (length_zero_eqb_false _ Hf).
    fold (model.ranked cfg models).
    destruct (model.ranked cfg models) as [|best rest] eqn:Hr.
    { simpl in Hl. destruct (model.filterModels cfg models); [done|discriminate Hl]. }
    destruct (Z.to_nat n) as [|k] eqn:Hk; [lia|].
    exists (Score_Model best), (map Score_Model (take k rest)).
    split; [reflexivity|]. unfold index. by simpl.
Qed.

(** X8. [GetTopCandidates] with [n] at most zero answers a catalog
    that has a model passing the filter with the empty list and no
    error; [initializeModelManager] then indexes that list and panics.
    This is the only way startup panics: it does exactly when
    [NumCandidates] is not positive and the catalog has a model that
    passes the filter, and it returns a manager otherwise. *)
Theorem initializeModelManager_panics_iff (free : result (list Model)) :
  ((exists msg, manager.initializeModelManager cfg free = Panicked msg) <->
   NumCandidates cfg <= 0 /\
   exists models, free = Ok models /\ model.filterModels cfg models <> []) /\
  (forall models, model.filterModels cfg models <> [] -> NumCandidates cfg <= 0 ->
     model.GetTopCandidates cfg (Ok models) (NumCandidates cfg) = Ok [] /\
     manager.initializeModelManager cfg (Ok models) = Panicked "index out of range") /\
  (0 < NumCandidates cfg ->
     exists mm, manager.initializeModelManager cfg free = Returned mm).
Proof.
  assert (Hzero : forall models, model.filterModels cfg models <> [] ->
            NumCandidates cfg <= 0 ->
            model.GetTopCandidates cfg (Ok models) (NumCandidates cfg) = Ok []).
  { intros models Hf Hn. rewrite (GetTopCandidates_unfold cfg models _ Hf).
    replace (Z.to_nat (NumCandidates cfg)) with 0%nat by lia. reflexivity. }
  assert (Hpos : 0 < NumCandidates cfg ->
            exists mm, manager.initializeModelManager cfg free = Returned mm).
  { intros Hn. unfold manager.initializeModelManager.
    destruct (model.GetTopCandidates cfg free (NumCandidates cfg)) as [cands|err] eqn:Htop;
      [|by eexists].
    destruct free as [models|e]; [|done].
    apply GetTopCandidates_Ok_inv in Htop as [Hf ->].
    assert (Hl := ranked_length cfg models).
    destruct (model.ranked cfg models) as [|best rest] eqn:Hr.
    { simpl in Hl. destruct (model.filterModels cfg models); [done|discriminate Hl]. }
    replace (Z.to_nat (NumCandidates cfg)) with (S (Z.to_nat (NumCandidates cfg) - 1))
      by lia.
    cbn [take fmap list_fmap map].
    set (cands := Score_Model best :: _).
    destruct ((0 <=? ModelIndex cfg) && (ModelIndex cfg <? Z.of_nat (length cands)))
      eqn:Hsel.
    - unfold index. rewrite Hsel.
      apply andb_true_iff in Hsel as [H1 H2].
      apply Z.leb_le in H1. apply Z.ltb_lt in H2.
      destruct (lookup_lt_is_Some_2 cands (Z.to_nat (ModelIndex cfg))) as [m Hm]; [lia|].
      rewrite Hm. by eexists.
    - by eexists. }
  split; [|split; [|exact Hpos]].
  - split.
    + intros [msg Hpanic].
      destruct (Z_lt_le_dec 0 (NumCandidates cfg)) as [Hn|Hn].
      { destruct (Hpos Hn) as [mm Hmm]. rewrite Hmm in Hpanic. discriminate Hpanic. }
      split; [exact Hn|].
      unfold manager.initializeModelManager in Hpanic.
      destruct (model.GetTopCandidates cfg free (NumCandidates cfg)) as [cands|err] eqn:Htop;
        [|discriminate Hpanic].
      destruct free as [models|e]; [|done].
      exists models. split; [done|].
      by apply GetTopCandidates_Ok_inv in Htop as [Hf _].
    + intros (Hn & models & -> & Hf).
      exists "index out of range". unfold manager.initializeModelManager.
      rewrite (Hzero models Hf Hn). by rewrite index_nil.
  - intros models Hf Hn. split; [by apply Hzero|].
    unfold manager.initializeModelManager.
    rewrite (Hzero models Hf Hn). by rewrite index_nil.
Qed.

End RankingMore.

Lemma GetTopCandidates_meets_constraints_witness :
  [sample.modelA; sample.modelB] ⊆+ [sample.modelB; sample.modelA] /\
  (length [sample.modelA; sample.modelB] <= Z.to_nat 10)%nat.
Proof.
  destruct (GetTopCandidates_meets_constraints (H := sample.smallLibrary) sample.cfg0
              [sample.modelB; sample.modelA] 10 [sample.modelA; sample.modelB]
              ltac:(by vm_compute)) as (Hsub & Hlen & _).
  by split.
Defined.

Lemma top_candidates_nest_witness :
  exists t t',
    model.GetTopCandidates (H := sample.smallLibrary) sample.cfg0
      (Ok [sample.modelB; sample.modelA]) 1 = Ok t /\
    model.GetTopCandidates (H := sample.smallLibrary) sample.cfg0
      (Ok [sample.modelB; sample.modelA]) 2 = Ok t' /\
    t `prefix_of` t' /\
    exists best rest,
      t = best :: rest /\
      model.SelectBest (H := sample.smallLibrary) sample.cfg0
        (Ok [sample.modelB; sample.modelA]) = Returned (Ok best).
Proof.
  destruct (top_candidates_nest (H := sample.smallLibrary) sample.cfg0
              [sample.modelB; sample.modelA] 1 2)
    as (t & t' & Ht & Ht' & Hpre & Hbest); [by vm_compute | lia |].
  exists t, t'. do 3 (split; [done|]).
  destruct Hbest as (best & rest & -> & Hbest & _); [lia|].
  by exists best, rest.
Defined.

Lemma initializeModelManager_panics_iff_witness :
  manager.initializeModelManager (H := sample.smallLibrary) samples.cfgZeroCandidates
    (Ok [sample.modelA]) = Panicked "index out of range" /\
  exists mm, manager.initializeModelManager (H := sample.smallLibrary) sample.cfg0
               (Ok [sample.modelA]) = Returned mm.
Proof.
  split.
  - destruct (initializeModelManager_panics_iff (H := sample.smallLibrary)
                samples.cfgZeroCandidates (Ok [sample.modelA])) as (_ & Hzero & _).
    apply Hzero; [by vm_compute | by vm_compute].
  - destruct (initializeModelManager_panics_iff (H := sample.smallLibrary)
                sample.cfg0 (Ok [sample.modelA])) as (_ & _ & Hpos).
    apply Hpos. by vm_compute.
Defined.

(** ** The client and its cache *)

Lemma fresh_with_cache (c : client.Client) (data : list Model) (ts t : Time) :
  client.Since t ts < client.cacheTTL c ->
  client.fresh
    (client.with_cache c (Some {| client.Models := data; client.Timestamp := ts |})) t
  = Some data.
Proof.
  intros Hlt. unfold client.fresh. simpl.
  by rewrite (proj2 (Z.ltb_lt _ _) Hlt).
Qed.

(** X9. After a call of [GetModels] that succeeds, from the network
    or from the cache, the client holds the catalog it answered, and
    every call made while less than the time to live has passed since
    the snapshot was stored gets the same catalog without the network
    being consulted, whatever the network would have answered, and
    leaves the client as it is; [GetFreeModels] then answers the free
    models of that catalog. A catalog that was just fetched is stored
    under the clock of the moment it is stored. *)
Theorem GetModels_then_cached (c c' : client.Client) (now now' : Time)
    (net : client.reply (list Model)) (data : list Model) :
  client.GetModels c now net now' = (c', client.ok data) ->
  client.cacheTTL c' = client.cacheTTL c /\
  exists cm,
    client.cache c' = Some cm /\ client.Models cm = data /\
    (client.fresh c now = None -> client.Timestamp cm = now') /\
    forall (t t' : Time) (net2 : client.reply (list Model)),
      client.Since t (client.Timestamp cm) < client.cacheTTL c ->
      client.GetModels c' t net2 t' = (c', client.ok data) /\
      client.GetFreeModels c' t net2 t'
        = (c', client.ok (List.filter client.isFreeModel data)).
Proof.
  unfold client.GetModels at 1.
  destruct (client.fresh c now) as [models|] eqn:Hfresh.
  - intros [= <- <-]. split; [done|].
    unfold client.fresh in Hfresh.
    destruct (client.cache c) as [cm|] eqn:Hcache; [|done].
    destruct (_ <? _) eqn:Hlt; [|done]. injection Hfresh as <-.
    exists cm. do 3 (split; [done|]).
    intros t t' net2 Ht.
    assert (G : client.GetModels c t net2 t' = (c, client.ok (client.Models cm))).
    { unfold client.GetModels, client.fresh. rewrite Hcache.
      by rewrite (proj2 (Z.ltb_lt _ _) Ht). }
    split; [exact G|]. unfold client.GetFreeModels. by rewrite G.
  - destruct net as [dl ut err | status body decoded]; [done|].
    destruct (negb _); [done|].
    destruct decoded as [data'|err]; [|done].
    intros [= <- <-]. split; [done|].
    eexists. split; [reflexivity|]. do 2 (split; [done|]). simpl.
    intros t t' net2 Ht.
    assert (G : client.GetModels
                  (client.with_cache c
                     (Some {| client.Models := data'; client.Timestamp := now' |}))
                  t net2 t'
                = (client.with_cache c
                     (Some {| client.Models := data'; client.Timestamp := now' |}),
                   client.ok data')).
    { unfold client.GetModels. by rewrite fresh_with_cache. }
    split; [exact G|]. unfold client.GetFreeModels. by rewrite G.
Qed.

Lemma GetModels_then_cached_witness :
  client.GetModels samples.warmClient 500 (client.DoFailed false false "no route") 501
  = (samples.warmClient, client.ok [samples.paidModel; sample.modelA]) /\
  client.GetFreeModels samples.warmClient 500 (client.DoFailed false false "no route") 501
  = (samples.warmClient, client.ok [sample.modelA]).
Proof.
  destruct (GetModels_then_cached samples.warmClient samples.warmClient 100 100
              (client.DoFailed false false "down") [samples.paidModel; sample.modelA]
              ltac:(by vm_compute))
    as (_ & cm & Hcm & _ & _ & Hlater).
  injection Hcm as <-.
  apply (Hlater 500 501 (client.DoFailed false false "no route")). by vm_compute.
Defined.

(** X10. [GetModels] fails exactly when the cache has no snapshot young
    enough and the network does not deliver a catalog; a snapshot that
    has expired is not served in place of the failure. The client is
    left unchanged, and the error tells why: a status other than 200
    comes back as an [HTTPError] with that status and the body, a
    transport failure and a body that does not decode come back as
    wrapped errors. *)
Theorem GetModels_failure (c : client.Client) (now now' : Time)
    (net : client.reply (list Model)) :
  ((exists e, snd (client.GetModels c now net now') = client.fail e) <->
   client.fresh c now = None /\
   forall body data, net <> client.Replied client.StatusOK body (Ok data)) /\
  (forall c' e, client.GetModels c now net now' = (c', client.fail e) ->
     c' = c /\
     match net with
     | client.DoFailed _ _ err =>
         e = client.errorString ("failed to fetch models: " ++ err)
     | client.Replied status body decoded =>
         (status <> 200 /\ e = client.HTTPError status body) \/
         (status = 200 /\ exists err,
            decoded = Err err /\
            e = client.errorString ("failed to decode response: " ++ err))
     end).
Proof.
  unfold client.GetModels, client.StatusOK.
  destruct (client.fresh c now) as [models|] eqn:Hfresh.
  { split; [|done]. split; [by intros [e ?] | by intros [? _]]. }
  destruct net as [dl ut err | status body decoded]; simpl.
  { split; [|by intros c' e [= <- <-]].
    split; [intros _; split; [done|]; intros; discriminate | by eexists]. }
  destruct (Z.eqb_spec status 200) as [-> | Hne]; simpl.
  - destruct decoded as [data|err]; simpl.
    + split; [|done]. split; [by intros [e ?]|].
      intros [_ Hno]. by destruct (Hno body data).
    + split.
      * split; [intros _; split; [done|]; intros; discriminate | by eexists].
      * intros c' e [= <- <-]. split; [done|]. right. split; [done|]. by eexists.
  - split.
    + split; [|by eexists]. intros _. split; [done|].
      intros b d [= -> _ _]. done.
    + intros c' e [= <- <-]. split; [done|]. by left.
Qed.

(** X11. A client whose time to live is zero or negative never
    answers from its cache: as long as the clock has not gone back behind
    the snapshot, every call of [GetModels] answers what the network
    answers, as if the cache had just been invalidated. [NewClient] makes
    such a client from a [cache-ttl] of zero seconds or less. *)
Theorem no_cache_without_ttl (c : client.Client) (now now' : Time)
    (net : client.reply (list Model)) :
  client.cacheTTL c <= 0 ->
  (forall cm, client.cache c = Some cm -> client.Timestamp cm <= now) ->
  client.fresh c now = None /\
  snd (client.GetModels c now net now')
  = snd (client.GetModels (client.InvalidateCache c) now net now') /\
  (forall key ttl, - 2 ^ 33 <= ttl <= 0 ->
     client.cacheTTL (client.NewClient key ttl) <= 0 /\
     client.cache (client.NewClient key ttl) = None).
Proof.
  intros Httl Hclock.
  assert (Hfresh : client.fresh c now = None).
  { unfold client.fresh. destruct (client.cache c) as [cm|] eqn:Hcache; [|done].
    specialize (Hclock cm eq_refl).
    assert (0 <= client.Since now (client.Timestamp cm)).
    { unfold client.Since, int_min, int_max. lia. }
    by rewrite (proj2 (Z.ltb_ge _ _)) by lia. }
  split; [exact Hfresh|]. split.
  - unfold client.GetModels. rewrite Hfresh.
    change (client.fresh (client.InvalidateCache c) now) with (@None (list Model)).
    destruct net as [dl ut err | status body decoded]; [done|].
    destruct (negb _); [done|]. by destruct decoded.
  - intros key ttl Hrange. split; [|done]. simpl.
    unfold wrap_int, client.Second. rewrite Z.mod_small by lia. lia.
Qed.

Lemma no_cache_without_ttl_witness :
  client.fresh
    (client.with_cache (client.NewClient "key" 0)
       (Some {| client.Models := [sample.modelA]; client.Timestamp := 100 |})) 100
  = None.
Proof.
  apply (no_cache_without_ttl _ 100 100 (client.DoFailed false false "down")).
  - by vm_compute.
  - intros cm [= <-]. by vm_compute.
Defined.

Lemma GetModels_ok_cached (c c' : client.Client) (now now' : Time)
    (net : client.reply (list Model)) (data : list Model) :
  client.GetModels c now net now' = (c', client.ok data) ->
  exists cm, client.cache c' = Some cm /\ client.Models cm = data.
Proof.
  unfold client.GetModels, client.fresh.
  destruct (client.cache c) as [cm|] eqn:Hcache.
  - destruct (_ <? _).
    + intros [= <- <-]. by exists cm.
    + destruct net as [dl ut err | status body decoded]; [done|].
      destruct (negb _); [done|]. destruct decoded; [|done].
      intros [= <- <-]. by eexists.
  - destruct net as [dl ut err | status body decoded]; [done|].
    destruct (negb _); [done|]. destruct decoded; [|done].
    intros [= <- <-]. by eexists.
Qed.

Lemma isFreeModel_spec (m : Model) :
  client.isFreeModel m = true <->
  Prompt (Model_Pricing m) = "0" /\ Completion (Model_Pricing m) = "0".
Proof.
  unfold client.isFreeModel. rewrite andb_true_iff, !String.eqb_eq. reflexivity.
Qed.

(** X12. [GetFreeModels] answers the models of the catalog whose
    prompt price and completion price are both the text "0", in the
    order of the catalog, and no others; the cache keeps the whole
    catalog, paid models included. An error of [GetModels] is passed on
    as it is. *)
Theorem GetFreeModels_spec (c : client.Client) (now now' : Time)
    (net : client.reply (list Model)) :
  fst (client.GetFreeModels c now net now') = fst (client.GetModels c now net now') /\
  (forall e, snd (client.GetModels c now net now') = client.fail e ->
     snd (client.GetFreeModels c now net now') = client.fail e) /\
  (forall data, snd (client.GetModels c now net now') = client.ok data ->
     exists free,
       snd (client.GetFreeModels c now net now') = client.ok free /\
       sublist free data /\
       (forall m, m ∈ free <->
          m ∈ data /\ Prompt (Model_Pricing m) = "0" /\
          Completion (Model_Pricing m) = "0") /\
       exists cm, client.cache (fst (client.GetFreeModels c now net now')) = Some cm /\
                  client.Models cm = data).
Proof.
  unfold client.GetFreeModels.
  destruct (client.GetModels c now net now') as [c' [data|e]] eqn:Hget; simpl.
  - split; [done|]. split; [done|]. intros data' [= <-].
    eexists. split; [reflexivity|]. split; [|split].
    + induction data as [|m data IH] in |- *; simpl; [constructor|].
      destruct (client.isFreeModel m); by constructor.
    + intros m. rewrite !list_elem_of_In, filter_In, isFreeModel_spec. reflexivity.
    + by apply (GetModels_ok_cached c c' now now' net).
  - split; [done|]. split; [by intros e' [= <-]|]. done.
Qed.

Lemma GetModels_failure_witness :
  fst (client.GetModels samples.warmClient 999000000000
         (client.Replied 503 "busy" (Err "not JSON")) 999000000001)
  = samples.warmClient.
Proof.
  destruct (GetModels_failure samples.warmClient 999000000000 999000000001
              (client.Replied 503 "busy" (Err "not JSON"))) as [_ Hfail].
  exact (proj1 (Hfail (fst (client.GetModels samples.warmClient 999000000000
                              (client.Replied 503 "busy" (Err "not JSON"))
                              999000000001))
                  (client.HTTPError 503 "busy") ltac:(by vm_compute))).
Defined.

Lemma GetFreeModels_spec_witness :
  exists free,
    snd (client.GetFreeModels samples.warmClient 200
           (client.DoFailed false false "down") 201) = client.ok free /\
    sublist free [samples.paidModel; sample.modelA].
Proof.
  destruct (GetFreeModels_spec samples.warmClient 200 201
              (client.DoFailed false false "down")) as (_ & _ & Hok).
  destruct (Hok [samples.paidModel; sample.modelA] ltac:(by vm_compute))
    as (free & Hfree & Hsub & _).
  by exists free.
Defined.

(** ** From the reply of the upstream to the manager *)

Section Classification.

Context {fmt : client.Fmt}.

(** X13. [ChatCompletion] sorts what the upstream does into the
    three kinds the loop of the handlers tells apart, and the status of
    a refused request reaches the manager unchanged. A response with a
    status other than 200, 201 and 204 included, is an [HTTPError] with
    that status and the body, from which [tryParseAPIError] reads the
    same status without looking at the text. A failed [Do] with the
    deadline exceeded or a timeout reported is a [TimeoutError] of ten
    seconds. The call succeeds exactly when the request marshals and a
    response with status 200 decodes. *)
Theorem upstream_status_reaches_manager (marshal : option string)
    (net : client.reply wire.ChatResponse) :
  (forall status body decoded, status <> 200 ->
     client.ChatCompletion (A := wire.ChatResponse) None
         (client.Replied status body decoded)
       = client.fail (client.HTTPError status body) /\
     handlers.tryParseAPIError (client.HTTPError status body)
       = Some {| wire.Err_Code := status;
                 wire.Err_Message :=
                   ("API returned status " ++ client.Sprint_d status ++ ": " ++ body)%string;
                 wire.Err_Type := EmptyString |}) /\
  (forall resp, client.ChatCompletion marshal net = client.ok resp <->
     marshal = None /\ exists body, net = client.Replied 200 body (Ok resp)) /\
  (forall e, client.ChatCompletion marshal net = client.fail e ->
     (client.isTimeout e = true <->
      marshal = None /\
      exists dl ut err, net = client.DoFailed dl ut err /\ (dl = true \/ ut = true)) /\
     (client.isTimeout e = true -> e = client.TimeoutError (10 * client.Second)) /\
     (forall status, client.StatusCode e = Some status <->
        marshal = None /\ status <> 200 /\
        exists body decoded, net = client.Replied status body decoded /\
                             e = client.HTTPError status body)).
Proof.
  unfold client.ChatCompletion, client.ChatCompletionWithTimeout, client.StatusOK.
  split; [|split].
  - intros status body decoded Hne.
    rewrite (proj2 (Z.eqb_neq _ _) Hne). by simpl.
  - intros resp. split.
    + destruct marshal as [err|]; [done|].
      destruct net as [dl ut err | status body decoded].
      { by destruct dl, ut. }
      destruct (Z.eqb_spec status 200) as [-> | Hne]; simpl; [|done].
      destruct decoded as [r|err]; [|done].
      intros [= ->]. split; [done|]. by exists body.
    + intros (-> & body & ->). reflexivity.
  - intros e. destruct marshal as [merr|].
    { intros [= <-]. simpl. split; [|split].
      - split; [done | by intros [? _]].
      - done.
      - intros status. split; [done | by intros [? _]]. }
    destruct net as [dl ut err | status body decoded].
    + destruct dl; [|destruct ut]; intros [= <-]; simpl.
      * split; [|split; [done|]].
        -- split; [|done]. intros _. split; [done|]. exists true, ut, err. by split; [|left].
        -- intros status. split; [done|]. by intros (_ & _ & ? & ? & ? & _).
      * split; [|split; [done|]].
        -- split; [|done]. intros _. split; [done|]. exists false, true, err.
           by split; [|right].
        -- intros status. split; [done|]. by intros (_ & _ & ? & ? & ? & _).
      * split; [|split; [done|]].
        -- split; [done|]. intros (_ & dl' & ut' & err' & [= <- <- _] & [? | ?]); done.
        -- intros status. split; [done|]. by intros (_ & _ & ? & ? & ? & _).
    + destruct (Z.eqb_spec status 200) as [-> | Hne]; simpl.
      * destruct decoded as [r|err]; [done|]. intros [= <-]. simpl.
        split; [|split; [done|]].
        -- split; [done|]. by intros (_ & ? & ? & ? & ? & _).
        -- intros st. split; [done|]. by intros (_ & _ & ? & ? & _ & ?).
      * intros [= <-]. simpl. split; [|split; [done|]].
        -- split; [done|]. by intros (_ & ? & ? & ? & ? & _).
        -- intros st. split.
           ++ intros [= <-]. split; [done|]. split; [done|]. by exists body, decoded.
           ++ by intros (_ & _ & ? & ? & _ & [= <- _]).
Qed.

End Classification.

Lemma upstream_status_reaches_manager_witness :
  client.ChatCompletion (A := wire.ChatResponse) None
    (client.Replied 429 "slow down" (Err "not asked"))
  = client.fail (client.HTTPError 429 "slow down") /\
  wire.Err_Code <$> handlers.tryParseAPIError (H0 := samples.sampleFmt)
                      (client.HTTPError 429 "slow down") = Some 429.
Proof.
  destruct (upstream_status_reaches_manager (fmt := samples.sampleFmt) None
              (client.Replied 429 "slow down" (Err "not asked"))) as (Hstatus & _).
  destruct (Hstatus 429 "slow down" (Err "not asked") ltac:(lia)) as [Hfail Hparse].
  split; [exact Hfail|]. by rewrite Hparse.
Defined.

(** ** The request loop of the handlers *)

(** What recording a timeout or a failure leaves of a well-formed
    manager: it returns, the manager stays well formed with the same
    pool, nothing burned is forgotten, and the current index has moved
    exactly when a switch is reported. *)
Lemma recordTimeout_advance (mm : ModelManager) (modelID : string) :
  calls.well_formed mm ->
  exists mm' b,
    manager.recordTimeout mm modelID = (mm', Returned b) /\
    calls.well_formed mm' /\ Candidates mm' = Candidates mm /\
    get_bool (Burned mm') modelID = true /\
    (forall x, get_bool (Burned mm) x = true -> get_bool (Burned mm') x = true) /\
    (if b then CurrentIdx mm' <> CurrentIdx mm /\
               exists m, Current mm' = Some m /\ get_bool (Burned mm') (ID m) = false
     else Current mm' = Current mm /\ CurrentIdx mm' = CurrentIdx mm).
Proof.
  intros Hwf.
  pose proof (count_timeout_well_formed mm modelID Hwf) as Hwf1.
  set (mm1 := manager.count_timeout mm modelID) in *.
  assert (Hb : get_bool (Burned mm1) modelID = true).
  { unfold mm1, manager.count_timeout, get_bool; simpl. by rewrite lookup_insert_eq. }
  assert (Hmono : forall x, get_bool (Burned mm) x = true -> get_bool (Burned mm1) x = true).
  { intros x Hx. unfold mm1, manager.count_timeout, get_bool in *; simpl.
    destruct (decide (modelID = x)) as [-> | Hne].
    - by rewrite lookup_insert_eq.
    - by rewrite lookup_insert_ne. }
  unfold manager.recordTimeout, manager.switchToNextModel. fold mm1.
  destruct (1 <? manager.len mm1).
  - destruct (scan_well_formed manager.skip_burned_or_failed mm1 Hwf1)
      as [(p & m & -> & Hp & Hskip & Hne & Hwf') | [-> Hall]].
    + apply skip_burned_or_failed_false in Hskip as [Hnb _].
      exists (manager.with_Current mm1 (Some m) p), true. simpl.
      split_and!; try done. by exists m.
    + exists mm1, false. by simpl.
  - exists mm1, false. by simpl.
Qed.

Lemma recordFailure_advance (mm : ModelManager) (modelID : string) (statusCode : Z)
    (now : Time) :
  calls.well_formed mm ->
  exists mm' b,
    manager.recordFailure mm modelID statusCode now = (mm', Returned b) /\
    calls.well_formed mm' /\ Candidates mm' = Candidates mm /\
    Burned mm' = Burned mm /\
    (if b then CurrentIdx mm' <> CurrentIdx mm /\
               exists m, Current mm' = Some m /\ get_bool (Burned mm') (ID m) = false
     else Current mm' = Current mm /\ CurrentIdx mm' = CurrentIdx mm).
Proof.
  intros Hwf.
  pose proof (count_failure_well_formed mm modelID now Hwf) as Hwf1.
  set (mm1 := manager.count_failure mm modelID now) in *.
  unfold manager.recordFailure, manager.switchToNextModel. fold mm1.
  destruct (_ && _).
  - destruct (scan_well_formed manager.skip_burned_or_failed mm1 Hwf1)
      as [(p & m & -> & Hp & Hskip & Hne & Hwf') | [-> Hall]].
    + apply skip_burned_or_failed_false in Hskip as [Hnb _].
      exists (manager.with_Current mm1 (Some m) p), true. simpl.
      split_and!; try done. by exists m.
    + exists mm1, false. by simpl.
  - exists mm1, false. by simpl.
Qed.

(** Candidates at two indices of a pool without repeated ids have
    different ids. *)
Lemma index_ID_differ (cands : list Model) (p q : Z) (m m' : Model) :
  NoDup (map ID cands) ->
  index cands p = Some m -> index cands q = Some m' -> p <> q -> ID m <> ID m'.
Proof.
  intros Hnd Hp Hq Hne E.
  pose proof (index_Some_range _ _ _ Hp) as Rp.
  pose proof (index_Some_range _ _ _ Hq) as Rq.
  unfold index in Hp, Hq.
  destruct (_ && _) in Hp; [|done]. destruct (_ && _) in Hq; [|done].
  assert (Z.to_nat p = Z.to_nat q); [|lia].
  apply (NoDup_lookup (map ID cands) _ _ (ID m)); [done| |].
  - by rewrite list_lookup_fmap, Hp.
  - by rewrite list_lookup_fmap, Hq, E.
Qed.

Lemma index_elem_of {A : Type} (s : list A) (i : Z) (x : A) :
  index s i = Some x -> x ∈ s.
Proof.
  unfold index. destruct (_ && _); [|done]. apply list_elem_of_lookup_2.
Qed.

Section Loop.

Context {lib : Library} {fmt : client.Fmt}.
Variable prepare : ModelManager -> result (list Model) -> outcome (result ChatRequest).
Variable succeed : ChatRequest -> wire.ChatResponse -> handlers.Response.
Variable writeError : Z -> string -> handlers.Response.
Variable upstream : nat -> handlers.Attempt.

(** The message of the response that ends a request without success. *)
Lemma giveUp_message (e : client.error) :
  ("chat completion failed after " ++ client.Sprint_d handlers.maxRetries
   ++ " attempts: " ++ client.Error e)%string
  = ("chat completion failed after 3 attempts: " ++ client.Error e)%string.
Proof. reflexivity. Qed.

Lemma retry_unfold (left attempt : nat) (mm : ModelManager) (sent : list ChatRequest) :
  handlers.retry prepare succeed writeError upstream left attempt mm sent
  = match prepare mm (handlers.free (upstream attempt)) with
    | Panicked msg => (mm, sent, Panicked msg)
    | Returned (Err err) =>
        (mm, sent, Returned (writeError handlers.StatusBadRequest err))
    | Returned (Ok req) =>
        match handlers.answer upstream attempt with
        | client.ok resp => (mm, sent ++ [req], Returned (succeed req resp))
        | client.fail lastErr =>
            let giveUp (mm : ModelManager) :=
              (mm, sent ++ [req],
               Returned (writeError handlers.StatusInternalServerError
                           ("chat completion failed after 3 attempts: "
                            ++ client.Error lastErr)%string)) in
            let continue (mm : ModelManager) :=
              match left with
              | O => giveUp mm
              | S left' =>
                  handlers.retry prepare succeed writeError upstream left' (S attempt) mm
                    (sent ++ [req])
              end in
            let afterTimeout (mm : ModelManager) :=
              match handlers.tryParseAPIError lastErr with
              | Some apiErr =>
                  match manager.recordFailure mm (Req_Model req) (wire.Err_Code apiErr)
                          (handlers.now (upstream attempt)) with
                  | (mm, Returned true) => continue mm
                  | (mm, Returned false) => giveUp mm
                  | (mm, Panicked msg) => (mm, sent ++ [req], Panicked msg)
                  end
              | None => giveUp mm
              end in
            if client.isTimeout lastErr then
              match manager.recordTimeout mm (Req_Model req) with
              | (mm, Returned true) => continue mm
              | (mm, Returned false) => afterTimeout mm
              | (mm, Panicked msg) => (mm, sent ++ [req], Panicked msg)
              end
            else afterTimeout mm
        end
    end.
Proof. destruct left; reflexivity. Qed.

Variable base : ChatRequest.

(** Both handlers make the request of an attempt from one request that
    does not change, with the id of the current model put in. *)
Hypothesis prepare_current : forall mm free c,
  Current mm = Some c ->
  prepare mm free = Returned (Ok (adapter.with_Model base (ID c))).

(** One attempt on a well-formed manager: it succeeds, or it ends the
    request with the error, or it has moved to another candidate, which
    is not burned, and goes on. *)
Lemma retry_step (left attempt : nat) (mm : ModelManager) (sent : list ChatRequest)
    (c : Model) :
  calls.well_formed mm -> Current mm = Some c ->
  let req := adapter.with_Model base (ID c) in
  let run := handlers.retry prepare succeed writeError upstream left attempt mm sent in
  (exists resp, handlers.answer upstream attempt = client.ok resp /\
                run = (mm, sent ++ [req], Returned (succeed req resp))) \/
  (exists e mm1,
     handlers.answer upstream attempt = client.fail e /\
     calls.well_formed mm1 /\ Candidates mm1 = Candidates mm /\
     (forall x, get_bool (Burned mm) x = true -> get_bool (Burned mm1) x = true) /\
     (client.isTimeout e = true -> get_bool (Burned mm1) (ID c) = true) /\
     let giveUp :=
       (mm1, sent ++ [req],
        Returned (writeError handlers.StatusInternalServerError
                    ("chat completion failed after 3 attempts: " ++ client.Error e)%string)) in
     (run = giveUp \/
      (CurrentIdx mm1 <> CurrentIdx mm /\
       (exists m, Current mm1 = Some m /\ get_bool (Burned mm1) (ID m) = false) /\
       run = match left with
             | O => giveUp
             | S left' =>
                 handlers.retry prepare succeed writeError upstream left' (S attempt) mm1
                   (sent ++ [req])
             end))).
Proof using prepare_current.
  intros Hwf Hcur req run. unfold run. rewrite retry_unfold.
  rewrite (prepare_current mm _ c Hcur). fold req.
  destruct (handlers.answer upstream attempt) as [resp | e].
  { left. by exists resp. }
  right. cbv zeta.
  assert (Hafter : forall mm0, calls.well_formed mm0 -> Candidates mm0 = Candidates mm ->
            (forall x, get_bool (Burned mm) x = true -> get_bool (Burned mm0) x = true) ->
            (client.isTimeout e = true -> get_bool (Burned mm0) (ID c) = true) ->
            CurrentIdx mm0 = CurrentIdx mm ->
            exists mm1,
              calls.well_formed mm1 /\ Candidates mm1 = Candidates mm /\
              (forall x, get_bool (Burned mm) x = true -> get_bool (Burned mm1) x = true) /\
              (client.isTimeout e = true -> get_bool (Burned mm1) (ID c) = true) /\
              let giveUp :=
                (mm1, sent ++ [req],
                 Returned (writeError handlers.StatusInternalServerError
                             ("chat completion failed after 3 attempts: "
                              ++ client.Error e)%string)) in
              let out :=
                match handlers.tryParseAPIError e with
                | Some apiErr =>
                    match manager.recordFailure mm0 (Req_Model req) (wire.Err_Code apiErr)
                            (handlers.now (upstream attempt)) with
                    | (mm, Returned true) =>
                        match left with
                        | O => (mm, sent ++ [req],
                                Returned (writeError handlers.StatusInternalServerError
                                  ("chat completion failed after 3 attempts: "
                                   ++ client.Error e)%string))
                        | S left' =>
                            handlers.retry prepare succeed writeError upstream left'
                              (S attempt) mm (sent ++ [req])
                        end
                    | (mm, Returned false) =>
                        (mm, sent ++ [req],
                         Returned (writeError handlers.StatusInternalServerError
                           ("chat completion failed after 3 attempts: "
                            ++ client.Error e)%string))
                    | (mm, Panicked msg) => (mm, sent ++ [req], Panicked msg)
                    end
                | None =>
                    (mm0, sent ++ [req],
                     Returned (writeError handlers.StatusInternalServerError
                       ("chat completion failed after 3 attempts: "
                        ++ client.Error e)%string))
                end in
              (out = giveUp \/
               (CurrentIdx mm1 <> CurrentIdx mm /\
                (exists m, Current mm1 = Some m /\ get_bool (Burned mm1) (ID m) = false) /\
                out = match left with
                      | O => giveUp
                      | S left' =>
                          handlers.retry prepare succeed writeError upstream left'
                            (S attempt) mm1 (sent ++ [req])
                      end))).
  { intros mm0 Hwf0 Hc0 Hb0 Ht0 Hi0. cbv zeta.
    destruct (handlers.tryParseAPIError e) as [apiErr|].
    - destruct (recordFailure_advance mm0 (Req_Model req) (wire.Err_Code apiErr)
                  (handlers.now (upstream attempt)) Hwf0)
        as (mm1 & b & -> & Hwf1 & Hc1 & Hb1 & Hmove).
      exists mm1. split; [done|]. split; [congruence|].
      split; [by rewrite Hb1|]. split; [by rewrite Hb1|].
      destruct b.
      + right. destruct Hmove as [Hne Hm]. split; [congruence|]. by split.
      + by left.
    - exists mm0. split_and!; try done. by left. }
  destruct (client.isTimeout e) eqn:Htimeout.
  - destruct (recordTimeout_advance mm (Req_Model req) Hwf)
      as (mm0 & b & -> & Hwf0 & Hc0 & Hburn & Hb0 & Hmove).
    destruct b.
    + exists e, mm0. destruct Hmove as [Hne Hm].
      do 5 (split; [done|]). by right.
    + destruct Hmove as [_ Hsame].
      destruct (Hafter mm0 Hwf0 Hc0 Hb0 (fun _ => Hburn) Hsame) as (mm1 & H1 & H2 & H3 & H4 & H5).
      exists e, mm1. do 5 (split; [by rewrite ?Htimeout|]). exact H5.
  - destruct (Hafter mm Hwf eq_refl (fun _ H => H) ltac:(done) eq_refl)
      as (mm1 & H1 & H2 & H3 & H4 & H5).
    exists e, mm1. do 5 (split; [by rewrite ?Htimeout|]). exact H5.
Qed.

(** The whole loop on a well-formed manager. [new] holds the requests
    it passes to [ChatCompletion]. *)
Lemma retry_sound (left attempt : nat) (mm : ModelManager) (sent : list ChatRequest) :
  calls.well_formed mm ->
  exists mm' new out,
    handlers.retry prepare succeed writeError upstream left attempt mm sent
      = (mm', sent ++ new, Returned out) /\
    calls.well_formed mm' /\ Candidates mm' = Candidates mm /\
    (forall x, get_bool (Burned mm) x = true -> get_bool (Burned mm') x = true) /\
    (1 <= length new <= S left)%nat /\
    (exists c, Current mm = Some c /\ head new = Some (adapter.with_Model base (ID c))) /\
    (forall r, r ∈ new ->
       exists m, m ∈ Candidates mm /\ r = adapter.with_Model base (ID m)) /\
    (forall r, r ∈ tail new -> get_bool (Burned mm) (Req_Model r) = false) /\
    (NoDup (map ID (Candidates mm)) ->
     forall i r r', new !! i = Some r -> new !! S i = Some r' ->
       Req_Model r <> Req_Model r') /\
    (forall j r e, new !! j = Some r ->
       handlers.answer upstream (attempt + j) = client.fail e ->
       client.isTimeout e = true ->
       get_bool (Burned mm') (Req_Model r) = true /\
       forall j' r', (j < j')%nat -> new !! j' = Some r' -> Req_Model r' <> Req_Model r) /\
    (forall j, (S j < length new)%nat ->
       exists e, handlers.answer upstream (attempt + j) = client.fail e) /\
    ((exists c' resp,
        handlers.answer upstream (attempt + length new - 1) = client.ok resp /\
        Current mm' = Some c' /\
        last new = Some (adapter.with_Model base (ID c')) /\
        out = succeed (adapter.with_Model base (ID c')) resp) \/
     (exists e,
        handlers.answer upstream (attempt + length new - 1) = client.fail e /\
        out = writeError handlers.StatusInternalServerError
                ("chat completion failed after 3 attempts: " ++ client.Error e)%string)).
Proof using prepare_current.
  revert attempt mm sent.
  induction left as [|left' IH]; intros attempt mm sent Hwf;
    pose proof Hwf as (Hidx & Hlen & c & Hcur & Hc);
    pose proof (index_elem_of _ _ _ Hc) as Hin.
  (* An attempt that ends the request, with the manager [mm1]. *)
  all: assert (Hend : forall mm1 out,
      calls.well_formed mm1 -> Candidates mm1 = Candidates mm ->
      (forall x, get_bool (Burned mm) x = true -> get_bool (Burned mm1) x = true) ->
      (forall e, handlers.answer upstream attempt = client.fail e ->
                 client.isTimeout e = true -> get_bool (Burned mm1) (ID c) = true) ->
      ((exists resp, handlers.answer upstream attempt = client.ok resp /\
                     Current mm1 = Some c /\
                     out = succeed (adapter.with_Model base (ID c)) resp) \/
       (exists e, handlers.answer upstream attempt = client.fail e /\
                  out = writeError handlers.StatusInternalServerError
                          ("chat completion failed after 3 attempts: "
                           ++ client.Error e)%string)) ->
      forall n : nat,
      exists mm' new out',
        (mm1, sent ++ [adapter.with_Model base (ID c)], Returned out)
          = (mm', sent ++ new, Returned out') /\
        calls.well_formed mm' /\ Candidates mm' = Candidates mm /\
        (forall x, get_bool (Burned mm) x = true -> get_bool (Burned mm') x = true) /\
        (1 <= length new <= S n)%nat /\
        (exists c, Current mm = Some c /\
                   head new = Some (adapter.with_Model base (ID c))) /\
        (forall r, r ∈ new ->
           exists m, m ∈ Candidates mm /\ r = adapter.with_Model base (ID m)) /\
        (forall r, r ∈ tail new -> get_bool (Burned mm) (Req_Model r) = false) /\
        (NoDup (map ID (Candidates mm)) ->
         forall i r r', new !! i = Some r -> new !! S i = Some r' ->
           Req_Model r <> Req_Model r') /\
        (forall j r e, new !! j = Some r ->
           handlers.answer upstream (attempt + j) = client.fail e ->
           client.isTimeout e = true ->
           get_bool (Burned mm') (Req_Model r) = true /\
           forall j' r', (j < j')%nat -> new !! j' = Some r' ->
             Req_Model r' <> Req_Model r) /\
        (forall j, (S j < length new)%nat ->
           exists e, handlers.answer upstream (attempt + j) = client.fail e) /\
        ((exists c' resp,
            handlers.answer upstream (attempt + length new - 1) = client.ok resp /\
            Current mm' = Some c' /\
            last new = Some (adapter.with_Model base (ID c')) /\
            out' = succeed (adapter.with_Model base (ID c')) resp) \/
         (exists e,
            handlers.answer upstream (attempt + length new - 1) = client.fail e /\
            out' = writeError handlers.StatusInternalServerError
                     ("chat completion failed after 3 attempts: "
                      ++ client.Error e)%string))).
  1, 3: intros mm1 out Hwf1 Hc1 Hmono Hburn Hout n;
    exists mm1, [adapter.with_Model base (ID c)], out;
    split; [done|]; split; [done|]; split; [done|]; split; [done|];
    split; [simpl; lia|]; split; [by exists c|];
    split; [intros r ->%list_elem_of_singleton; by exists c|];
    split; [intros r Hr; by apply elem_of_nil in Hr|];
    split; [intros _ i r r' _ Hr'; by destruct i|];
    split; [|split; [intros j Hj; simpl in Hj; lia|]].
  1, 3: intros [|j] r e Hr He Ht; [|done]; injection Hr as <-;
    rewrite Nat.add_0_r in He; split; [by apply (Hburn e)|];
    intros [|j'] r' Hj' Hr'; [lia | done].
  1, 2: simpl; replace (attempt + 1 - 1)%nat with attempt by lia;
    destruct Hout as [(resp & Ha & Hcur1 & ->) | (e & Ha & ->)];
    [left; by exists c, resp | right; by exists e].
  - (* the last attempt *)
    destruct (retry_step 0 attempt mm sent c Hwf Hcur)
      as [(resp & Ha & ->) | (e & mm1 & Ha & Hwf1 & Hc1 & Hmono & Hburn & Hrun)].
    + apply (Hend mm _ Hwf eq_refl (fun _ H => H)); [|left; by exists resp].
      intros e He. by rewrite Ha in He.
    + cbv zeta in Hrun.
      assert (Hrun' : handlers.retry prepare succeed writeError upstream 0 attempt mm sent
                = (mm1, sent ++ [adapter.with_Model base (ID c)],
                   Returned (writeError handlers.StatusInternalServerError
                      ("chat completion failed after 3 attempts: "
                       ++ client.Error e)%string))).
      { by destruct Hrun as [-> | (_ & _ & ->)]. }
      rewrite Hrun'. apply (Hend mm1 _ Hwf1 Hc1 Hmono); [|right; by exists e].
      intros e' He'. rewrite Ha in He'. by injection He' as <-.
  - destruct (retry_step (S left') attempt mm sent c Hwf Hcur)
      as [(resp & Ha & ->) | (e & mm1 & Ha & Hwf1 & Hc1 & Hmono & Hburn & Hrun)].
    + apply (Hend mm _ Hwf eq_refl (fun _ H => H)); [|left; by exists resp].
      intros e He. by rewrite Ha in He.
    + cbv zeta in Hrun. destruct Hrun as [-> | (Hne & (m1 & Hcur1 & Hnb1) & ->)].
      { apply (Hend mm1 _ Hwf1 Hc1 Hmono); [|right; by exists e].
        intros e' He'. rewrite Ha in He'. by injection He' as <-. }
      clear Hend.
      destruct (IH (S attempt) mm1 (sent ++ [adapter.with_Model base (ID c)]) Hwf1)
        as (mm' & new' & out & -> & Hwf' & Hc' & Hmono' & Hlen' & (c1 & Hcur1' & Hhead)
            & Helem & Htail & Hadj & Htime & Hfail & Hout).
      rewrite Hcur1 in Hcur1'. injection Hcur1' as <-.
      assert (Hfresh : forall x, get_bool (Burned mm1) x = false ->
                                 get_bool (Burned mm) x = false).
      { intros x Hx. destruct (get_bool (Burned mm) x) eqn:E; [|done].
        apply Hmono in E. by rewrite E in Hx. }
      assert (Hunburned : forall r, r ∈ new' -> get_bool (Burned mm1) (Req_Model r) = false).
      { intros r Hr. destruct new' as [|r0 rest]; [by apply elem_of_nil in Hr|].
        simpl in Hhead. injection Hhead as ->.
        apply elem_of_cons in Hr as [-> | Hr]; [done|]. by apply Htail. }
      exists mm', (adapter.with_Model base (ID c) :: new'), out.
      split; [by rewrite <- app_assoc|].
      split; [done|]. split; [congruence|].
      split; [intros x Hx; by apply Hmono', Hmono|].
      split; [simpl; lia|].
      split; [by exists c|].
      split.
      { intros r [-> | Hr]%elem_of_cons; [by exists c|].
        rewrite <- Hc1. by apply Helem. }
      split; [intros r Hr; by apply Hfresh, Hunburned|].
      split.
      { intros Hnd [|i] r r' Hr Hr'; simpl in Hr, Hr'.
        - injection Hr as <-. destruct new' as [|r0 rest]; [done|].
          simpl in Hhead, Hr'. injection Hhead as ->. injection Hr' as <-. simpl.
          destruct Hwf1 as (_ & _ & m1' & Hm1 & Hm1').
          rewrite Hcur1 in Hm1. injection Hm1 as <-. rewrite Hc1 in Hm1'.
          intros E. by apply (index_ID_differ _ _ _ _ _ Hnd Hm1' Hc Hne).
        - apply (Hadj ltac:(by rewrite Hc1) i r r' Hr Hr'). }
      split.
      { intros [|j] r e' Hr He' Ht; simpl in Hr.
        - injection Hr as <-. rewrite Nat.add_0_r, Ha in He'. injection He' as <-.
          split; [by apply Hmono', Hburn|].
          intros [|j'] r' Hj' Hr'; [lia|]. simpl in Hr'.
          apply list_elem_of_lookup_2, Hunburned in Hr'.
          intros E. rewrite E in Hr'. simpl in Hr'. rewrite (Hburn Ht) in Hr'. done.
        - rewrite Nat.add_succ_r in He'.
          destruct (Htime j r e' Hr He' Ht) as [Hb Hlater].
          split; [done|].
          intros [|j'] r' Hj' Hr'; [lia|]. simpl in Hr'.
          apply (Hlater j' r'); [lia | done]. }
      split.
      { intros [|j] Hj; simpl in Hj.
        - rewrite Nat.add_0_r. by exists e.
        - rewrite Nat.add_succ_r. apply Hfail. lia. }
      simpl length.
      replace (attempt + S (length new') - 1)%nat with (S attempt + length new' - 1)%nat
        by lia.
      destruct Hout as [(c' & resp & Hok & Hcur' & Hlast & ->) | (e' & He' & ->)].
      * left. exists c', resp. split_and!; try done.
        destruct new' as [|r0 rest]; [done|]. by rewrite last_cons_cons.
      * right. by exists e'.
Qed.

(** A first attempt that times out or is refused with 429 or a status
    of 500 or more, while another candidate is healthy, and a second
    attempt that is answered. *)
Lemma retry_fails_over (left : nat) (mm : ModelManager) (sent : list ChatRequest)
    (c : Model) (e : client.error) (resp : wire.ChatResponse) :
  calls.well_formed mm -> Current mm = Some c ->
  handlers.answer upstream 0 = client.fail e ->
  (client.isTimeout e = true \/
   exists status, client.StatusCode e = Some status /\ (status = 429 \/ 500 <= status)) ->
  (exists q m', 0 <= q < manager.len mm /\ q <> CurrentIdx mm /\
                index (Candidates mm) q = Some m' /\ ID m' <> ID c /\
                spec.healthy mm m' = true) ->
  handlers.answer upstream 1 = client.ok resp ->
  let mm' :=
    match e with
    | client.HTTPError code _ =>
        fst (manager.recordFailure mm (ID c) code (handlers.now (upstream 0)))
    | _ => fst (manager.recordTimeout mm (ID c))
    end in
  exists m,
    Current mm' = Some m /\
    handlers.retry prepare succeed writeError upstream (S left) 0 mm sent
      = (mm', sent ++ [adapter.with_Model base (ID c); adapter.with_Model base (ID m)],
         Returned (succeed (adapter.with_Model base (ID m)) resp)) /\
    CurrentIdx mm' <> CurrentIdx mm /\
    index (Candidates mm) (CurrentIdx mm') = Some m /\
    Candidates mm' = Candidates mm /\
    get_bool (Burned mm') (ID m) = false /\ get_int (Failures mm') (ID m) < 3 /\
    (client.isTimeout e = true ->
       get_bool (Burned mm') (ID c) = true /\ ID m <> ID c /\
       Failures mm' = Failures mm) /\
    (client.isTimeout e = false ->
       Burned mm' = Burned mm /\
       get_int (Failures mm') (ID c) = incr (get_int (Failures mm) (ID c))).
Proof using prepare_current.
  intros Hwf Hcur Ha Hretry (q & m' & Hq & Hqne & Hm' & Hid & Hhealthy) Ha1.
  unfold spec.healthy in Hhealthy.
  apply andb_true_iff in Hhealthy as [Hnb Hnf].
  apply negb_true_iff in Hnb. apply negb_true_iff, Z.leb_gt in Hnf.
  assert (Hlen : (1 <? manager.len mm) = true).
  { destruct Hwf as (Hidx & _). apply Z.ltb_lt. lia. }
  assert (Hsecond : forall mm2 m, Current mm2 = Some m ->
            handlers.retry prepare succeed writeError upstream left 1 mm2
              (sent ++ [adapter.with_Model base (ID c)])
            = (mm2, sent ++ [adapter.with_Model base (ID c);
                             adapter.with_Model base (ID m)],
               Returned (succeed (adapter.with_Model base (ID m)) resp))).
  { intros mm2 m Hm. rewrite retry_unfold, (prepare_current mm2 _ m Hm), Ha1.
    by rewrite <- app_assoc. }
  intros mm'. subst mm'.
  rewrite retry_unfold, (prepare_current mm _ c Hcur), Ha. cbv zeta.
  change (Req_Model (adapter.with_Model base (ID c))) with (ID c).
  destruct (client.isTimeout e) eqn:Htimeout.
  - destruct e as [| duration |]; try done.
    unfold manager.recordTimeout, manager.switchToNextModel.
    pose proof (count_timeout_well_formed mm (ID c) Hwf) as Hwf1.
    set (mm1 := manager.count_timeout mm (ID c)) in *.
    change (manager.len mm1) with (manager.len mm). rewrite Hlen.
    destruct (scan_well_formed manager.skip_burned_or_failed mm1 Hwf1)
      as [(p & m & -> & Hp & Hskip & Hne & Hwf') | [_ Hall]].
    + apply skip_burned_or_failed_false in Hskip as [Hb Hf].
      exists m. split; [done|].
      split; [by apply Hsecond|]. simpl.
      do 5 (split; [done|]). split; [|done]. intros _.
      assert (Hbc : get_bool (Burned mm1) (ID c) = true).
      { unfold mm1, manager.count_timeout, get_bool; simpl. by rewrite lookup_insert_eq. }
      split; [done|]. split; [|done].
      intros E. rewrite E in Hb. by rewrite Hbc in Hb.
    + specialize (Hall q m' Hq Hqne Hm').
      apply skip_burned_or_failed_true in Hall as [Hall | Hall].
      * unfold mm1, manager.count_timeout, get_bool in Hall; simpl in Hall.
        rewrite lookup_insert_ne in Hall by done.
        unfold get_bool in Hnb. by rewrite Hnb in Hall.
      * unfold mm1 in Hall. simpl in Hall. lia.
  - destruct Hretry as [? | (status & Hstatus & Hcode)]; [done|].
    destruct e as [code message | |]; try done.
    injection Hstatus as ->.
    unfold handlers.tryParseAPIError. simpl client.StatusCode. cbv iota beta.
    simpl wire.Err_Code.
    unfold manager.recordFailure, manager.switchToNextModel.
    pose proof (count_failure_well_formed mm (ID c) (handlers.now (upstream 0)) Hwf)
      as Hwf1.
    set (mm1 := manager.count_failure mm (ID c) (handlers.now (upstream 0))) in *.
    change (manager.len mm1) with (manager.len mm). rewrite Hlen.
    assert (Hswitch : manager.recordFailure_shouldSwitch mm1 (ID c) status = true).
    { unfold manager.recordFailure_shouldSwitch.
      destruct Hcode as [-> | Hcode]; [done|].
      apply Z.leb_le in Hcode. rewrite Hcode. by rewrite orb_true_r. }
    rewrite Hswitch. simpl andb. cbv iota.
    destruct (scan_well_formed manager.skip_burned_or_failed mm1 Hwf1)
      as [(p & m & -> & Hp & Hskip & Hne & Hwf') | [_ Hall]].
    + apply skip_burned_or_failed_false in Hskip as [Hb Hf].
      exists m. split; [done|].
      split; [by apply Hsecond|]. simpl.
      do 5 (split; [done|]). split; [done|]. intros _.
      split; [done|]. apply get_int_insert.
    + specialize (Hall q m' Hq Hqne Hm').
      apply skip_burned_or_failed_true in Hall as [Hall | Hall].
      * unfold mm1 in Hall. simpl in Hall. by rewrite Hnb in Hall.
      * unfold mm1, manager.count_failure, get_int in Hall; simpl in Hall.
        rewrite lookup_insert_ne in Hall by done.
        unfold get_int in Hnf. lia.
Qed.

(** A first failure that is neither a timeout nor a status that asks
    for a switch ends the request. *)
Lemma retry_gives_up (left attempt : nat) (mm : ModelManager) (sent : list ChatRequest)
    (c : Model) (e : client.error) :
  Current mm = Some c ->
  handlers.answer upstream attempt = client.fail e ->
  client.isTimeout e = false ->
  match handlers.tryParseAPIError e with
  | None => True
  | Some apiErr =>
      wire.Err_Code apiErr <> 429 /\ wire.Err_Code apiErr < 500 /\
      0 <= get_int (Failures mm) (ID c) < 2
  end ->
  handlers.retry prepare succeed writeError upstream left attempt mm sent
  = (match handlers.tryParseAPIError e with
     | None => mm
     | Some _ => manager.count_failure mm (ID c) (handlers.now (upstream attempt))
     end,
     sent ++ [adapter.with_Model base (ID c)],
     Returned (writeError handlers.StatusInternalServerError
                 ("chat completion failed after 3 attempts: " ++ client.Error e)%string)).
Proof using prepare_current.
  intros Hcur Ha Htimeout Hcode.
  rewrite retry_unfold, (prepare_current mm _ c Hcur), Ha. cbv zeta.
  rewrite Htimeout.
  change (Req_Model (adapter.with_Model base (ID c))) with (ID c).
  destruct (handlers.tryParseAPIError e) as [apiErr|]; [|done].
  destruct Hcode as (H429 & H500 & Hf).
  unfold manager.recordFailure.
  set (mm1 := manager.count_failure mm (ID c) (handlers.now (upstream attempt))).
  assert (Hswitch : manager.recordFailure_shouldSwitch mm1 (ID c) (wire.Err_Code apiErr)
                    = false).
  { unfold manager.recordFailure_shouldSwitch.
    rewrite !orb_false_iff, Z.eqb_neq, !Z.leb_gt. split; [split; [done|lia]|].
    unfold mm1, manager.count_failure. simpl. rewrite get_int_insert.
    unfold incr, wrap_int. rewrite Z.mod_small by lia. lia. }
  by rewrite Hswitch.
Qed.

End Loop.

(** Two loops that make the same requests differ only in how they
    write the response. *)
Lemma retry_agree {fmt : client.Fmt}
    (prepare1 prepare2 : ModelManager -> result (list Model) -> outcome (result ChatRequest))
    (succeed1 succeed2 : ChatRequest -> wire.ChatResponse -> handlers.Response)
    (writeError1 writeError2 : Z -> string -> handlers.Response)
    (upstream : nat -> handlers.Attempt) (left attempt : nat) (mm : ModelManager)
    (sent : list ChatRequest) :
  (forall mm free, prepare1 mm free = prepare2 mm free) ->
  exists mm' sent',
    (exists msg,
       handlers.retry prepare1 succeed1 writeError1 upstream left attempt mm sent
         = (mm', sent', Panicked msg) /\
       handlers.retry prepare2 succeed2 writeError2 upstream left attempt mm sent
         = (mm', sent', Panicked msg)) \/
    (exists req resp,
       handlers.retry prepare1 succeed1 writeError1 upstream left attempt mm sent
         = (mm', sent', Returned (succeed1 req resp)) /\
       handlers.retry prepare2 succeed2 writeError2 upstream left attempt mm sent
         = (mm', sent', Returned (succeed2 req resp))) \/
    (exists status msg,
       handlers.retry prepare1 succeed1 writeError1 upstream left attempt mm sent
         = (mm', sent', Returned (writeError1 status msg)) /\
       handlers.retry prepare2 succeed2 writeError2 upstream left attempt mm sent
         = (mm', sent', Returned (writeError2 status msg))).
Proof.
  intros Hprepare. revert attempt mm sent.
  induction left as [|left' IH]; intros attempt mm sent;
    rewrite (retry_unfold prepare1 succeed1 writeError1 upstream _ attempt mm sent),
            (retry_unfold prepare2 succeed2 writeError2 upstream _ attempt mm sent),
            (Hprepare mm);
    (destruct (prepare2 mm _) as [[req|err]|msg];
     [ | eexists _, _; right; right; by eexists _, _ | eexists _, _; left; by eexists ]);
    (destruct (handlers.answer upstream attempt) as [resp|e];
     [ eexists _, _; right; left; by eexists _, _ | ]);
    cbv zeta;
    destruct (client.isTimeout e);
    try (destruct (manager.recordTimeout mm (Req_Model req)) as [mm1 [[|]|msg]]);
    try (destruct (handlers.tryParseAPIError e) as [apiErr|]);
    try (destruct (manager.recordFailure _ (Req_Model req) _ _) as [mm2 [[|]|msg']]);
    first [ apply IH
          | eexists _, _; left; by eexists
          | eexists _, _; right; right; by eexists _, _ ].
Qed.

Section Handlers.

Context {lib : Library} {fmt : client.Fmt}.
Variable cfg : Config.

Lemma getCurrentModelID_returns (mm : ModelManager) (free : result (list Model)) :
  exists id, adapter.getCurrentModelID cfg mm free = Returned id.
Proof.
  unfold adapter.getCurrentModelID. destruct (Current mm); [by eexists|].
  unfold model.GetBestModelID.
  destruct (SelectBest_returns cfg free) as [[m|err] ->]; by eexists.
Qed.

Lemma attemptRequest_current (mm : ModelManager) (free : result (list Model))
    (anthropicReq : gmap string adapter.json) (base : ChatRequest) (c : Model) :
  adapter.ConvertAnthropicToOpenAI anthropicReq = Ok base ->
  Current mm = Some c ->
  adapter.attemptRequest cfg mm free anthropicReq
  = Returned (Ok (adapter.with_Model base (ID c))).
Proof.
  intros Hconv Hcur. unfold adapter.attemptRequest, adapter.getCurrentModelID.
  by rewrite Hconv, Hcur.
Qed.

Lemma stamp_current (mm : ModelManager) (free : result (list Model)) (req : ChatRequest)
    (c : Model) :
  Current mm = Some c ->
  match adapter.getCurrentModelID cfg mm free with
  | Returned modelID => Returned (Ok (adapter.with_Model req modelID))
  | Panicked msg => Panicked msg
  end = Returned (Ok (adapter.with_Model req (ID c))).
Proof. intros Hcur. unfold adapter.getCurrentModelID. by rewrite Hcur. Qed.






End Handlers.






(** ** The string helpers *)

Lemma string_app_cons (x : Ascii.ascii) (a b : string) :
  (String x a ++ b)%string = String x (a ++ b)%string.
Proof. reflexivity. Qed.

Lemma string_app_nil_l (b : string) : (EmptyString ++ b)%string = b.
Proof. reflexivity. Qed.

Ltac string_simpl :=
  repeat first [rewrite string_app_cons | rewrite string_app_nil_l]; simpl.
Ltac string_simpl_in H :=
  repeat first [rewrite string_app_cons in H | rewrite string_app_nil_l in H];
  simpl in H.

Lemma string_app_assoc (a b c : string) : ((a ++ b) ++ c = a ++ (b ++ c))%string.
Proof. induction a as [|x a IH]; string_simpl; [done | by rewrite IH]. Qed.

Lemma string_app_nil_r (a : string) : (a ++ EmptyString)%string = a.
Proof. induction a as [|x a IH]; string_simpl; [done | by rewrite IH]. Qed.

Lemma string_length_app (a b : string) :
  String.length (a ++ b)%string = (String.length a + String.length b)%nat.
Proof. induction a as [|x a IH]; string_simpl; [done | by rewrite IH]. Qed.

Lemma len_app (a b : string) : cli.len (a ++ b)%string = cli.len a + cli.len b.
Proof. unfold cli.len. rewrite string_length_app. lia. Qed.

Lemma len_nonneg (a : string) : 0 <= cli.len a.
Proof. unfold cli.len. lia. Qed.

Lemma string_get_app (a b : string) (k : nat) :
  String.get (String.length a + k) (a ++ b)%string = String.get k b.
Proof. induction a as [|x a IH]; string_simpl; done. Qed.

Lemma substring_app (a t b : string) :
  String.substring (String.length a) (String.length t) (a ++ t ++ b)%string = t.
Proof.
  induction a as [|x a IH]; string_simpl; [|done].
  induction t as [|y t IHt]; string_simpl.
  - by destruct b.
  - by rewrite IHt.
Qed.

Lemma byte_at_app (a b : string) (k : Z) :
  0 <= k -> cli.byte_at (a ++ b)%string (cli.len a + k) = cli.byte_at b k.
Proof.
  intros Hk. unfold cli.byte_at. rewrite len_app.
  pose proof (len_nonneg a) as Ha.
  replace (0 <=? cli.len a + k) with true by (symmetry; apply Z.leb_le; lia).
  replace (0 <=? k) with true by (symmetry; apply Z.leb_le; lia).
  replace (cli.len a + k <? cli.len a + cli.len b) with (k <? cli.len b).
  2: { destruct (Z.ltb_spec k (cli.len b)); symmetry;
         [apply Z.ltb_lt | apply Z.ltb_ge]; lia. }
  simpl. destruct (k <? cli.len b); [|done].
  unfold cli.len. replace (Z.to_nat (Z.of_nat (String.length a) + k))
    with (String.length a + Z.to_nat k)%nat by lia.
  by rewrite string_get_app.
Qed.

Lemma byte_at_head (c : Ascii.ascii) (s : string) :
  cli.byte_at (String c s) 0 = Some (Z.of_nat (Ascii.nat_of_ascii c)).
Proof. unfold cli.byte_at, cli.len. simpl. by destruct (String.length s). Qed.

(** A byte that is not told from a blank is below 0x80. *)
Lemma space_is_ascii (c : Ascii.ascii) :
  cli.notSpace (Z.of_nat (Ascii.nat_of_ascii c)) = false ->
  (Ascii.nat_of_ascii c < 128)%nat.
Proof.
  unfold cli.notSpace. rewrite !andb_false_iff, !negb_false_iff, !Z.eqb_eq. lia.
Qed.

Lemma notSpace_high (r : Z) : 128 <= r -> cli.notSpace r = true.
Proof.
  intros Hr. unfold cli.notSpace.
  rewrite !andb_true_iff, !negb_true_iff, !Z.eqb_neq. lia.
Qed.

Lemma byte_at_blank (s : string) (j : Z) :
  cli.blank s = true -> 0 <= j < cli.len s ->
  exists b, cli.byte_at s j = Some b /\ cli.notSpace b = false.
Proof.
  revert j. induction s as [|c s IH]; intros j Hb Hj.
  { unfold cli.len in Hj. simpl in Hj. lia. }
  simpl in Hb. apply andb_true_iff in Hb as [Hc Hs]. apply negb_true_iff in Hc.
  destruct (decide (j = 0)) as [-> | Hne].
  - rewrite byte_at_head. by eexists.
  - replace j with (cli.len (String c EmptyString) + (j - 1))
      by (unfold cli.len; simpl; lia).
    change (String c s) with (String c EmptyString ++ s)%string.
    rewrite byte_at_app by lia. apply IH; [done|].
    unfold cli.len in *. simpl in Hj. lia.
Qed.

Section Strings.

Context {runes : cli.Runes}.

Lemma firstLoop_blank (s : string) (i : Z) (fuel : nat) (start : Z) :
  cli.blank s = true -> cli.firstLoop (cli.range_from s i fuel) start = start.
Proof.
  revert s i. induction fuel as [|fuel IH]; intros s i Hb; [done|].
  destruct s as [|c s]; [done|].
  simpl in Hb. apply andb_true_iff in Hb as [Hc Hs]. apply negb_true_iff in Hc.
  simpl. rewrite (cli.Decode_ascii c s (space_is_ascii c Hc)). simpl.
  rewrite Hc. by apply IH.
Qed.

Lemma firstLoop_found (pre : string) (c : Ascii.ascii) (rest : string) (i : Z)
    (fuel : nat) (start : Z) :
  cli.blank pre = true -> cli.notSpace (Z.of_nat (Ascii.nat_of_ascii c)) = true ->
  (String.length (pre ++ String c rest) <= fuel)%nat ->
  cli.firstLoop (cli.range_from (pre ++ String c rest)%string i fuel) start
  = i + cli.len pre.
Proof.
  revert i fuel. induction pre as [|a pre IH]; intros i fuel Hb Hc Hfuel.
  - string_simpl_in Hfuel. string_simpl. destruct fuel as [|fuel]; [lia|]. simpl.
    unfold cli.len. simpl. rewrite Z.add_0_r.
    destruct (Nat.lt_ge_cases (Ascii.nat_of_ascii c) 128) as [Hlow | Hhigh].
    + rewrite (cli.Decode_ascii c rest Hlow). simpl. by rewrite Hc.
    + destruct (cli.Decode_other c rest Hhigh) as [Hr _].
      destruct (cli.DecodeRuneInString (String c rest)) as [r w]. simpl in *.
      by rewrite (notSpace_high r Hr).
  - simpl in Hb. apply andb_true_iff in Hb as [Ha Hpre]. apply negb_true_iff in Ha.
    string_simpl_in Hfuel. string_simpl. destruct fuel as [|fuel]; [lia|]. simpl.
    rewrite (cli.Decode_ascii a _ (space_is_ascii a Ha)). simpl. rewrite Ha.
    rewrite IH by (done || lia). unfold cli.len. simpl String.length. lia.
Qed.

End Strings.

Lemma secondLoop_blank (s : string) (start end_ : Z) (fuel : nat) (i : Z) :
  0 <= start -> i < cli.len s ->
  (forall j, start <= j <= i ->
     exists b, cli.byte_at s j = Some b /\ cli.notSpace b = false) ->
  i - start + 1 < Z.of_nat fuel ->
  cli.secondLoop s start i end_ fuel = Returned end_.
Proof.
  revert i. induction fuel as [|fuel IH]; intros i Hstart Hi Hall Hfuel; [done|].
  simpl. destruct (Z.leb_spec start i) as [Hle | Hgt]; [|done].
  destruct (Hall i ltac:(lia)) as (b & -> & ->).
  apply IH; [done | lia | | lia].
  intros j Hj. apply Hall. lia.
Qed.

Lemma secondLoop_found (s : string) (start end_ : Z) (fuel : nat) (i l c : Z) :
  start <= l <= i ->
  (forall j, l < j <= i ->
     exists b, cli.byte_at s j = Some b /\ cli.notSpace b = false) ->
  cli.byte_at s l = Some c -> cli.notSpace c = true ->
  i - l < Z.of_nat fuel ->
  cli.secondLoop s start i end_ fuel = Returned (l + 1).
Proof.
  revert i. induction fuel as [|fuel IH]; intros i Hl Hall Hc Hns Hfuel; [lia|].
  simpl. destruct (Z.leb_spec start i) as [Hle | Hgt]; [|lia].
  destruct (decide (i = l)) as [-> | Hne].
  - by rewrite Hc, Hns.
  - destruct (Hall i ltac:(lia)) as (b & -> & ->).
    apply IH; [lia | | done | done | lia].
    intros j Hj. apply Hall. lia.
Qed.

(** The first and the last byte that is not a blank. *)
Lemma blank_split_first (s : string) :
  cli.blank s = false ->
  exists pre c rest,
    s = (pre ++ String c rest)%string /\ cli.blank pre = true /\
    cli.notSpace (Z.of_nat (Ascii.nat_of_ascii c)) = true.
Proof.
  induction s as [|a s IH]; [done|]. simpl. intros Hb.
  destruct (cli.notSpace (Z.of_nat (Ascii.nat_of_ascii a))) eqn:Ha.
  - by exists EmptyString, a, s.
  - simpl in Hb. destruct (IH Hb) as (pre & c & rest & -> & Hpre & Hc).
    exists (String a pre), c, rest. string_simpl. by rewrite Ha, Hpre.
Qed.

Lemma blank_split_last (s : string) :
  cli.blank s = false ->
  exists mid c post,
    s = (mid ++ String c post)%string /\ cli.blank post = true /\
    cli.notSpace (Z.of_nat (Ascii.nat_of_ascii c)) = true.
Proof.
  induction s as [|a s IH]; [done|]. simpl. intros Hb.
  destruct (cli.blank s) eqn:Hs.
  - rewrite andb_true_r in Hb. apply negb_false_iff in Hb.
    by exists EmptyString, a, s.
  - destruct (IH eq_refl) as (mid & c & post & -> & Hpost & Hc).
    by exists (String a mid), c, post.
Qed.

Lemma blank_app (a b : string) :
  cli.blank (a ++ b)%string = cli.blank a && cli.blank b.
Proof. induction a as [|x a IH]; string_simpl; [done|]. by rewrite IH, andb_assoc. Qed.

Lemma slice_app (a t b : string) :
  cli.slice (a ++ t ++ b)%string (cli.len a) (cli.len a + cli.len t) = Returned t.
Proof.
  unfold cli.slice. rewrite !len_app.
  pose proof (len_nonneg a). pose proof (len_nonneg t). pose proof (len_nonneg b).
  replace (0 <=? cli.len a) with true by (symmetry; apply Z.leb_le; lia).
  replace (cli.len a <=? cli.len a + cli.len t) with true
    by (symmetry; apply Z.leb_le; lia).
  replace (cli.len a + cli.len t <=? cli.len a + (cli.len t + cli.len b)) with true
    by (symmetry; apply Z.leb_le; lia).
  simpl. unfold cli.len.
  replace (Z.to_nat (Z.of_nat (String.length a) + Z.of_nat (String.length t)
                     - Z.of_nat (String.length a))) with (String.length t) by lia.
  by rewrite Nat2Z.id, substring_app.
Qed.

Section Trim.

Context {runes : cli.Runes}.

Lemma trimSpace_blank (s : string) :
  cli.blank s = true -> cli.trimSpace s = Returned s.
Proof.
  intros Hb. unfold cli.trimSpace, cli.range.
  rewrite (firstLoop_blank s 0 _ 0 Hb).
  rewrite (secondLoop_blank s 0 (cli.len s) (S (String.length s)) (cli.len s - 1));
    [ | lia | lia | | unfold cli.len; lia ].
  - destruct (Z.leb_spec (cli.len s) 0) as [Hle | Hgt].
    + destruct s; [done|]. unfold cli.len in Hle. simpl in Hle. lia.
    + pose proof (slice_app EmptyString s EmptyString) as Hs.
      rewrite string_app_nil_l, string_app_nil_r in Hs. exact Hs.
  - intros j Hj. apply byte_at_blank; [done | lia].
Qed.

(** The string between the first and the last byte that is not a
    blank. *)
Lemma trimSpace_cut (pre : string) (c : Ascii.ascii) (rest mid : string)
    (c' : Ascii.ascii) (post : string) :
  cli.blank pre = true -> cli.notSpace (Z.of_nat (Ascii.nat_of_ascii c)) = true ->
  String c rest = (mid ++ String c' post)%string ->
  cli.blank post = true -> cli.notSpace (Z.of_nat (Ascii.nat_of_ascii c')) = true ->
  cli.trimSpace (pre ++ String c rest)%string
  = Returned (mid ++ String c' EmptyString)%string.
Proof.
  intros Hpre Hc Hmid Hpost Hc'.
  set (s := (pre ++ String c rest)%string).
  set (t := (mid ++ String c' EmptyString)%string).
  assert (Ht : String c rest = (t ++ post)%string).
  { unfold t. by rewrite string_app_assoc, string_app_cons, string_app_nil_l. }
  assert (Hst : s = (pre ++ t ++ post)%string) by (unfold s; by rewrite <- Ht).
  assert (Hlen : cli.len t = cli.len mid + 1).
  { unfold t. rewrite len_app. unfold cli.len. simpl. lia. }
  pose proof (len_nonneg pre). pose proof (len_nonneg mid). pose proof (len_nonneg post).
  unfold cli.trimSpace, cli.range.
  assert (Hstart : cli.firstLoop (cli.range_from s 0 (String.length s)) 0 = cli.len pre).
  { unfold s. rewrite firstLoop_found; [lia | done | done | done]. }
  rewrite Hstart.
  rewrite (secondLoop_found s (cli.len pre) (cli.len s) (S (String.length s))
             (cli.len s - 1) (cli.len pre + cli.len mid)
             (Z.of_nat (Ascii.nat_of_ascii c'))).
  - replace (cli.len pre + cli.len mid + 1 <=? cli.len pre) with false
      by (symmetry; apply Z.leb_gt; lia).
    rewrite Hst at 1. replace (cli.len pre + cli.len mid + 1)
      with (cli.len pre + cli.len t) by lia.
    apply slice_app.
  - rewrite Hst, !len_app. lia.
  - intros j Hj. rewrite Hst in Hj |- *. rewrite !len_app in Hj.
    replace j with (cli.len pre + (cli.len t + (j - cli.len pre - cli.len t)))
      by lia.
    rewrite byte_at_app by lia. rewrite byte_at_app by lia.
    apply byte_at_blank; [done | lia].
  - unfold s. rewrite Hmid. rewrite byte_at_app by lia.
    replace (cli.len mid) with (cli.len mid + 0) by lia.
    rewrite byte_at_app by lia. apply byte_at_head.
  - done.
  - unfold cli.len. lia.
Qed.

Lemma trimSpace_returns (s : string) : exists t, cli.trimSpace s = Returned t.
Proof.
  destruct (cli.blank s) eqn:Hb.
  - exists s. by apply trimSpace_blank.
  - destruct (blank_split_first s Hb) as (pre & c & rest & -> & Hpre & Hc).
    assert (Hrest : cli.blank (String c rest) = false) by (simpl; by rewrite Hc).
    destruct (blank_split_last _ Hrest) as (mid & c' & post & Hmid & Hpost & Hc').
    eexists. by apply (trimSpace_cut pre c rest mid c' post).
Qed.

(** X19. [trimSpace] returns for every string, and what it returns
    is the string without the blanks, tabs, line feeds and carriage
    returns at its two ends, so that the result begins and ends with
    another byte, with one exception: a string that has nothing but such
    bytes is returned as it is, not as the empty string. *)
Theorem trimSpace_spec (s : string) :
  (cli.blank s = true -> cli.trimSpace s = Returned s) /\
  (cli.blank s = false ->
   exists pre t post,
     s = (pre ++ t ++ post)%string /\
     cli.blank pre = true /\ cli.blank post = true /\
     cli.trimSpace s = Returned t /\
     (exists c rest,
        t = String c rest /\ cli.notSpace (Z.of_nat (Ascii.nat_of_ascii c)) = true) /\
     (exists body c,
        t = (body ++ String c EmptyString)%string /\
        cli.notSpace (Z.of_nat (Ascii.nat_of_ascii c)) = true)).
Proof.
  split; [apply trimSpace_blank|].
  intros Hb.
  destruct (blank_split_first s Hb) as (pre & c & rest & Hs & Hpre & Hc).
  assert (Hrest : cli.blank (String c rest) = false) by (simpl; by rewrite Hc).
  destruct (blank_split_last _ Hrest) as (mid & c' & post & Hmid & Hpost & Hc').
  exists pre, (mid ++ String c' EmptyString)%string, post.
  split.
  { rewrite Hs, Hmid.
    by rewrite (string_app_assoc mid), string_app_cons, string_app_nil_l. }
  split; [done|]. split; [done|].
  split; [rewrite Hs; by apply (trimSpace_cut pre c rest mid c' post)|].
  split; [|by exists mid, c'].
  destruct mid as [|m0 mid'].
  - rewrite string_app_nil_l in Hmid. injection Hmid as -> ->.
    by exists c', EmptyString.
  - rewrite string_app_cons in Hmid. injection Hmid as <- _.
    exists c, (mid' ++ String c' EmptyString)%string. by split.
Qed.

End Trim.

Lemma trimSpace_spec_witness :
  cli.trimSpace (H := samples.bytewise) " " = Returned " " /\
  exists pre post,
    " text  " = (pre ++ "text" ++ post)%string /\
    cli.trimSpace (H := samples.bytewise) " text  " = Returned "text".
Proof.
  split.
  - by apply (trimSpace_spec (runes := samples.bytewise) " ").
  - destruct (trimSpace_spec (runes := samples.bytewise) " text  ") as [_ Hcut].
    destruct (Hcut eq_refl) as (pre & t & post & Hs & _ & _ & Ht & _).
    assert (E : t = "text").
    { assert (G : cli.trimSpace (H := samples.bytewise) " text  " = Returned "text")
        by (by vm_compute).
      rewrite G in Ht. by injection Ht. }
    subst t. by exists pre, post.
Defined.

(** *** [splitComma] *)

Lemma Join_cons2 (a b : string) (t : list string) (sep : string) :
  Join (a :: b :: t) sep = (a ++ sep ++ Join (b :: t) sep)%string.
Proof. reflexivity. Qed.

Lemma Join_snoc_app (l : list string) (x y sep : string) :
  (Join (l ++ [x]) sep ++ y)%string = Join (l ++ [(x ++ y)%string]) sep.
Proof.
  induction l as [|a l IH]; [done|].
  destruct l as [|b l].
  - simpl app. rewrite !Join_cons2. simpl Join.
    by rewrite !string_app_assoc.
  - change ((a :: b :: l) ++ [x]) with (a :: b :: (l ++ [x])).
    change ((a :: b :: l) ++ [(x ++ y)%string]) with (a :: b :: (l ++ [(x ++ y)%string])).
    rewrite !Join_cons2, !string_app_assoc. do 2 f_equal. exact IH.
Qed.

Lemma Join_snoc_nil (l : list string) (x sep : string) :
  Join ((l ++ [x]) ++ [EmptyString]) sep = (Join (l ++ [x]) sep ++ sep)%string.
Proof.
  induction l as [|a l IH].
  - simpl app. rewrite Join_cons2. simpl Join. by rewrite string_app_nil_r.
  - destruct l as [|b l].
    + simpl app. rewrite !Join_cons2. simpl Join.
      by rewrite string_app_nil_r, !string_app_assoc.
    + change (((a :: b :: l) ++ [x]) ++ [EmptyString])
        with (a :: (((b :: l) ++ [x]) ++ [EmptyString])).
      change ((a :: b :: l) ++ [x]) with (a :: b :: (l ++ [x])).
      change (((b :: l) ++ [x]) ++ [EmptyString])
        with (b :: ((l ++ [x]) ++ [EmptyString])) at 1.
      rewrite !Join_cons2, !string_app_assoc. do 2 f_equal. exact IH.
Qed.

Local Abbreviation comma := (Ascii.Ascii false false true true false true false false).

Lemma ascii_comma (c : Ascii.ascii) :
  Ascii.eqb comma c = (Z.of_nat (Ascii.nat_of_ascii c) =? 44).
Proof.
  destruct (Ascii.eqb_spec comma c) as [<- | Hne]; [done|].
  symmetry. apply Z.eqb_neq. intros E. apply Hne.
  rewrite <- (Ascii.ascii_nat_embedding c).
  by replace (Ascii.nat_of_ascii c) with 44%nat by lia.
Qed.

Lemma Contains_comma_cons (c : Ascii.ascii) (s : string) :
  Contains (String c s) "," = (Z.of_nat (Ascii.nat_of_ascii c) =? 44) || Contains s ",".
Proof.
  change (Contains (String c s) ",")
    with (Ascii.eqb comma c && HasPrefix s EmptyString || Contains s ",").
  rewrite <- ascii_comma. replace (HasPrefix s EmptyString) with true by (by destruct s).
  by rewrite andb_true_r.
Qed.

Lemma Contains_comma_snoc (a : string) (c : Ascii.ascii) :
  Contains (a ++ String c EmptyString) ","
  = Contains a "," || (Z.of_nat (Ascii.nat_of_ascii c) =? 44).
Proof.
  induction a as [|x a IH].
  - rewrite string_app_nil_l, Contains_comma_cons. simpl. by rewrite orb_false_r.
  - rewrite string_app_cons, !Contains_comma_cons, IH. by rewrite orb_assoc.
Qed.

Section Split.

Context {runes : cli.Runes}.

Lemma range_from_ascii (c : Ascii.ascii) (s : string) (i : Z) (fuel : nat) :
  (Ascii.nat_of_ascii c < 128)%nat ->
  cli.range_from (String c s) i (S fuel)
  = (i, Z.of_nat (Ascii.nat_of_ascii c)) :: cli.range_from s (i + 1) fuel.
Proof. intros Hc. simpl. by rewrite (cli.Decode_ascii c s Hc). Qed.

(** The loop of [splitComma] on ASCII text: the pieces it has made and
    the piece it is making spell the text read so far, and no piece has
    a comma. *)
Lemma splitComma_loop_ascii (s : string) (i : Z) (fuel : nat) (result : list string)
    (current : string) :
  isASCII s = true -> (String.length s <= fuel)%nat ->
  exists r c,
    cli.splitComma_loop (cli.range_from s i fuel) result current = (r, c) /\
    Join (r ++ [c]) "," = (Join (result ++ [current]) "," ++ s)%string /\
    ((forall p, p ∈ result -> Contains p "," = false) ->
     Contains current "," = false ->
     (forall p, p ∈ r -> Contains p "," = false) /\ Contains c "," = false).
Proof.
  revert i fuel result current.
  induction s as [|a s IH]; intros i fuel result current Hascii Hfuel.
  - exists result, current. split; [by destruct fuel|].
    split; [by rewrite string_app_nil_r | done].
  - simpl in Hascii. apply andb_true_iff in Hascii as [Ha Hs].
    apply Nat.ltb_lt in Ha. simpl in Hfuel.
    destruct fuel as [|fuel]; [lia|].
    rewrite (range_from_ascii a s i fuel Ha). simpl cli.splitComma_loop.
    destruct (Z.eqb_spec (Z.of_nat (Ascii.nat_of_ascii a)) 44) as [Hcomma | Hother].
    + destruct (IH (i + 1) fuel (result ++ [current]) EmptyString Hs ltac:(lia))
        as (r & c & Hrun & Hjoin & Hfree).
      exists r, c. split; [done|]. split.
      * rewrite Hjoin, Join_snoc_nil, string_app_assoc.
        assert (a = comma) as ->; [|done].
        rewrite <- (Ascii.ascii_nat_embedding a).
        by replace (Ascii.nat_of_ascii a) with 44%nat by lia.
      * intros Hres Hcur. apply Hfree; [|done].
        intros p [Hp | ->%list_elem_of_singleton]%elem_of_app; [by apply Hres | done].
    + rewrite (cli.string_of_rune_ascii a Ha).
      destruct (IH (i + 1) fuel result (current ++ String a EmptyString)%string Hs
                  ltac:(lia)) as (r & c & Hrun & Hjoin & Hfree).
      exists r, c. split; [done|]. split.
      * rewrite Hjoin, <- Join_snoc_app, string_app_assoc.
        by rewrite string_app_cons, string_app_nil_l.
      * intros Hres Hcur. apply Hfree; [done|].
        rewrite Contains_comma_snoc, Hcur. simpl. by apply Z.eqb_neq.
Qed.

(** X20. On ASCII text [splitComma] cuts at every comma: no piece
    has a comma, and the pieces joined by commas spell the text again,
    but for one comma at its end, which closes the last piece without
    opening another. Only the empty text gives no piece. *)
Theorem splitComma_spec (s : string) :
  isASCII s = true ->
  (forall p, p ∈ cli.splitComma s -> Contains p "," = false) /\
  (cli.splitComma s = [] <-> s = EmptyString) /\
  (Join (cli.splitComma s) "," = s \/
   (Join (cli.splitComma s) "," ++ ",")%string = s).
Proof.
  intros Hascii. unfold cli.splitComma, cli.range.
  destruct (splitComma_loop_ascii s 0 (String.length s) [] EmptyString Hascii
              ltac:(lia)) as (r & c & -> & Hjoin & Hfree).
  simpl in Hjoin. rewrite ?string_app_nil_l in Hjoin.
  destruct Hfree as [Hr Hc]; [by intros p Hp%elem_of_nil | done |].
  destruct (String.eqb_spec c EmptyString) as [-> | Hne]; simpl.
  - split; [done|]. destruct r as [|x r' _] using rev_ind.
    + split; [by split|]. by left.
    + split.
      * split; [intros E; by destruct r'|].
        intros ->. rewrite Join_snoc_nil in Hjoin. by destruct (Join _ _).
      * right. by rewrite <- Join_snoc_nil.
  - split.
    { intros p [Hp | ->%list_elem_of_singleton]%elem_of_app; [by apply Hr | done]. }
    split; [|by left]. split.
    + intros E. by destruct r.
    + intros ->. rewrite <- (string_app_nil_l c), <- Join_snoc_app in Hjoin.
      destruct c; [done|]. by destruct (Join _ _).
Qed.

End Split.

(** *** [splitAndTrim] and the preferred architectures *)

Lemma HasPrefix_app (p y : string) : HasPrefix (p ++ y) p = true.
Proof.
  induction p as [|c p IH]; [by destruct y|].
  rewrite string_app_cons.
  change (Ascii.eqb c c && HasPrefix (p ++ y) p = true).
  by rewrite Ascii.eqb_refl, IH.
Qed.

Lemma Contains_unfold (s p : string) :
  Contains s p
  = HasPrefix s p || match s with
                     | EmptyString => false
                     | String _ s' => Contains s' p
                     end.
Proof. by destruct s. Qed.

Lemma Contains_middle (x p y : string) : Contains (x ++ p ++ y) p = true.
Proof.
  induction x as [|c x IH].
  - rewrite string_app_nil_l, Contains_unfold. by rewrite HasPrefix_app.
  - rewrite string_app_cons.
    change (HasPrefix (String c (x ++ p ++ y)) p || Contains (x ++ p ++ y) p = true).
    rewrite IH. apply orb_true_r.
Qed.

Section Parts.

Context {lib : Library} {runes : cli.Runes}.

Lemma splitAndTrim_loop_spec (pieces parts : list string) :
  exists trimmed,
    Forall2 (fun piece t => cli.trimSpace piece = Returned t) pieces trimmed /\
    cli.splitAndTrim_loop pieces parts
    = Returned (parts ++ filter (fun t => t <> EmptyString) trimmed).
Proof.
  revert parts. induction pieces as [|p pieces IH]; intros parts.
  - exists []. split; [constructor|]. simpl. by rewrite app_nil_r.
  - destruct (trimSpace_returns p) as [t Ht]. simpl. rewrite Ht.
    destruct (String.eqb_spec t EmptyString) as [-> | Hne]; simpl.
    + destruct (IH parts) as (trimmed & Hall & ->).
      exists (EmptyString :: trimmed). split; [by constructor|].
      by rewrite filter_cons_False by (intros H; by apply H).
    + destruct (IH (parts ++ [t])) as (trimmed & Hall & ->).
      exists (t :: trimmed). split; [by constructor|].
      rewrite filter_cons_True by done. by rewrite <- app_assoc.
Qed.

(** X21. [splitAndTrim] returns for every text: it trims every piece
    that [splitComma] makes and keeps, in order, the results that are
    not empty. Since [trimSpace] leaves a piece of nothing but blanks as
    it is, such a piece is kept, blanks and all, unless it is empty; a
    piece with another byte in it is kept with both ends trimmed. *)
Theorem splitAndTrim_spec (s : string) :
  exists trimmed,
    Forall2 (fun piece t => cli.trimSpace piece = Returned t) (cli.splitComma s) trimmed /\
    cli.splitAndTrim s = Returned (filter (fun t => t <> EmptyString) trimmed) /\
    (forall parts, cli.splitAndTrim s = Returned parts ->
       (EmptyString ∉ parts) /\
       (forall piece, piece ∈ cli.splitComma s -> piece <> EmptyString ->
          cli.blank piece = true -> piece ∈ parts) /\
       (forall p, p ∈ parts ->
          exists piece pre post,
            piece ∈ cli.splitComma s /\ piece = (pre ++ p ++ post)%string /\
            cli.blank pre = true /\ cli.blank post = true /\
            (cli.blank piece = true -> p = piece))).
Proof.
  unfold cli.splitAndTrim.
  destruct (splitAndTrim_loop_spec (cli.splitComma s) []) as (trimmed & Hall & Hrun).
  simpl in Hrun. exists trimmed. split; [done|]. split; [done|].
  intros parts Hparts. rewrite Hrun in Hparts. injection Hparts as <-.
  split; [|split].
  - intros [H _]%list_elem_of_filter. by apply H.
  - intros piece Hin Hne Hb.
    apply list_elem_of_lookup in Hin as [i Hi].
    destruct (Forall2_lookup_l _ _ _ _ _ Hall Hi) as (t & Ht & Htrim).
    rewrite (trimSpace_blank piece Hb) in Htrim. injection Htrim as <-.
    apply list_elem_of_filter. split; [done|]. by eapply list_elem_of_lookup_2.
  - intros p [Hne Hin]%list_elem_of_filter.
    apply list_elem_of_lookup in Hin as [i Hi].
    destruct (Forall2_lookup_r _ _ _ _ _ Hall Hi) as (piece & Hpiece & Htrim).
    apply list_elem_of_lookup_2 in Hpiece.
    destruct (cli.blank piece) eqn:Hb.
    + rewrite (trimSpace_blank piece Hb) in Htrim. injection Htrim as <-.
      exists piece, EmptyString, EmptyString.
      split; [done|]. split; [by rewrite string_app_nil_l, string_app_nil_r|].
      done.
    + destruct (blank_split_first piece Hb) as (pre & c & rest & -> & Hpre & Hc).
      assert (Hrest : cli.blank (String c rest) = false) by (simpl; by rewrite Hc).
      destruct (blank_split_last _ Hrest) as (mid & c' & post & Hmid & Hpost & Hc').
      rewrite (trimSpace_cut pre c rest mid c' post Hpre Hc Hmid Hpost Hc') in Htrim.
      injection Htrim as <-.
      exists (pre ++ String c rest)%string, pre, post.
      split; [done|]. split.
      { rewrite Hmid. by rewrite (string_app_assoc mid), string_app_cons,
                                 string_app_nil_l. }
      split; [done|]. split; [done|]. intros H. by rewrite Hb in H.
Qed.

Lemma splitComma_loop_app (a b : string) (i : Z) (fuel : nat) (result : list string)
    (current : string) :
  isASCII a = true -> (String.length a <= fuel)%nat ->
  exists r c,
    cli.splitComma_loop (cli.range_from a i (String.length a)) result current = (r, c) /\
    cli.splitComma_loop (cli.range_from (a ++ b) i fuel) result current
    = cli.splitComma_loop (cli.range_from b (i + cli.len a) (fuel - String.length a))
        r c.
Proof.
  revert i fuel result current.
  induction a as [|x a IH]; intros i fuel result current Hascii Hfuel.
  - exists result, current. split; [done|].
    rewrite string_app_nil_l. unfold cli.len. simpl.
    by rewrite Z.add_0_r, Nat.sub_0_r.
  - simpl in Hascii. apply andb_true_iff in Hascii as [Hx Ha].
    apply Nat.ltb_lt in Hx. simpl in Hfuel.
    destruct fuel as [|fuel]; [lia|].
    rewrite string_app_cons.
    simpl String.length. rewrite !(range_from_ascii x _ i _ Hx).
    simpl cli.splitComma_loop.
    replace (i + cli.len (String x a)) with (i + 1 + cli.len a)
      by (unfold cli.len; simpl String.length; lia).
    simpl Nat.sub.
    destruct (Z.of_nat (Ascii.nat_of_ascii x) =? 44); apply IH; (done || lia).
Qed.

(** X22. A blank entry makes every model preferred. When one of the
    pieces of the text given for [--preferred-arch] is a single blank,
    [splitAndTrim] keeps it, and [isPreferredArchitecture] then holds of
    every modality and tokenizer, the blank being found between the two
    in the text it searches. An ASCII text that ends in a comma and a
    blank is such a text. *)
Theorem blank_entry_prefers_all :
  (forall (s : string) (cfg : Config),
     " " ∈ cli.splitComma s ->
     cli.splitAndTrim s = Returned (PreferredArchitectures cfg) ->
     forall modality tokenizer,
       model.isPreferredArchitecture cfg modality tokenizer = true) /\
  (forall a, isASCII a = true -> " " ∈ cli.splitComma (a ++ ", ")).
Proof.
  split.
  - intros s cfg Hin Hrun modality tokenizer.
    unfold cli.splitAndTrim in Hrun.
    destruct (splitAndTrim_loop_spec (cli.splitComma s) []) as (trimmed & Hall & Hrun').
    rewrite Hrun' in Hrun. simpl in Hrun. injection Hrun as Hprefs.
    assert (Hblank : " " ∈ PreferredArchitectures cfg).
    { rewrite <- Hprefs.
      apply list_elem_of_lookup in Hin as [i Hi].
      destruct (Forall2_lookup_l _ _ _ _ _ Hall Hi) as (t & Ht & Htrim).
      rewrite (trimSpace_blank " " eq_refl) in Htrim. injection Htrim as <-.
      apply list_elem_of_filter. split; [done|]. by eapply list_elem_of_lookup_2. }
    unfold model.isPreferredArchitecture.
    destruct (PreferredArchitectures cfg) as [|p prefs] eqn:E.
    { by apply elem_of_nil in Hblank. }
    apply existsb_exists. exists " ". split; [by apply list_elem_of_In|].
    change (ToLower " ") with " ". apply Contains_middle.
  - intros a Hascii. unfold cli.splitComma, cli.range.
    destruct (splitComma_loop_app a ", " 0 (String.length (a ++ ", ")) [] EmptyString
                Hascii) as (r & c & _ & ->).
    { rewrite string_length_app. lia. }
    rewrite string_length_app.
    replace (String.length a + String.length ", " - String.length a)%nat with 2%nat
      by (simpl; lia).
    rewrite (range_from_ascii (Ascii.Ascii false false true true false true false false)
               " " _ 1 ltac:(vm_compute; lia)).
    rewrite (range_from_ascii (Ascii.Ascii false false false false false true false false)
               EmptyString _ 0 ltac:(vm_compute; lia)).
    cbn [cli.splitComma_loop cli.range_from].
    change (Z.of_nat (Ascii.nat_of_ascii
              (Ascii.Ascii false false true true false true false false)) =? 44)
      with true.
    change (Z.of_nat (Ascii.nat_of_ascii
              (Ascii.Ascii false false false false false true false false)) =? 44)
      with false.
    cbv iota.
    rewrite (cli.string_of_rune_ascii
               (Ascii.Ascii false false false false false true false false)
               ltac:(vm_compute; lia)).
    rewrite string_app_nil_l. simpl.
    apply elem_of_app. right. by apply list_elem_of_singleton.
Qed.

End Parts.

Lemma splitComma_spec_witness :
  cli.splitComma (H := samples.bytewise) "text,image," = ["text"; "image"] /\
  (Join (cli.splitComma (H := samples.bytewise) "text,image,") "," ++ ",")%string
  = "text,image,".
Proof.
  destruct (splitComma_spec (runes := samples.bytewise) "text,image," eq_refl)
    as (_ & _ & [Hjoin | Hjoin]).
  - by vm_compute in Hjoin.
  - split; [by vm_compute | exact Hjoin].
Defined.

Lemma splitAndTrim_spec_witness :
  cli.splitAndTrim (H := samples.bytewise) "text, " = Returned ["text"; " "].
Proof.
  destruct (splitAndTrim_spec (runes := samples.bytewise) "text, ")
    as (trimmed & Hall & Hrun & _).
  rewrite Hrun. f_equal.
  assert (E : cli.splitComma (H := samples.bytewise) "text, " = ["text"; " "])
    by (by vm_compute).
  rewrite E in Hall.
  apply Forall2_cons_inv_l in Hall as (t1 & rest & H1 & Hall & ->).
  apply Forall2_cons_inv_l in Hall as (t2 & rest' & H2 & Hall & ->).
  apply Forall2_nil_inv_l in Hall as ->.
  vm_compute in H1, H2. injection H1 as <-. injection H2 as <-.
  by vm_compute.
Defined.

Lemma blank_entry_prefers_all_witness :
  model.isPreferredArchitecture (H := sample.smallLibrary) samples.cfgBlankArch
    "image" "Other" = true.
Proof.
  destruct (blank_entry_prefers_all (lib := sample.smallLibrary)
              (runes := samples.bytewise)) as [Hall Hends].
  apply (Hall "text, " samples.cfgBlankArch).
  - apply (Hends "text" eq_refl).
  - by vm_compute.
Defined.

(** ** The listing of the pool *)

Lemma entries_from_lookup (mm : ModelManager) (cands : list Model) (i : Z) (k : nat) :
  listing.entries_from mm i cands !! k
  = (fun m =>
       {| listing.Index := i + Z.of_nat k;
          listing.Cand_ID := ID m;
          listing.Cand_Name := Name m;
          listing.Cand_Modality := Modality (Model_Architecture m);
          listing.Cand_Tokenizer := Tokenizer (Model_Architecture m);
          listing.ContextLen := ContextLength m;
          listing.Cand_Params := Params m;
          listing.Cand_Popularity := Popularity m;
          listing.IsCurrent :=
            match Current mm with
            | Some current => String.eqb (ID m) (ID current)
            | None => false
            end;
          listing.Cand_Failures := get_int (Failures mm) (ID m) |}) <$> cands !! k.
Proof.
  revert i k. induction cands as [|m cands IH]; intros i k; [done|].
  destruct k as [|k]; simpl.
  - by rewrite Z.add_0_r.
  - rewrite IH. replace (i + 1 + Z.of_nat k) with (i + Z.pos (Pos.of_succ_nat k)) by lia.
    done.
Qed.

Section Listing.

Context {lib : Library}.
Variable cfg : Config.

(** X23. What [GET /candidates] lists when it answers 200: one
    entry for each candidate of the pool, in order, numbered from 0,
    with the failure count of its id. On a well-formed manager whose
    ids do not repeat, exactly the entry at the current index is marked
    current. A manager without a current model, such as the one a failed
    start leaves and this handler then fills, marks none. *)
Theorem candidates_listing (mm mm' : ModelManager) (free : result (list Model)) :
  manager.candidatesHandler cfg mm free = (mm', Returned manager.StatusOK) ->
  Candidates mm' <> [] /\
  (Candidates mm <> [] -> mm' = mm) /\
  length (listing.entries mm') = length (Candidates mm') /\
  (forall k m, Candidates mm' !! k = Some m ->
     exists e, listing.entries mm' !! k = Some e /\
               listing.Index e = Z.of_nat k /\ listing.Cand_ID e = ID m /\
               listing.Cand_Name e = Name m /\
               listing.Cand_Failures e = get_int (Failures mm) (ID m)) /\
  (calls.well_formed mm -> NoDup (map ID (Candidates mm)) ->
   forall k e, listing.entries mm' !! k = Some e ->
     (listing.IsCurrent e = true <-> Z.of_nat k = CurrentIdx mm)) /\
  (Current mm = None ->
   forall e, e ∈ listing.entries mm' -> listing.IsCurrent e = false).
Proof.
  intros Hrun.
  assert (Hmm : Current mm' = Current mm /\ Failures mm' = Failures mm /\
                Candidates mm' <> [] /\ (Candidates mm <> [] -> mm' = mm)).
  { unfold manager.candidatesHandler in Hrun.
    destruct (length (Candidates mm) =? 0)%nat eqn:E.
    - apply Nat.eqb_eq in E.
      destruct (model.GetTopCandidates cfg free 10) as [cands|err] eqn:Htop; [|done].
      injection Hrun as <-. simpl. split; [done|]. split; [done|]. split.
      + by apply (GetTopCandidates_10_nonempty cfg free).
      + intros Hne. by destruct (Candidates mm).
    - apply Nat.eqb_neq in E. injection Hrun as <-.
      split; [done|]. split; [done|]. split; [|done].
      intros Hnil. by rewrite Hnil in E. }
  destruct Hmm as (Hcur & Hfail & Hne & Hsame).
  split; [done|]. split; [done|].
  unfold listing.entries.
  split; [|split; [|split]].
  - apply Nat.le_antisymm.
    + destruct (le_lt_dec (length (listing.entries_from mm' 0 (Candidates mm')))
                  (length (Candidates mm'))) as [|Hlt]; [done|].
      apply lookup_lt_is_Some_2 in Hlt as [e He].
      rewrite entries_from_lookup in He.
      by rewrite (lookup_ge_None_2 (Candidates mm')) in He.
    + destruct (le_lt_dec (length (Candidates mm'))
                  (length (listing.entries_from mm' 0 (Candidates mm')))) as [|Hlt];
        [done|].
      apply lookup_lt_is_Some_2 in Hlt as [m Hm].
      pose proof (entries_from_lookup mm' (Candidates mm') 0 (length
                    (listing.entries_from mm' 0 (Candidates mm')))) as He.
      rewrite Hm in He. by rewrite lookup_ge_None_2 in He.
  - intros k m Hm. rewrite entries_from_lookup, Hm. simpl.
    eexists. split; [done|]. simpl. by rewrite Hfail.
  - intros Hwf Hnd k e He.
    assert (Hmm : mm' = mm).
    { apply Hsame. destruct Hwf as (Hidx & _). unfold manager.len in Hidx.
      intros Hnil. rewrite Hnil in Hidx. simpl in Hidx. lia. }
    subst mm'. rewrite entries_from_lookup in He.
    destruct (Candidates mm !! k) as [m|] eqn:Hm; [|done].
    injection He as <-. simpl.
    destruct Hwf as (Hidx & _ & c & -> & Hc).
    assert (Hk : index (Candidates mm) (Z.of_nat k) = Some m).
    { unfold index. apply lookup_lt_Some in Hm as Hlt.
      replace ((0 <=? Z.of_nat k) && (Z.of_nat k <? Z.of_nat (length (Candidates mm))))
        with true by (symmetry; apply andb_true_iff; split;
                      [apply Z.leb_le | apply Z.ltb_lt]; lia).
      by rewrite Nat2Z.id. }
    rewrite String.eqb_eq. split.
    + intros E. destruct (decide (Z.of_nat k = CurrentIdx mm)) as [|Hdiff]; [done|].
      by destruct (index_ID_differ _ _ _ _ _ Hnd Hk Hc Hdiff).
    + intros E. rewrite E in Hk. rewrite Hk in Hc. by injection Hc as ->.
  - intros Hnone e [k He]%list_elem_of_lookup.
    rewrite entries_from_lookup in He.
    destruct (Candidates mm' !! k) as [m|]; [|done].
    injection He as <-. simpl. by rewrite Hcur, Hnone.
Qed.

End Listing.

Lemma candidates_listing_witness :
  map listing.IsCurrent (listing.entries sample.mmBurnedNext) = [true; false; false].
Proof.
  destruct (candidates_listing (lib := sample.smallLibrary) sample.cfg0
              sample.mmBurnedNext sample.mmBurnedNext (Ok []) eq_refl)
    as (_ & _ & Hlen & _ & Hcurrent & _).
  specialize (Hcurrent sample_well_formed
              ltac:(apply (bool_decide_unpack _); by vm_compute)).
  destruct (listing.entries sample.mmBurnedNext) as [|e0 [|e1 [|e2 [|e3 rest]]]];
    try done.
  simpl. f_equal; [|f_equal; [|f_equal]].
  - by apply (Hcurrent 0%nat e0).
  - apply not_true_is_false. by intros H%(Hcurrent 1%nat e1 eq_refl).
  - apply not_true_is_false. by intros H%(Hcurrent 2%nat e2 eq_refl).
Defined.
